(** * GitLens Launchpad indicator and Home webview: a shallow embedding

    The development follows two classes of the extension:

    - [FocusIndicator] (the Launchpad status-bar indicator): its four-valued
      state, the refresh timer it owns, the window-focus pause/resume
      arithmetic and the rendering of the status-bar text, tooltip and colour;
    - [HomeWebviewProvider]: the two memoised "is an integration connected"
      flags and the handlers that read or refresh them.

    JavaScript values are modelled by what the code does with them: times and
    intervals are integers ([Z], milliseconds or minutes as in the source),
    strings are byte strings, [Map]s are [gmap]s, [undefined]-able fields are
    [option]s.  The event loop is a registry of pending timers plus a log of
    the calls the component makes on its collaborators.  Each handler runs to
    completion before the next event is delivered; where a function awaits
    and its callers drop the promise ([ensureProvider] of the code lens
    controller), what follows the [await] is a step of its own. *)

From Stdlib Require Import ZArith Lia Ascii String.
From stdpp Require Import base option list strings pretty gmap fin_maps.

Open Scope string_scope.

(** ** JavaScript string helpers *)

Module JS.

Definition dq : string := String "034"%char "".
Definition lf : string := String "010"%char "".
Definition backslash : string := String "092"%char "".
(** U+00A0 in UTF-8. *)
Definition nbsp : string := String "194"%char (String "160"%char "").

Fixpoint repeat_str (n : nat) (s : string) : string :=
  match n with
  | O => ""
  | S k => s +:+ repeat_str k s
  end.

Definition quoted (s : string) : string := dq +:+ s +:+ dq.

Definition hex_digit (n : N) : ascii :=
  match n with
  | 0 => "0" | 1 => "1" | 2 => "2" | 3 => "3" | 4 => "4" | 5 => "5"
  | 6 => "6" | 7 => "7" | 8 => "8" | 9 => "9" | 10 => "A" | 11 => "B"
  | 12 => "C" | 13 => "D" | 14 => "E" | _ => "F"
  end%N%char.

Definition in_range (lo hi : N) (c : ascii) : bool :=
  ((lo <=? N_of_ascii c) && (N_of_ascii c <=? hi))%N.

(** The characters [encodeURIComponent] leaves alone:
    A-Z a-z 0-9 - _ . ! ~ * ' ( ) *)
Definition is_unreserved (c : ascii) : bool :=
  in_range 65 90 c || in_range 97 122 c || in_range 48 57 c
  || existsb (Ascii.eqb c)
       ["-"; "_"; "."; "!"; "~"; "*"; "'"; "("; ")"]%char.

Definition percent_encode (c : ascii) : string :=
  String "%"%char
    (String (hex_digit (N_of_ascii c / 16))
       (String (hex_digit (N_of_ascii c mod 16)) "")).

Fixpoint encodeURIComponent (s : string) : string :=
  match s with
  | "" => ""
  | String c rest =>
      (if is_unreserved c then String c "" else percent_encode c)
      +:+ encodeURIComponent rest
  end.

Definition json_bool (b : bool) : string := if b then "true" else "false".

(** [x ??= v]: keep [x] when it is set, otherwise take [v]. *)
Definition nullish_assign {A} (x : option A) (v : A) : option A :=
  match x with
  | Some a => Some a
  | None => Some v
  end.

End JS.

Module Launchpad.
Import JS.

(** ** Data model *)

Inductive FocusIndicatorState := idle | disconnected | loading | load.

#[global] Instance FocusIndicatorState_eq_dec : EqDecision FocusIndicatorState.
Proof. solve_decision. Defined.

Definition state_eqb (a b : FocusIndicatorState) : bool :=
  match a, b with
  | idle, idle | disconnected, disconnected
  | loading, loading | load, load => true
  | _, _ => false
  end.

Record Repository := { owner_login : string; repo_name : string }.

(** The fields of a [FocusItem] the indicator reads. *)
Record FocusItem := {
  repository : option Repository;
  item_id : string;
  actionableCategory : string;
}.

(** The [launchpad.indicator.*] settings, as [configuration.get] returns
    them; [polling_interval] is in minutes. *)
Record Configuration := {
  indicator_enabled : bool;
  openInEditor : bool;
  polling_enabled : bool;
  polling_interval : Z;
  useColors : bool;
  groups : option (list string);
  label : option string;
  icon : option string;
}.

Inductive Command :=
| ShowFocusPage
| OpenLaunchpad (selectTopItem : bool).

(** What the status bar item displays. *)
Record StatusBarItem := {
  sb_name : string;
  sb_text : string;
  sb_tooltip : string;
  sb_color : option string;
  sb_command : option Command;
  sb_visible : bool;
}.

(** A pending timer of the event loop.  A one-shot timer made by
    [startRefreshTimer] remembers the interval its callback rearms with. *)
Inductive Timer :=
| OneShot (delay interval : Z)
| Repeating (interval : Z).

(** Calls the component makes on its collaborators. *)
Inductive Effect :=
| SetTimeout (id : nat) (delay : Z)
| SetInterval (id : nat) (ms : Z)
| ClearInterval (id : nat)
| GetCategorizedItems
| Render (text tooltip : string) (color : option string)
| StoreHasLoaded
| SendFirstLoad.

Record FocusIndicator := {
  _statusBarFocus : option StatusBarItem;
  _refreshTimer : option nat;
  _state : FocusIndicatorState;
  _lastDataUpdate : option Z;
  _lastRefreshPaused : option Z;
}.

Record Host := {
  timers : gmap nat Timer;
  next_timer : nat;
  hasLoaded : option bool;
  log : list Effect;
}.

Record Sys := { this : FocusIndicator; host : Host }.

(** What a handler reads from its surroundings while it runs. *)
Record Env := {
  cfg : Configuration;
  connected : bool;
  telemetry_enabled : bool;
  now : Z;
}.

(** *** Field updates *)

Definition with_statusBarFocus v (c : FocusIndicator) : FocusIndicator :=
  {| _statusBarFocus := v; _refreshTimer := _refreshTimer c;
     _state := _state c; _lastDataUpdate := _lastDataUpdate c;
     _lastRefreshPaused := _lastRefreshPaused c |}.

Definition with_refreshTimer v (c : FocusIndicator) : FocusIndicator :=
  {| _statusBarFocus := _statusBarFocus c; _refreshTimer := v;
     _state := _state c; _lastDataUpdate := _lastDataUpdate c;
     _lastRefreshPaused := _lastRefreshPaused c |}.

Definition with_state v (c : FocusIndicator) : FocusIndicator :=
  {| _statusBarFocus := _statusBarFocus c; _refreshTimer := _refreshTimer c;
     _state := v; _lastDataUpdate := _lastDataUpdate c;
     _lastRefreshPaused := _lastRefreshPaused c |}.

Definition with_lastDataUpdate v (c : FocusIndicator) : FocusIndicator :=
  {| _statusBarFocus := _statusBarFocus c; _refreshTimer := _refreshTimer c;
     _state := _state c; _lastDataUpdate := v;
     _lastRefreshPaused := _lastRefreshPaused c |}.

Definition with_lastRefreshPaused v (c : FocusIndicator) : FocusIndicator :=
  {| _statusBarFocus := _statusBarFocus c; _refreshTimer := _refreshTimer c;
     _state := _state c; _lastDataUpdate := _lastDataUpdate c;
     _lastRefreshPaused := v |}.

Definition with_timers v (h : Host) : Host :=
  {| timers := v; next_timer := next_timer h;
     hasLoaded := hasLoaded h; log := log h |}.

Definition with_hasLoaded v (h : Host) : Host :=
  {| timers := timers h; next_timer := next_timer h;
     hasLoaded := v; log := log h |}.

Definition emit (e : Effect) (h : Host) : Host :=
  {| timers := timers h; next_timer := next_timer h;
     hasLoaded := hasLoaded h; log := log h ++ [e] |}.

Definition upd_this (f : FocusIndicator → FocusIndicator) (s : Sys) : Sys :=
  {| this := f (this s); host := host s |}.

Definition upd_host (f : Host → Host) (s : Sys) : Sys :=
  {| this := this s; host := f (host s) |}.

(** ** The event loop's timers *)

Definition clearInterval (id : nat) (h : Host) : Host :=
  emit (ClearInterval id) (with_timers (delete id (timers h)) h).

Definition setTimeout (delay interval : Z) (h : Host) : nat * Host :=
  let id := next_timer h in
  (id, emit (SetTimeout id delay)
         {| timers := <[id := OneShot delay interval]> (timers h);
            next_timer := S id; hasLoaded := hasLoaded h; log := log h |}).

Definition setInterval (interval : Z) (h : Host) : nat * Host :=
  let id := next_timer h in
  (id, emit (SetInterval id interval)
         {| timers := <[id := Repeating interval]> (timers h);
            next_timer := S id; hasLoaded := hasLoaded h; log := log h |}).

(** Every pending timer is the one the component holds a handle to, and
    was handed out by the event loop. *)
Definition timer_inv (s : Sys) : Prop :=
  ∀ id, is_Some (timers (host s) !! id) →
        _refreshTimer (this s) = Some id ∧ id < next_timer (host s).

(** [s'] has the timers, the timer counter and the handle of [s]. *)
Definition same_sched (s s' : Sys) : Prop :=
  timers (host s') = timers (host s)
  ∧ next_timer (host s') = next_timer (host s)
  ∧ _refreshTimer (this s') = _refreshTimer (this s).

(** What holds of the indicator whenever a handler has run. *)
Definition inv (s : Sys) : Prop :=
  timer_inv s
  ∧ (_state (this s) = disconnected → _refreshTimer (this s) = None)
  ∧ (_state (this s) = load → is_Some (_lastDataUpdate (this s))).

(** What the status bar item shows, if there is one. *)
Definition shown (s : Sys) : option (string * string * option string) :=
  match _statusBarFocus (this s) with
  | Some sb => Some (sb_text sb, sb_tooltip sb, sb_color sb)
  | None => None
  end.

(** ** Collaborators that live in other modules of the extension

    [previewBadge] (constants), [pluralize] (system/string), [groupByMap]
    (system/iterable) and [groupAndSortFocusItems] (focusProvider) are
    imported by the indicator; it is parametric in them. *)

Class Helpers := {
  previewBadge : string;
  pluralize : string → nat → option string → string;
  groupByMap :
    list FocusItem → (FocusItem → string) → gmap string (list FocusItem);
  groupAndSortFocusItems :
    option (list FocusItem) → gmap string (list FocusItem);
  supportedFocusIntegrations : list string;
}.

Section Indicator.
Context `{Helpers}.

(** ** Rendering *)

(** [getTopItemLabel(item, groupLength?)] *)
Definition getTopItemLabel (item : FocusItem) (groupLength : option nat)
  : string :=
  (match repository item with
   | Some r => owner_login r +:+ "/" +:+ repo_name r
   | None => ""
   end)
  +:+ "#" +:+ item_id item
  +:+ (match groupLength with
       | Some n =>
           if (1 <? n)%nat
           then " and " +:+ pluralize "pull request" (n - 1) (Some " other ")
           else ""
       | None => ""
       end).

(** [encodeURIComponent(JSON.stringify({ source: 'indicator',
    state: { initialGroup, selectTopItem } }))] *)
Definition launchpadArgs (initialGroup : string) (selectTopItem : bool)
  : string :=
  encodeURIComponent
    ("{" +:+ quoted "source" +:+ ":" +:+ quoted "indicator" +:+ ","
     +:+ quoted "state" +:+ ":{" +:+ quoted "initialGroup" +:+ ":"
     +:+ quoted initialGroup +:+ "," +:+ quoted "selectTopItem" +:+ ":"
     +:+ json_bool selectTopItem +:+ "}}").

(** The part of the tooltip every state starts with.  The tooltip is a
    [MarkdownString] built by [appendMarkdown], which concatenates; its
    [supportHtml] and [isTrusted] flags are always set and are left out. *)
Definition tooltipHeader : string :=
  "GitLens Launchpad " +:+ previewBadge +:+ repeat_str 4 nbsp +:+ "&mdash;"
  +:+ repeat_str 4 nbsp
  +:+ "[$(gear)](command:workbench.action.openSettings?%22gitlens.launchpad%22 "
  +:+ quoted "Settings" +:+ ")"
  +:+ repeat_str 3 nbsp +:+ "|" +:+ repeat_str 3 nbsp
  +:+ "[$(circle-slash) Hide](command:gitlens.launchpad.indicator.action?"
  +:+ quoted "hide" +:+ " " +:+ quoted "Hide" +:+ ")"
  +:+ lf +:+ lf +:+ "---" +:+ lf +:+ lf.

Definition tooltipIntro : string :=
  "[Launchpad](command:gitlens.getStarted?" +:+ quoted "gitlens.welcome.launchpad"
  +:+ " " +:+ quoted "Learn about Launchpad"
  +:+ ") organizes your pull requests into actionable groups to help you focus and keep your team unblocked."
  +:+ lf +:+ lf
  +:+ "It's always accessible using the `GitLens: Open Launchpad` command from the Command Palette.".

Definition tooltipConnect : string :=
  lf +:+ lf +:+ "[Connect to GitHub](command:gitlens.launchpad.indicator.action?"
  +:+ quoted "connectGitHub" +:+ " " +:+ quoted "Connect to GitHub"
  +:+ ") to get started.".

Definition tooltipLoading : string :=
  lf +:+ lf +:+ "---" +:+ lf +:+ lf +:+ "$(loading~spin) Loading...".

Definition allCaughtUp : string := "You are all caught up!".

Definition noAttention (totalGroupedItems : nat) : string :=
  "No pull requests need your attention" +:+ backslash +:+ lf
  +:+ "(" +:+ pretty totalGroupedItems +:+ " other pull requests)".

(** The locals of [updateStatusBarWithItems] that the loop over the
    configured groups updates. *)
Record Draft := {
  d_tooltip : string;
  d_color : option string;
  d_topItem : option (FocusItem * string);
  d_topIcon : option string;
}.

Definition groupLink (spanColor iconName body group title : string)
  (selectTop : bool) : string :=
  "<span style=" +:+ quoted ("color:" +:+ spanColor +:+ ";") +:+ ">$("
  +:+ iconName +:+ ")</span> [" +:+ body
  +:+ "](command:gitlens.showLaunchpad?" +:+ launchpadArgs group selectTop
  +:+ " " +:+ quoted title +:+ ")".

Definition blockedKey (i : FocusItem) : string :=
  if (actionableCategory i =? "failed-checks")
     || (actionableCategory i =? "conflicts")
     || (actionableCategory i =? "unassigned-reviewers")
  then actionableCategory i
  else "blocked".

Definition nonempty {A} (o : option (list A)) : option (A * nat) :=
  match o with
  | Some (x :: l) => Some (x, S (length l))
  | _ => None
  end.

(** The [case 'blocked'] arm. *)
Definition renderBlocked (isItem : bool) (items : list FocusItem) (d : Draft)
  : Draft :=
  let action := groupByMap items blockedKey in
  let hasMultipleCategories := (1 <? size action)%nat in
  let sepr := if hasMultipleCategories then ", " else "" in
  let '(item, actionMessage, summaryMessage) := (None, "", "(") in
  let '(item, actionMessage, summaryMessage) :=
    match nonempty (action !! "unassigned-reviewers") with
    | Some (first, n) =>
        let msg := (if (1 <? n)%nat then "need" else "needs") +:+ " reviewers" in
        (nullish_assign item first, msg,
         summaryMessage +:+ pretty n +:+ " " +:+ msg)
    | None => (item, actionMessage, summaryMessage)
    end in
  let '(item, actionMessage, summaryMessage) :=
    match nonempty (action !! "failed-checks") with
    | Some (first, n) =>
        let msg := "failed CI checks" in
        (nullish_assign item first, msg,
         summaryMessage +:+ sepr +:+ pretty n +:+ " " +:+ msg)
    | None => (item, actionMessage, summaryMessage)
    end in
  let '(item, actionMessage, summaryMessage) :=
    match nonempty (action !! "conflicts") with
    | Some (first, n) =>
        let msg := (if (1 <? n)%nat then "have" else "has") +:+ " conflicts" in
        (nullish_assign item first, msg,
         summaryMessage +:+ sepr +:+ pretty n +:+ " " +:+ msg)
    | None => (item, actionMessage, summaryMessage)
    end in
  let summaryMessage := summaryMessage +:+ ")" in
  let topIcon := nullish_assign (d_topIcon d) "error" in
  let body :=
    (match item, d_topItem d with
     | Some it, None =>
         if isItem then getTopItemLabel it (Some (length items))
         else pluralize "pull request" (length items) None
     | _, _ => pluralize "pull request" (length items) None
     end)
    +:+ " " +:+ (if hasMultipleCategories then "are blocked" else actionMessage) in
  let tooltip :=
    d_tooltip d
    +:+ groupLink "#FF0000" "error" body "blocked" "Open Blocked in Launchpad"
          isItem
    +:+ (if hasMultipleCategories
         then backslash +:+ lf +:+ "$(blank) " +:+ summaryMessage
         else "") in
  let color := nullish_assign (d_color d) "#FF0000" in
  let topItem :=
    match item with
    | Some it =>
        let lbl :=
          if actionableCategory it =? "unassigned-reviewers" then "needs reviewers"
          else if actionableCategory it =? "failed-checks" then "failed CI checks"
          else if actionableCategory it =? "conflicts" then "has conflicts"
          else "is blocked" in
        nullish_assign (d_topItem d) (it, lbl)
    | None => d_topItem d
    end in
  {| d_tooltip := tooltip; d_color := color;
     d_topItem := topItem; d_topIcon := topIcon |}.

(** The [case 'mergeable'] arm. *)
Definition renderMergeable (isItem : bool) (first : FocusItem)
  (items : list FocusItem) (d : Draft) : Draft :=
  let topIcon := nullish_assign (d_topIcon d) "rocket" in
  let topItem := default (first, "can be merged") (d_topItem d) in
  let body :=
    (if isItem then getTopItemLabel (fst topItem) (Some (length items))
     else pluralize "pull request" (length items) None)
    +:+ " can be merged" in
  {| d_tooltip :=
       d_tooltip d
       +:+ groupLink "#3d90fc" "rocket" body "mergeable"
             "Open Ready to Merge in Launchpad" isItem;
     d_color := Some "#00FF00";
     d_topItem := Some topItem; d_topIcon := topIcon |}.

(** The [case 'follow-up'] and [case 'needs-review'] arms differ only in
    their constants. *)
Definition renderPlain (isItem : bool) (first : FocusItem)
  (items : list FocusItem)
  (iconName plural singular suffix group title fallback groupLabel : string)
  (d : Draft) : Draft :=
  let topIcon := nullish_assign (d_topIcon d) iconName in
  let body :=
    (match d_topItem d with
     | None =>
         if isItem then getTopItemLabel first (Some (length items))
         else pluralize "pull request" (length items) None
     | Some _ => pluralize "pull request" (length items) None
     end)
    +:+ " " +:+ (if (1 <? length items)%nat then plural else singular)
    +:+ suffix in
  {| d_tooltip :=
       d_tooltip d +:+ groupLink "#3d90fc" iconName body group title isItem;
     d_color := nullish_assign (d_color d) fallback;
     d_topItem := nullish_assign (d_topItem d) (first, groupLabel);
     d_topIcon := topIcon |}.

Definition groupSeparator : string := lf +:+ lf +:+ "---" +:+ lf +:+ lf.

(** One iteration of [for (const group of groups)]. *)
Definition renderGroup (isItem : bool)
  (groupedItems : gmap string (list FocusItem)) (d : Draft) (group : string)
  : Draft :=
  match groupedItems !! group with
  | None | Some [] => d
  | Some ((first :: _) as items) =>
      let d :=
        if (0 <? String.length (d_tooltip d))%nat
        then {| d_tooltip := d_tooltip d +:+ groupSeparator;
                d_color := d_color d; d_topItem := d_topItem d;
                d_topIcon := d_topIcon d |}
        else d in
      if group =? "mergeable" then renderMergeable isItem first items d
      else if group =? "blocked" then renderBlocked isItem items d
      else if group =? "follow-up" then
        renderPlain isItem first items "report" "require" "requires"
          " follow-up" "follow-up" "Open Follow-Up in Launchpad"
          "#FFA500" "requires follow-up" d
      else if group =? "needs-review" then
        renderPlain isItem first items "comment-draft" "need" "needs"
          " your review" "needs-review" "Open Needs Your Review in Launchpad"
          "#FFFF00" "needs your review" d
      else d
  end.

(** [Array.from(groupedItems.values()).reduce((total, group) =>
    total + group.length, 0)] *)
Definition totalGroupedItems (groupedItems : gmap string (list FocusItem))
  : nat :=
  foldl (λ total group, total + length group) 0
    (snd <$> map_to_list groupedItems).

(** [groups.some(group => groupedItems.get(group)?.length)] *)
Definition hasImportantGroupsWithItems (gs : list string)
  (groupedItems : gmap string (list FocusItem)) : bool :=
  existsb (λ group, match groupedItems !! group with
                    | Some (_ :: _) => true
                    | _ => false
                    end) gs.

Record Payload := {
  p_text : string;
  p_tooltip : string;
  p_color : option string;
}.

(** What [updateStatusBarWithItems] assigns to the status bar item, from
    the tooltip built so far, the items and the configuration. *)
Definition renderItems (c : Configuration) (tooltip : string)
  (categorizedItems : option (list FocusItem)) : Payload :=
  let gs := default [] (groups c) in
  let labelType := default "item" (label c) in
  let iconType := default "default" (icon c) in
  let isItem := labelType =? "item" in
  let groupedItems := groupAndSortFocusItems categorizedItems in
  let total := totalGroupedItems groupedItems in
  let d0 := {| d_tooltip := tooltip; d_color := None;
               d_topItem := None; d_topIcon := None |} in
  let d :=
    if (total =? 0)%nat then
      {| d_tooltip := tooltip +:+ allCaughtUp; d_color := None;
         d_topItem := None; d_topIcon := None |}
    else if negb (hasImportantGroupsWithItems gs groupedItems) then
      {| d_tooltip := tooltip +:+ noAttention total; d_color := None;
         d_topItem := None; d_topIcon := None |}
    else foldl (renderGroup isItem groupedItems) d0 gs in
  let iconSegment :=
    match d_topIcon d with
    | Some topIcon =>
        if iconType =? "group" then "$(" +:+ topIcon +:+ ")" else "$(rocket)"
    | None => "$(rocket)"
    end in
  let labelSegment :=
    match d_topItem d with
    | Some (item, groupLabel) =>
        if isItem
        then " " +:+ getTopItemLabel item None +:+ " " +:+ groupLabel
        else ""
    | None => ""
    end in
  {| p_text := iconSegment +:+ labelSegment;
     p_tooltip := d_tooltip d;
     p_color := if useColors c then d_color d else None |}.

(** Assigning [text], [tooltip] and [color] of the status bar item. *)
Definition render (p : Payload) (s : Sys) : Sys :=
  match _statusBarFocus (this s) with
  | None => s
  | Some sb =>
      {| this :=
           with_statusBarFocus
             (Some {| sb_name := sb_name sb; sb_text := p_text p;
                      sb_tooltip := p_tooltip p; sb_color := p_color p;
                      sb_command := sb_command sb;
                      sb_visible := sb_visible sb |})
             (this s);
         host := emit (Render (p_text p) (p_tooltip p) (p_color p)) (host s) |}
  end.

Definition sendTelemetryFirstLoadEvent (e : Env) (s : Sys) : Sys :=
  if negb (telemetry_enabled e) then s
  else if default false (hasLoaded (host s)) then s
  else upd_host (λ h, emit SendFirstLoad
                        (emit StoreHasLoaded (with_hasLoaded (Some true) h))) s.

Definition updateStatusBarWithItems (e : Env) (tooltip : string)
  (categorizedItems : option (list FocusItem)) (s : Sys) : Sys :=
  match _statusBarFocus (this s) with
  | None => s
  | Some _ =>
      let s := sendTelemetryFirstLoadEvent e s in
      let s := upd_this (with_lastDataUpdate (Some (now e))) s in
      render (renderItems (cfg e) tooltip categorizedItems) s
  end.

(** ** The refresh scheduler *)

Definition refreshIntervalMs (c : Configuration) : Z :=
  (polling_interval c * 1000 * 60)%Z.

Definition startRefreshTimer (e : Env) (firstDelay : option Z) (s : Sys)
  : Sys :=
  let s :=
    match _refreshTimer (this s) with
    | Some id => upd_host (clearInterval id) s
    | None => s
    end in
  if negb (polling_enabled (cfg e)) || state_eqb (_state (this s)) disconnected
  then s
  else
    let refreshInterval := refreshIntervalMs (cfg e) in
    if (refreshInterval <=? 0)%Z then s
    else
      let '(id, h) :=
        match firstDelay with
        | Some d => setTimeout d refreshInterval (host s)
        | None => setInterval refreshInterval (host s)
        end in
      {| this := with_refreshTimer (Some id) (this s); host := h |}.

Definition clearRefreshTimer (s : Sys) : Sys :=
  match _refreshTimer (this s) with
  | Some id =>
      upd_this (with_refreshTimer None) (upd_host (clearInterval id) s)
  | None => s
  end.

(** The guard of [startRefreshTimer]. *)
Definition start_blocked (e : Env) (s : Sys) : bool :=
  negb (polling_enabled (cfg e)) || state_eqb (_state (this s)) disconnected
  || (refreshIntervalMs (cfg e) <=? 0)%Z.

Definition new_timer (e : Env) (firstDelay : option Z) : Timer :=
  match firstDelay with
  | Some d => OneShot d (refreshIntervalMs (cfg e))
  | None => Repeating (refreshIntervalMs (cfg e))
  end.

Definition arm_effect (e : Env) (firstDelay : option Z) (id : nat) : Effect :=
  match firstDelay with
  | Some d => SetTimeout id d
  | None => SetInterval id (refreshIntervalMs (cfg e))
  end.

Definition cancel_effects (s : Sys) : list Effect :=
  match _refreshTimer (this s) with
  | Some id => [ClearInterval id]
  | None => []
  end.

(** A pending timer comes due.  The one-shot callback requests a refresh
    and rearms as a repeating timer; the repeating callback requests a
    refresh and stays pending. *)
Definition fireTimer (id : nat) (s : Sys) : Sys :=
  match timers (host s) !! id with
  | None => s
  | Some (OneShot _ refreshInterval) =>
      let h := emit GetCategorizedItems
                 (with_timers (delete id (timers (host s))) (host s)) in
      let '(id', h) := setInterval refreshInterval h in
      {| this := with_refreshTimer (Some id') (this s); host := h |}
  | Some (Repeating _) => upd_host (emit GetCategorizedItems) s
  end.

(** ** The state machine *)

(** What the status bar shows in the three states without items; the
    tooltip is the header, the introduction and a state-specific tail. *)
Definition idlePayload : Payload :=
  {| p_text := "$(rocket)";
     p_tooltip := tooltipHeader +:+ tooltipIntro;
     p_color := None |}.

Definition disconnectedPayload : Payload :=
  {| p_text := "$(rocket)$(gitlens-unplug) Launchpad";
     p_tooltip := (tooltipHeader +:+ tooltipIntro) +:+ tooltipConnect;
     p_color := None |}.

Definition loadingPayload : Payload :=
  {| p_text := "$(loading~spin)";
     p_tooltip := (tooltipHeader +:+ tooltipIntro) +:+ tooltipLoading;
     p_color := None |}.

Definition updateStatusBar (e : Env) (state : FocusIndicatorState)
  (categorizedItems : option (list FocusItem)) (s : Sys) : Sys :=
  match _statusBarFocus (this s) with
  | None => s
  | Some _ =>
      if state_eqb state (_state (this s)) && negb (state_eqb state load)
      then s
      else
        let s := upd_this (with_state state) s in
        match state with
        | idle => render idlePayload (clearRefreshTimer s)
        | disconnected => render disconnectedPayload (clearRefreshTimer s)
        | loading =>
            render loadingPayload (startRefreshTimer e (Some 5000%Z) s)
        | load => updateStatusBarWithItems e tooltipHeader categorizedItems s
        end
  end.

(** When [updateStatusBar] returns without doing anything. *)
Definition skipped (state : FocusIndicatorState) (s : Sys) : Prop :=
  _statusBarFocus (this s) = None
  ∨ (state = _state (this s) ∧ state ≠ load).

Definition updateStatusBarCommand (e : Env) (s : Sys) : Sys :=
  match _statusBarFocus (this s) with
  | None => s
  | Some sb =>
      let labelType := default "item" (label (cfg e)) in
      let cmd :=
        if openInEditor (cfg e) then ShowFocusPage
        else OpenLaunchpad (labelType =? "item") in
      upd_this
        (with_statusBarFocus
           (Some {| sb_name := sb_name sb; sb_text := sb_text sb;
                    sb_tooltip := sb_tooltip sb; sb_color := sb_color sb;
                    sb_command := Some cmd; sb_visible := sb_visible sb |}))
        s
  end.

Definition maybeLoadData (e : Env) (s : Sys) : Sys :=
  if polling_enabled (cfg e) && (0 <? polling_interval (cfg e))%Z then
    if connected e then updateStatusBar e loading None s
    else updateStatusBar e disconnected None s
  else updateStatusBar e idle None s.

Definition onFocusRefreshed (e : Env) (items : list FocusItem) (s : Sys)
  : Sys :=
  match _statusBarFocus (this s) with
  | None => s
  | Some _ =>
      if negb (polling_enabled (cfg e)) then s
      else updateStatusBar e load (Some items) s
  end.

Definition onReady (e : Env) (s : Sys) : Sys :=
  if negb (indicator_enabled (cfg e)) then s
  else
    let s :=
      upd_this
        (with_statusBarFocus
           (Some {| sb_name := "GitLens Launchpad"; sb_text := "";
                    sb_tooltip := ""; sb_color := None; sb_command := None;
                    sb_visible := false |}))
        s in
    let s := maybeLoadData e s in
    let s := updateStatusBarCommand e s in
    match _statusBarFocus (this s) with
    | None => s
    | Some sb =>
        upd_this
          (with_statusBarFocus
             (Some {| sb_name := sb_name sb; sb_text := sb_text sb;
                      sb_tooltip := sb_tooltip sb; sb_color := sb_color sb;
                      sb_command := sb_command sb; sb_visible := true |}))
          s
    end.

(** The constructor: state ['idle'], nothing else set, then [onReady]. *)
Definition newFocusIndicator (e : Env) (h : Host) : Sys :=
  onReady e
    {| this := {| _statusBarFocus := None; _refreshTimer := None;
                  _state := idle; _lastDataUpdate := None;
                  _lastRefreshPaused := None |};
       host := h |}.

Definition dispose (s : Sys) : Sys :=
  upd_this (with_statusBarFocus None) (clearRefreshTimer s).

Definition onConnectedIntegrationsChanged (e : Env) (key : string) (s : Sys)
  : Sys :=
  if existsb (String.eqb key) supportedFocusIntegrations
  then maybeLoadData e s
  else s.

(** [changed] answers [configuration.changed(e, section)] for the event
    being handled. *)
Definition onConfigurationChanged (e : Env) (changed : string → bool)
  (s : Sys) : Sys :=
  if negb (changed "launchpad.indicator") then s
  else
    let s :=
      if changed "launchpad.indicator.openInEditor"
      then updateStatusBarCommand e s else s in
    let '(s, reloaded) :=
      if changed "launchpad.indicator.polling" then
        if changed "launchpad.indicator.polling.enabled"
        then (maybeLoadData e s, true)
        else if changed "launchpad.indicator.polling.interval"
        then (startRefreshTimer e None s, false)
        else (s, false)
      else (s, false) in
    if (negb reloaded && changed "launchpad.indicator.useColors")
       || changed "launchpad.indicator.icon"
       || changed "launchpad.indicator.label"
       || changed "launchpad.indicator.groups"
    then
      let s := maybeLoadData e s in
      if changed "launchpad.indicator.label"
      then updateStatusBarCommand e s else s
    else s.

(** ** Focus pause and resume *)

Definition onWindowStateChanged (e : Env) (focused : bool) (s : Sys) : Sys :=
  match _state (this s) with
  | disconnected | idle => s
  | _ =>
      if negb focused then
        upd_this (with_lastRefreshPaused (Some (now e))) (clearRefreshTimer s)
      else
        match _lastRefreshPaused (this s) with
        | None => s
        | Some lastRefreshPaused =>
            if state_eqb (_state (this s)) loading
            then startRefreshTimer e (Some 5000%Z) s
            else
              let timeSinceLastUpdate :=
                match _lastDataUpdate (this s) with
                | Some lastDataUpdate => Some (now e - lastDataUpdate)%Z
                | None => None
                end in
              let timeSinceLastUnfocused := (now e - lastRefreshPaused)%Z in
              let s := upd_this (with_lastRefreshPaused None) s in
              let refreshInterval := refreshIntervalMs (cfg e) in
              let timeToNextPoll :=
                match timeSinceLastUpdate with
                | Some t => (refreshInterval - t)%Z
                | None => refreshInterval
                end in
              let timeToNextPoll :=
                if (timeToNextPoll <? 0)%Z then 0%Z else timeToNextPoll in
              let diff := (timeToNextPoll - timeSinceLastUnfocused)%Z in
              startRefreshTimer e
                (Some (if (diff <? 0)%Z then 0%Z else diff)) s
        end
  end.

(** ** Events *)

Inductive Event :=
| WindowStateChanged (focused : bool)
| FocusRefreshed (items : list FocusItem)
| ConfigurationChanged (changed : string → bool)
| ConnectionStateChanged (key : string)
| TimerFired (id : nat).

Definition handle (e : Env) (ev : Event) (s : Sys) : Sys :=
  match ev with
  | WindowStateChanged focused => onWindowStateChanged e focused s
  | FocusRefreshed items => onFocusRefreshed e items s
  | ConfigurationChanged changed => onConfigurationChanged e changed s
  | ConnectionStateChanged key => onConnectedIntegrationsChanged e key s
  | TimerFired id => fireTimer id s
  end.

(** Running a list of events, each with the surroundings it is handled in. *)
Definition run (evs : list (Env * Event)) (s : Sys) : Sys :=
  foldl (λ s x, handle (fst x) (snd x) s) s evs.

(** A host with nothing pending and nothing logged; [stored] is what the
    extension's storage holds for the has-loaded key from earlier sessions. *)
Definition freshHost (stored : option bool) : Host :=
  {| timers := ∅; next_timer := 0; hasLoaded := stored; log := [] |}.

(** The states the indicator can be in: constructed on a fresh host, then
    any events at all. *)
Inductive reachable : Sys → Prop :=
| reach_new e stored : reachable (newFocusIndicator e (freshHost stored))
| reach_step s e ev : reachable s → reachable (handle e ev s).

End Indicator.

End Launchpad.

(** * The Home webview provider *)

Module Home.

(** The two hosting integrations the onboarding cares about
    ([HostingIntegrationId.GitHub], [HostingIntegrationId.GitLab]). *)
Class HostingIntegrationId := { GitHub : string; GitLab : string }.

(** What the provider reads from the container while a handler runs: the
    ids of the connected integrations of each kind, the code lens
    controller's flags, and whether the editor passed to
    [onChangeActiveTextEditor] is a tracked text editor. *)
Record Env := {
  connectedHosting : list string;
  connectedIssues : list string;
  canToggle : bool;
  isEnabled : bool;
}.

Record HomeWebviewProvider := {
  activeTrackedTextEditor : option nat;
  hostedIntegrationConnected : option bool;
  _hostedIntegrationConnected : option bool;
}.

(** The fields of the webview [State] and of the notifications that the
    provider computes itself; the rest is handed through from the
    container. *)
Record State := {
  repoHostChecked : bool;
  editorPreviewEnabled : bool;
  canEnableCodeLens : bool;
  repoHostConnected : bool;
  hasAnyIntegrationConnected : bool;
}.

Inductive Notification :=
| DidChangeRepositories
| DidChangeOnboardingState (repoHostChecked : bool)
| DidChangeOnboardingIntegration (repoHostChecked repoHostConnected : bool)
| DidChangeOnboardingEditor (editorPreviewEnabled : bool)
| DidChangeCodeLensState (canBeEnabled : bool)
| DidChangeSubscription
| DidChangeOrgSettings
| Bootstrap (st : State).

(** A method: reads the surroundings, may update the provider, returns. *)
Definition M (A : Type) : Type := HomeWebviewProvider → A * HomeWebviewProvider.

#[local] Instance M_ret : MRet M := λ A a p, (a, p).
#[local] Instance M_bind : MBind M :=
  λ A B k m p, let '(a, p') := m p in k a p'.

Definition ret {A} (a : A) : M A := mret a.

Section Provider.
Context `{HostingIntegrationId}.

Definition isSupportedIntegration (key : string) : bool :=
  existsb (String.eqb key) [GitHub; GitLab].

Definition isAnyIntegrationConnected (e : Env) (force : bool) : M bool :=
  λ p,
    match _hostedIntegrationConnected p, force with
    | Some b, false => (b, p)
    | _, _ =>
        let b := (0 <? length (connectedHosting e ++ connectedIssues e))%nat in
        (b, {| activeTrackedTextEditor := activeTrackedTextEditor p;
               hostedIntegrationConnected := hostedIntegrationConnected p;
               _hostedIntegrationConnected := Some b |})
    end.

Definition isHostedIntegrationConnected (e : Env) (force : bool) : M bool :=
  λ p,
    match hostedIntegrationConnected p, force with
    | Some b, false => (b, p)
    | _, _ =>
        let b := existsb isSupportedIntegration (connectedHosting e) in
        (b, {| activeTrackedTextEditor := activeTrackedTextEditor p;
               hostedIntegrationConnected := Some b;
               _hostedIntegrationConnected := _hostedIntegrationConnected p |})
    end.

Definition isEditorPreviewEnabled : M bool :=
  λ p, (bool_decide (is_Some (activeTrackedTextEditor p)), p).

Definition canCodeLensBeEnabled (e : Env) : M bool :=
  ret (canToggle e && negb (isEnabled e)).

(** Of the onboarding state only [repoHostChecked] comes from the
    provider; the other entries are usage-tracker lookups. *)
Definition getOnboardingState (e : Env) : M bool :=
  isHostedIntegrationConnected e false.

Definition getState (e : Env) : M State :=
  onboarding ← getOnboardingState e;
  preview ← isEditorPreviewEnabled;
  codeLens ← canCodeLensBeEnabled e;
  repoHost ← isHostedIntegrationConnected e false;
  anyConnected ← isAnyIntegrationConnected e false;
  ret {| repoHostChecked := onboarding; editorPreviewEnabled := preview;
         canEnableCodeLens := codeLens; repoHostConnected := repoHost;
         hasAnyIntegrationConnected := anyConnected |}.

Definition includeBootstrap (e : Env) : M State := getState e.

Definition notifyDidChangeOnboardingState (e : Env) : M (list Notification) :=
  o ← getOnboardingState e; ret [DidChangeOnboardingState o].

Definition notifyDidChangeOnboardingIntegration (e : Env)
  : M (list Notification) :=
  isConnected ← isHostedIntegrationConnected e true;
  o ← getOnboardingState e;
  ret [DidChangeOnboardingIntegration o isConnected].

Definition notifyDidChangeEditor : M (list Notification) :=
  b ← isEditorPreviewEnabled; ret [DidChangeOnboardingEditor b].

Definition notifyDidToggleCodeLens (e : Env) : M (list Notification) :=
  b ← canCodeLensBeEnabled e; ret [DidChangeCodeLensState b].

Definition onChangeConnectionState (e : Env) : M (list Notification) :=
  notifyDidChangeOnboardingIntegration e.

(** [tracked] is [Some editor] when the event carries a text editor whose
    document git tracks. *)
Definition onChangeActiveTextEditor (tracked : option nat)
  : M (list Notification) :=
  λ p,
    notifyDidChangeEditor
      {| activeTrackedTextEditor := tracked;
         hostedIntegrationConnected := hostedIntegrationConnected p;
         _hostedIntegrationConnected := _hostedIntegrationConnected p |}.

(** [key] is [None] for an event without a payload. *)
Definition onUsagesChanged (e : Env) (key : option string)
  : M (list Notification) :=
  n1 ← (match key with
        | Some k =>
            if k =? "integration:repoHost"
            then notifyDidChangeOnboardingIntegration e else ret []
        | None => notifyDidChangeOnboardingIntegration e
        end);
  n2 ← notifyDidChangeOnboardingState e;
  ret (n1 ++ n2)%list.

Definition onReloaded (e : Env) : M (list Notification) :=
  n2 ← notifyDidChangeEditor;
  n3 ← notifyDidChangeOnboardingState e;
  n4 ← notifyDidChangeOnboardingIntegration e;
  ret (DidChangeRepositories :: n2 ++ n3 ++ n4)%list.

(** The events the constructor subscribes to, and the bootstrap request.
    [onVisibilityChanged] only calls [notifyDidResume], which the class
    does not define, and is left out. *)
Inductive Event :=
| RepositoriesChanged
| WorkspaceTrustGranted
| SubscriptionChanged
| ContextChanged (key : string)
| ConnectionStateChanged (key : string)
| UsagesChanged (key : option string)
| ActiveTextEditorChanged (tracked : option nat)
| CodeLensToggled
| Reloaded
| BootstrapRequested.

#[global] Instance Event_eq_dec : EqDecision Event.
Proof. solve_decision. Defined.

Definition handle (e : Env) (ev : Event) : M (list Notification) :=
  match ev with
  | RepositoriesChanged | WorkspaceTrustGranted => ret [DidChangeRepositories]
  | SubscriptionChanged => ret [DidChangeSubscription]
  | ContextChanged key =>
      ret (if key =? "gitlens:gk:organization:drafts:enabled"
           then [DidChangeOrgSettings] else [])
  | ConnectionStateChanged key =>
      n1 ← onChangeConnectionState e;
      n2 ← (if isSupportedIntegration key
            then onChangeConnectionState e else ret []);
      ret (n1 ++ n2)%list
  | UsagesChanged key => onUsagesChanged e key
  | ActiveTextEditorChanged tracked => onChangeActiveTextEditor tracked
  | CodeLensToggled => notifyDidToggleCodeLens e
  | Reloaded => onReloaded e
  | BootstrapRequested => st ← includeBootstrap e; ret [Bootstrap st]
  end.

(** Running a list of events, collecting what is sent to the webview. *)
Fixpoint run (evs : list (Env * Event)) : M (list Notification) :=
  match evs with
  | [] => ret []
  | (e, ev) :: rest =>
      n ← handle e ev; ns ← run rest; ret (n ++ ns)%list
  end.

Definition newProvider (editor : option nat) : HomeWebviewProvider :=
  {| activeTrackedTextEditor := editor;
     hostedIntegrationConnected := None;
     _hostedIntegrationConnected := None |}.

End Provider.

End Home.

(** * Concrete helpers and inputs

    Simple instances of the imported helpers, and a few configurations and
    items, on which the indicator can be run. *)

Module Sample.
Import JS Launchpad.

Definition pluralizeEn (s : string) (count : nat) (infix : option string)
  : string :=
  pretty count +:+ default " " infix +:+ s
  +:+ (if (count =? 1)%nat then "" else "s").

Definition groupByKey (items : list FocusItem) (key : FocusItem → string)
  : gmap string (list FocusItem) :=
  foldl (λ m i, <[key i := (default [] (m !! key i) ++ [i])%list]> m) ∅ items.

Definition groupOf (i : FocusItem) : string :=
  if actionableCategory i =? "mergeable" then "mergeable"
  else if (actionableCategory i =? "failed-checks")
          || (actionableCategory i =? "conflicts")
          || (actionableCategory i =? "unassigned-reviewers")
  then "blocked"
  else if actionableCategory i =? "needs-my-review" then "needs-review"
  else if actionableCategory i =? "follow-up" then "follow-up"
  else "other".

Definition helpers : Helpers :=
  {| previewBadge := "(Preview)";
     pluralize := pluralizeEn;
     groupByMap := groupByKey;
     groupAndSortFocusItems := λ items, groupByKey (default [] items) groupOf;
     supportedFocusIntegrations := ["github"] |}.

Definition pr (owner name number category : string) : FocusItem :=
  {| repository := Some {| owner_login := owner; repo_name := name |};
     item_id := number; actionableCategory := category |}.

Definition config (enabled : bool) (minutes : Z) : Configuration :=
  {| indicator_enabled := true; openInEditor := false;
     polling_enabled := enabled; polling_interval := minutes;
     useColors := true;
     groups := Some ["mergeable"; "blocked"];
     label := None; icon := None |}.

Definition env (enabled : bool) (minutes : Z) (conn : bool) (t : Z) : Env :=
  {| cfg := config enabled minutes; connected := conn;
     telemetry_enabled := true; now := t |}.

(** [configuration.changed(e, section)] for an event that changed [keys]:
    a section is affected when a changed key is it or lies below it. *)
Definition affects (keys : list string) (section : string) : bool :=
  existsb (λ k, (k =? section) || String.prefix (section +:+ ".") k) keys.

(** The indicator right after construction with polling every minute and
    an integration connected; after a first refresh at 1000 ms; and after
    the window lost focus at 2000 ms. *)
Definition loadingSys : Sys :=
  @newFocusIndicator helpers (env true 1 true 0) (freshHost None).

Definition loadedSys : Sys :=
  @handle helpers (env true 1 true 1000) (FocusRefreshed []) loadingSys.

Definition pausedSys : Sys :=
  @handle helpers (env true 1 true 2000) (WindowStateChanged false) loadedSys.

(** [pausedSys] with the last data update wiped, a state set up by hand. *)
Definition neverUpdatedSys : Sys :=
  upd_this (with_lastDataUpdate None) pausedSys.

(** Constructed with polling enabled but no integration connected. *)
Definition disconnectedSys : Sys :=
  @newFocusIndicator helpers (env true 1 false 0) (freshHost None).

(** Constructed with polling enabled and an interval of 0 minutes. *)
Definition idleSys : Sys :=
  @newFocusIndicator helpers (env true 0 true 0) (freshHost None).

Definition hostingIds : Home.HostingIntegrationId :=
  {| Home.GitHub := "github"; Home.GitLab := "gitlab" |}.

Definition homeEnv (hosting issues : list string) : Home.Env :=
  {| Home.connectedHosting := hosting; Home.connectedIssues := issues;
     Home.canToggle := true; Home.isEnabled := false |}.

End Sample.

(** * The code lens controller

    [GitCodeLensController] keeps one code lens provider in [_provider] and
    the registration made for it in [_providerDisposable].  A provider, its
    registration with the editor and the three listeners that come with it
    are made together, after [ensureProvider] has awaited the import of the
    provider module, and are named here by one number; the host keeps the
    registrations that are live.  Both callers of [ensureProvider] drop its
    promise, so the handler that called it returns at the [await], and what
    follows the [await] runs as a step of its own when the import
    resolves. *)

Module CodeLens.

(** The part of the [codeLens] settings the controller reads. *)
Record CodeLensConfig := {
  cfg_enabled : bool;
  recentChange_enabled : bool;
  authors_enabled : bool;
}.

Record GitCodeLensController := {
  _canToggle : bool;
  _provider : option nat;
  _providerDisposable : option nat;
}.

Record Host := {
  registered : gset nat;
  next_provider : nat;
  (** how often [onCodeLensToggle] fired *)
  toggles : nat;
  (** the context key 'gitlens:disabledToggleCodeLens' *)
  disabledToggle : option bool;
  (** how often the usage 'codeLens:activated' was tracked *)
  activations : nat;
  (** the calls of [ensureProvider] that wait at [await import(...)] *)
  importing : nat;
}.

Record Sys := { this : GitCodeLensController; host : Host }.

Definition canToggle (s : Sys) : bool := _canToggle (this s).

Definition isEnabled (s : Sys) : bool :=
  bool_decide (is_Some (_provider (this s))).

Definition with_registered (r : gset nat) (h : Host) : Host :=
  {| registered := r; next_provider := next_provider h; toggles := toggles h;
     disabledToggle := disabledToggle h; activations := activations h;
     importing := importing h |}.

Definition with_importing (n : nat) (h : Host) : Host :=
  {| registered := registered h; next_provider := next_provider h;
     toggles := toggles h; disabledToggle := disabledToggle h;
     activations := activations h; importing := n |}.

(** [this._providerDisposable?.dispose()] *)
Definition disposeProvider (s : Sys) : Host :=
  match _providerDisposable (this s) with
  | Some id => with_registered (registered (host s) ∖ {[id]}) (host s)
  | None => host s
  end.

Definition fire (h : Host) : Host :=
  {| registered := registered h; next_provider := next_provider h;
     toggles := S (toggles h); disabledToggle := disabledToggle h;
     activations := activations h; importing := importing h |}.

Definition track (h : Host) : Host :=
  {| registered := registered h; next_provider := next_provider h;
     toggles := toggles h; disabledToggle := disabledToggle h;
     activations := S (activations h); importing := importing h |}.

Definition disableCodeLens (s : Sys) : Sys :=
  {| this := {| _canToggle := _canToggle (this s); _provider := None;
                _providerDisposable := _providerDisposable (this s) |};
     host := fire (disposeProvider s) |}.

(** [ensureProvider] as far as its [await]: with a provider it returns;
    without one it disposes of the registration held and waits for the
    import. *)
Definition ensureProvider (s : Sys) : Sys :=
  match _provider (this s) with
  | Some _ => s
  | None =>
      let h := disposeProvider s in
      {| this := this s; host := with_importing (S (importing h)) h |}
  end.

(** [ensureProvider] from its [await] on, run when the import resolves:
    a new provider is assigned, the toggle event fires, and a registration
    for the provider is made and assigned.  Neither [_provider] nor the
    settings are read again, and the registration held before is not
    disposed of. *)
Definition ensureProviderResumed (s : Sys) : Sys :=
  let h := fire (host s) in
  let id := next_provider h in
  {| this := {| _canToggle := _canToggle (this s); _provider := Some id;
                _providerDisposable := Some id |};
     host := {| registered := {[id]} ∪ registered h;
                next_provider := S id; toggles := toggles h;
                disabledToggle := disabledToggle h;
                activations := activations h;
                importing := importing h |} |}.

(** [relevant] answers [configuration.changed(e, ['codeLens', ...])]. *)
Definition onConfigurationChanged (relevant : bool) (c : CodeLensConfig)
  (s : Sys) : Sys :=
  if negb relevant then s
  else
    let can := recentChange_enabled c || authors_enabled c in
    let s := {| this := {| _canToggle := can; _provider := _provider (this s);
                           _providerDisposable :=
                             _providerDisposable (this s) |};
                host := host s |} in
    let s :=
      if cfg_enabled c && (recentChange_enabled c || authors_enabled c)
      then ensureProvider s else disableCodeLens s in
    {| this := this s;
       host := {| registered := registered (host s);
                  next_provider := next_provider (host s);
                  toggles := toggles (host s);
                  disabledToggle := Some (negb (_canToggle (this s)));
                  activations := activations (host s);
                  importing := importing (host s) |} |}.

Definition toggleCodeLens (s : Sys) : Sys :=
  if negb (_canToggle (this s)) then s
  else
    match _provider (this s) with
    | Some _ => disableCodeLens s
    | None => ensureProvider s
    end.

Definition onBlameStateChanged (blameable : bool) (s : Sys) : Sys :=
  match _provider (this s) with
  | None => s
  | Some _ =>
      if negb blameable then s
      else {| this := this s; host := track (host s) |}
  end.

Definition trackCodeLens (s : Sys) : Sys :=
  if (activations (host s) =? 0)%nat
  then {| this := this s; host := track (host s) |}
  else s.

Definition dispose (s : Sys) : Sys :=
  {| this := this s; host := disposeProvider s |}.

(** Whether the registration in [_providerDisposable] is live. *)
Definition heldLive (s : Sys) : bool :=
  match _providerDisposable (this s) with
  | Some id => bool_decide (id ∈ registered (host s))
  | None => false
  end.

(** [Ready] and [ConfigurationChanged] carry the answer of
    [configuration.changed] and the settings read.  [ImportResolved] is the
    import of the provider module resolving for the call of
    [ensureProvider] that has waited longest.  Every live registration has
    a listener for the blame state, so [onBlameStateChanged] runs once for
    each; [CodeLensesChanged id] is the provider numbered [id] reporting
    changed code lenses, heard while its registration is live.
    [onDirtyIdleTriggered] only logs and has no event here. *)
Inductive Event :=
| Ready (relevant : bool) (c : CodeLensConfig)
| ConfigurationChanged (relevant : bool) (c : CodeLensConfig)
| ToggleCodeLens
| ImportResolved
| BlameStateChanged (blameable : bool)
| CodeLensesChanged (id : nat).

Definition handle (ev : Event) (s : Sys) : Sys :=
  match ev with
  | Ready relevant c | ConfigurationChanged relevant c =>
      onConfigurationChanged relevant c s
  | ToggleCodeLens => toggleCodeLens s
  | ImportResolved =>
      match importing (host s) with
      | 0 => s
      | S waiting =>
          ensureProviderResumed
            {| this := this s; host := with_importing waiting (host s) |}
      end
  | BlameStateChanged blameable =>
      Nat.iter (size (registered (host s))) (onBlameStateChanged blameable) s
  | CodeLensesChanged id =>
      if bool_decide (id ∈ registered (host s)) then trackCodeLens s else s
  end.

Definition run (evs : list Event) (s : Sys) : Sys :=
  foldl (λ s ev, handle ev s) s evs.

(** The controller as constructed, with [tracked] earlier activations. *)
Definition newController (tracked : nat) : Sys :=
  {| this := {| _canToggle := false; _provider := None;
                _providerDisposable := None |};
     host := {| registered := ∅; next_provider := 0; toggles := 0;
                disabledToggle := None; activations := tracked;
                importing := 0 |} |}.

Inductive reachable : Sys → Prop :=
| reach_new tracked : reachable (newController tracked)
| reach_step s ev : reachable s → reachable (handle ev s).

(** Registrations are numbered below [next_provider]; the provider, if
    any, is the one whose registration is held, and that registration is
    live; without a provider the registration held is not live. *)
Definition held_inv (s : Sys) : Prop :=
  (∀ id, id ∈ registered (host s) → (id < next_provider (host s))%nat)
  ∧ match _provider (this s) with
    | Some id =>
        _providerDisposable (this s) = Some id ∧ id ∈ registered (host s)
    | None =>
        ∀ id, _providerDisposable (this s) = Some id
              → id ∉ registered (host s)
    end.

(** Every import resolves before the next event is handled. *)
Definition settle (s : Sys) : Sys :=
  Nat.iter (importing (host s)) (handle ImportResolved) s.

Inductive reachable_settled : Sys → Prop :=
| settled_new tracked : reachable_settled (newController tracked)
| settled_step s ev :
    reachable_settled s → reachable_settled (settle (handle ev s)).

(** Nothing waits for an import, and the provider, if any, has the one
    registration that is live and can be toggled. *)
Definition settled_inv (s : Sys) : Prop :=
  importing (host s) = 0
  ∧ match _provider (this s) with
    | Some id =>
        _providerDisposable (this s) = Some id
        ∧ registered (host s) = {[id]}
        ∧ _canToggle (this s) = true
    | None => registered (host s) = ∅
    end.

End CodeLens.

(** * The usage checks of the Home webview's onboarding state *)

Module HomeUsage.

(** The field of a tracked usage that [checkIfSomeUsed] reads, a time in
    milliseconds; 0 is falsy. *)
Record TrackedUsage := { firstUsedAt : Z }.

(** [for (const key of keys) if (usage.get(key)?.firstUsedAt) return true;
    return false] *)
Fixpoint checkIfSomeUsed (usage : gmap string TrackedUsage)
  (keys : list string) : bool :=
  match keys with
  | [] => false
  | key :: rest =>
      match usage !! key with
      | Some u =>
          if negb (firstUsedAt u =? 0)%Z then true
          else checkIfSomeUsed usage rest
      | None => checkIfSomeUsed usage rest
      end
  end.

(** The keys behind [inspectChecked], as listed in the source, with
    'lineHistoryView:shown' twice. *)
Definition inspectKeys : list string :=
  ["commitDetailsView:shown"; "lineHistoryView:shown"; "fileHistoryView:shown";
   "lineHistoryView:shown"; "searchAndCompareView:shown"].

(** What a notification says about the repository host, if anything: the
    onboarding entry and the connected flag. *)
Definition repoHostOf (n : Home.Notification) : option (bool * bool) :=
  match n with
  | Home.Bootstrap st =>
      Some (Home.repoHostChecked st, Home.repoHostConnected st)
  | Home.DidChangeOnboardingIntegration checked conn => Some (checked, conn)
  | _ => None
  end.

End HomeUsage.

(** * What to look for in a run of the indicator *)

Module Observe.
Import JS Launchpad.

(** How often the first-load telemetry event was sent. *)
Fixpoint sent (l : list Effect) : nat :=
  match l with
  | [] => 0
  | SendFirstLoad :: l => S (sent l)
  | _ :: l => sent l
  end.

(** Calls on the event loop's timers and on the data provider. *)
Definition scheduler_effect (eff : Effect) : bool :=
  match eff with
  | SetTimeout _ _ | SetInterval _ _ | ClearInterval _
  | GetCategorizedItems => true
  | _ => false
  end.

(** The state [maybeLoadData] computes. *)
Definition recomputed (e : Env) : FocusIndicatorState :=
  if negb (polling_enabled (cfg e)) || (polling_interval (cfg e) <=? 0)%Z
  then idle
  else if connected e then loading else disconnected.

(** The groups the rendering loop has an arm for. *)
Definition knownGroup (group : string) : bool :=
  (group =? "mergeable") || (group =? "blocked") || (group =? "follow-up")
  || (group =? "needs-review").

Definition hasItems (groupedItems : gmap string (list FocusItem))
  (group : string) : bool :=
  match groupedItems !! group with
  | Some (_ :: _) => true
  | _ => false
  end.

(** Whether a configuration change makes [onConfigurationChanged] call
    [maybeLoadData]. *)
Definition reloads (changed : string → bool) : bool :=
  (changed "launchpad.indicator.polling"
   && changed "launchpad.indicator.polling.enabled")
  || changed "launchpad.indicator.useColors"
  || changed "launchpad.indicator.icon"
  || changed "launchpad.indicator.label"
  || changed "launchpad.indicator.groups".

(** [s'] has the stored has-loaded flag of [s] and as many first-load
    events in its log. *)
Definition quiet (s s' : Sys) : Prop :=
  hasLoaded (host s') = hasLoaded (host s)
  ∧ sent (log (host s')) = sent (log (host s)).

(** From [s] to [s'] either nothing happened to the first-load telemetry,
    or the flag was not set, is set now, and one event was sent. *)
Definition tele_step (s s' : Sys) : Prop :=
  quiet s s'
  ∨ (default false (hasLoaded (host s)) = false
     ∧ hasLoaded (host s') = Some true
     ∧ sent (log (host s')) = S (sent (log (host s)))).

(** [x] starts with [t]. *)
Definition starts_with (t x : string) : Prop := ∃ r, x = t +:+ r.

(** The colour of the 'mergeable' group. *)
Definition green : string := "#00FF00".


(** The fields of a component that never got a status bar item. *)
Definition inert (s : Sys) : Prop :=
  _statusBarFocus (this s) = None
  ∧ _state (this s) = idle
  ∧ _lastDataUpdate (this s) = None
  ∧ _lastRefreshPaused (this s) = None.

End Observe.

Module SampleMore.
Import JS Launchpad.

Definition codeLensOn : CodeLens.CodeLensConfig :=
  {| CodeLens.cfg_enabled := true; CodeLens.recentChange_enabled := true;
     CodeLens.authors_enabled := false |}.

(** The controller after [onReady] with code lens switched on, once the
    import has resolved. *)
Definition lensSys : CodeLens.Sys :=
  CodeLens.run [CodeLens.Ready true codeLensOn; CodeLens.ImportResolved]
    (CodeLens.newController 0).

(** ... and with code lens toggled off again. *)
Definition lensOffSys : CodeLens.Sys :=
  CodeLens.handle CodeLens.ToggleCodeLens lensSys.

(** A toggle arrives while the import started by [onReady] is still
    awaited; then both imports resolve. *)
Definition overlapSys : CodeLens.Sys :=
  CodeLens.run
    [CodeLens.Ready true codeLensOn; CodeLens.ToggleCodeLens;
     CodeLens.ImportResolved; CodeLens.ImportResolved]
    (CodeLens.newController 0).

(** Constructed with the indicator switched off. *)
Definition disabledConfig : Configuration :=
  {| indicator_enabled := false; openInEditor := false;
     polling_enabled := true; polling_interval := 1; useColors := true;
     groups := Some ["mergeable"; "blocked"]; label := None; icon := None |}.

Definition disabledEnv : Env :=
  {| cfg := disabledConfig; connected := true; telemetry_enabled := true;
     now := 0 |}.

Definition usage : gmap string HomeUsage.TrackedUsage :=
  <["fileHistoryView:shown" := {| HomeUsage.firstUsedAt := 1700000000000 |}]>
    (<["lineHistoryView:shown" := {| HomeUsage.firstUsedAt := 0 |}]> ∅).

End SampleMore.

Import JS Launchpad.

Example encode_args :
  @launchpadArgs "mergeable" true
  = "%7B%22source%22%3A%22indicator%22%2C%22state%22%3A%7B%22initialGroup%22%3A%22mergeable%22%2C%22selectTopItem%22%3Atrue%7D%7D".
Proof. reflexivity. Qed.

Close Scope string_scope.


(** * The scheduler *)

Section Scheduler.
Context `{Helpers}.

Ltac open_sys s :=
  destruct s as [[sb rt st ldu lrp] [tm nx hl lg]].

Lemma timer_inv_cases s :
  timer_inv s →
  timers (host s) = ∅
  ∨ ∃ id t, _refreshTimer (this s) = Some id ∧ timers (host s) = {[id := t]}.
Proof.
  intros Hinv.
  destruct (decide (timers (host s) = ∅)) as [|Hne]; [by left | right].
  apply map_choose in Hne as (id & t & Hid).
  destruct (Hinv id) as [Hrt _]; [by eexists |].
  exists id, t. split; [done |].
  apply map_eq. intros j.
  destruct (decide (j = id)) as [-> | Hj].
  - by rewrite lookup_singleton_eq.
  - rewrite lookup_singleton_ne by done.
    destruct (timers (host s) !! j) eqn:Ej; [| done].
    destruct (Hinv j) as [Hrt' _]; [by eexists |]. congruence.
Qed.

Lemma timer_inv_size s : timer_inv s → size (timers (host s)) ≤ 1.
Proof.
  intros Hinv. destruct (timer_inv_cases s Hinv) as [-> | (id & t & _ & ->)].
  - rewrite map_size_empty. lia.
  - rewrite map_size_singleton. lia.
Qed.

(** After the cancelling step of [startRefreshTimer] or [clearRefreshTimer]
    nothing is pending. *)
Lemma cancel_held s id :
  timer_inv s → _refreshTimer (this s) = Some id →
  delete id (timers (host s)) = ∅.
Proof.
  intros Hinv Hrt. apply map_eq. intros j. rewrite lookup_empty.
  destruct (decide (j = id)) as [-> | Hj].
  - apply lookup_delete_eq.
  - rewrite lookup_delete_ne by done.
    destruct (timers (host s) !! j) eqn:Ej; [| done].
    destruct (Hinv j) as [Hrt' _]; [by eexists |]. congruence.
Qed.

Lemma nothing_held s :
  timer_inv s → _refreshTimer (this s) = None → timers (host s) = ∅.
Proof.
  intros Hinv Hrt. destruct (timer_inv_cases s Hinv) as [| (id & t & Hid & _)];
    [done | congruence].
Qed.

Lemma clearRefreshTimer_spec s :
  timer_inv s →
  timers (host (clearRefreshTimer s)) = ∅
  ∧ _refreshTimer (this (clearRefreshTimer s)) = None
  ∧ next_timer (host (clearRefreshTimer s)) = next_timer (host s).
Proof.
  intros Hinv. unfold clearRefreshTimer.
  destruct (_refreshTimer (this s)) as [id |] eqn:Hrt; simpl.
  - by rewrite (cancel_held s id).
  - by rewrite (nothing_held s).
Qed.

Lemma timer_inv_empty s : timers (host s) = ∅ → timer_inv s.
Proof. intros He id [t Ht]. rewrite He in Ht. by rewrite lookup_empty in Ht. Qed.

Lemma timer_inv_clear s : timer_inv s → timer_inv (clearRefreshTimer s).
Proof. intros Hinv. apply timer_inv_empty. by apply clearRefreshTimer_spec. Qed.

Lemma start_blocked_spec e d s :
  start_blocked e s = true →
  let s' := startRefreshTimer e d s in
  this s' = this s
  ∧ next_timer (host s') = next_timer (host s)
  ∧ hasLoaded (host s') = hasLoaded (host s)
  ∧ log (host s') = (log (host s) ++ cancel_effects s)%list
  ∧ timers (host s') =
      match _refreshTimer (this s) with
      | Some id => delete id (timers (host s))
      | None => timers (host s)
      end.
Proof.
  unfold start_blocked, startRefreshTimer, cancel_effects. open_sys s. simpl.
  intros Hb.
  destruct rt as [id |]; simpl;
    destruct (negb (polling_enabled (cfg e)) || state_eqb st disconnected);
    simpl in *; try rewrite Hb; simpl; rewrite ?app_nil_r; done.
Qed.

Lemma start_armed_spec e d s :
  start_blocked e s = false →
  let s' := startRefreshTimer e d s in
  let id := next_timer (host s) in
  this s' = with_refreshTimer (Some id) (this s)
  ∧ next_timer (host s') = S id
  ∧ hasLoaded (host s') = hasLoaded (host s)
  ∧ log (host s')
    = (log (host s) ++ cancel_effects s ++ [arm_effect e d id])%list
  ∧ timers (host s') =
      <[id := new_timer e d]>
        match _refreshTimer (this s) with
        | Some old => delete old (timers (host s))
        | None => timers (host s)
        end.
Proof.
  unfold start_blocked, startRefreshTimer, cancel_effects, new_timer,
    arm_effect.
  open_sys s. simpl. intros Hb.
  apply orb_false_iff in Hb as [Hb1 Hb2]. 
  destruct rt as [id |]; simpl; rewrite Hb1, Hb2; destruct d; simpl;
    rewrite <- ?app_assoc; done.
Qed.

Lemma start_armed_timers e d s :
  timer_inv s → start_blocked e s = false →
  timers (host (startRefreshTimer e d s))
  = {[next_timer (host s) := new_timer e d]}.
Proof.
  intros Hinv Hb. destruct (start_armed_spec e d s Hb) as (_ & _ & _ & _ & ->).
  destruct (_refreshTimer (this s)) as [old |] eqn:Hrt.
  - by rewrite (cancel_held s old).
  - by rewrite (nothing_held s).
Qed.

Lemma start_blocked_timers e d s :
  timer_inv s → start_blocked e s = true →
  timers (host (startRefreshTimer e d s)) = ∅.
Proof.
  intros Hinv Hb. destruct (start_blocked_spec e d s Hb) as (_ & _ & _ & _ & ->).
  destruct (_refreshTimer (this s)) as [old |] eqn:Hrt.
  - by rewrite (cancel_held s old).
  - by rewrite (nothing_held s).
Qed.

Lemma timer_inv_start e d s :
  timer_inv s → timer_inv (startRefreshTimer e d s).
Proof.
  intros Hinv. destruct (start_blocked e s) eqn:Hb.
  - apply timer_inv_empty. by apply start_blocked_timers.
  - intros id [t Ht]. rewrite start_armed_timers in Ht by done.
    destruct (start_armed_spec e d s Hb) as (-> & -> & _).
    apply lookup_singleton_Some in Ht as [<- _]. simpl. split; [done | lia].
Qed.

Lemma start_fields e d s :
  let s' := startRefreshTimer e d s in
  _state (this s') = _state (this s)
  ∧ _statusBarFocus (this s') = _statusBarFocus (this s)
  ∧ _lastDataUpdate (this s') = _lastDataUpdate (this s)
  ∧ _lastRefreshPaused (this s') = _lastRefreshPaused (this s).
Proof.
  simpl. destruct (start_blocked e s) eqn:Hb.
  - by destruct (start_blocked_spec e d s Hb) as (-> & _).
  - by destruct (start_armed_spec e d s Hb) as (-> & _).
Qed.

Lemma start_blocked_iff e s :
  start_blocked e s = true
  ↔ polling_enabled (cfg e) = false
    ∨ (polling_interval (cfg e) ≤ 0)%Z
    ∨ _state (this s) = disconnected.
Proof.
  unfold start_blocked, refreshIntervalMs.
  rewrite !orb_true_iff, negb_true_iff, Z.leb_le.
  assert (state_eqb (_state (this s)) disconnected = true
          ↔ _state (this s) = disconnected) as ->
    by (destruct (_state (this s)); simpl; split; congruence).
  intuition lia.
Qed.

(** *** Rendering and bookkeeping leave the scheduler alone *)

Lemma same_sched_refl s : same_sched s s.
Proof. done. Qed.

Lemma same_sched_trans s1 s2 s3 :
  same_sched s1 s2 → same_sched s2 s3 → same_sched s1 s3.
Proof. unfold same_sched. intros (-> & -> & ->) (-> & -> & ->). done. Qed.

Lemma timer_inv_same s s' : same_sched s s' → timer_inv s → timer_inv s'.
Proof. intros (Ht & Hn & Hr) Hinv id. rewrite Ht, Hn, Hr. apply Hinv. Qed.

Lemma render_sched p s : same_sched s (render p s).
Proof. unfold render. by destruct (_statusBarFocus (this s)). Qed.

Lemma render_fields p s :
  _state (this (render p s)) = _state (this s)
  ∧ _lastDataUpdate (this (render p s)) = _lastDataUpdate (this s)
  ∧ _lastRefreshPaused (this (render p s)) = _lastRefreshPaused (this s)
  ∧ hasLoaded (host (render p s)) = hasLoaded (host s).
Proof. unfold render. by destruct (_statusBarFocus (this s)). Qed.

Lemma render_shown p s :
  is_Some (_statusBarFocus (this s)) →
  shown (render p s) = Some (p_text p, p_tooltip p, p_color p)
  ∧ log (host (render p s))
    = (log (host s) ++ [Render (p_text p) (p_tooltip p) (p_color p)])%list.
Proof. unfold render, shown. by intros [sb ->]. Qed.

Lemma telemetry_sched e s : same_sched s (sendTelemetryFirstLoadEvent e s).
Proof.
  unfold sendTelemetryFirstLoadEvent.
  destruct (negb _); [done |]. by destruct (default _ _).
Qed.

Lemma telemetry_this e s : this (sendTelemetryFirstLoadEvent e s) = this s.
Proof.
  unfold sendTelemetryFirstLoadEvent.
  destruct (negb _); [done |]. by destruct (default _ _).
Qed.

Lemma withItems_sched e t items s :
  same_sched s (updateStatusBarWithItems e t items s).
Proof.
  unfold updateStatusBarWithItems.
  destruct (_statusBarFocus (this s)); [| done].
  eapply same_sched_trans; [| apply render_sched].
  destruct (telemetry_sched e s) as (? & ? & ?). by split_and!.
Qed.

Lemma command_sched e s : same_sched s (updateStatusBarCommand e s).
Proof. unfold updateStatusBarCommand. by destruct (_statusBarFocus (this s)). Qed.

Lemma command_fields e s :
  _state (this (updateStatusBarCommand e s)) = _state (this s)
  ∧ _lastDataUpdate (this (updateStatusBarCommand e s))
    = _lastDataUpdate (this s)
  ∧ _lastRefreshPaused (this (updateStatusBarCommand e s))
    = _lastRefreshPaused (this s).
Proof. unfold updateStatusBarCommand. by destruct (_statusBarFocus (this s)). Qed.

End Scheduler.

(** * The state machine keeps its invariant *)

Section Invariant.
Context `{Helpers}.

Lemma state_eqb_eq a b : state_eqb a b = true ↔ a = b.
Proof. destruct a, b; simpl; split; congruence. Qed.

Lemma state_eqb_neq a b : state_eqb a b = false ↔ a ≠ b.
Proof. destruct a, b; simpl; split; congruence. Qed.

Lemma clear_fields s :
  _state (this (clearRefreshTimer s)) = _state (this s)
  ∧ _statusBarFocus (this (clearRefreshTimer s)) = _statusBarFocus (this s)
  ∧ _lastDataUpdate (this (clearRefreshTimer s)) = _lastDataUpdate (this s)
  ∧ _lastRefreshPaused (this (clearRefreshTimer s))
    = _lastRefreshPaused (this s).
Proof. unfold clearRefreshTimer. by destruct (_refreshTimer (this s)). Qed.

Lemma skipped_dec state s : skipped state s ∨ ¬ skipped state s.
Proof.
  unfold skipped. destruct (_statusBarFocus (this s)); [| by left; left].
  destruct (decide (state = load)) as [-> | Hl].
  - right. intros [? | [_ ?]]; done.
  - destruct (state_eqb state (_state (this s))) eqn:E.
    + apply state_eqb_eq in E. left. by right.
    + apply state_eqb_neq in E. right. intros [? | [? _]]; done.
Qed.

Lemma updateStatusBar_skipped e state items s :
  skipped state s → updateStatusBar e state items s = s.
Proof.
  unfold updateStatusBar. intros [-> | [Hs Hl]]; [done |].
  destruct (_statusBarFocus (this s)); [| done].
  apply state_eqb_eq in Hs as ->. apply state_eqb_neq in Hl as ->. done.
Qed.

Lemma updateStatusBar_performed e state items s :
  ¬ skipped state s →
  updateStatusBar e state items s
  = let s1 := upd_this (with_state state) s in
    match state with
    | idle => render idlePayload (clearRefreshTimer s1)
    | disconnected => render disconnectedPayload (clearRefreshTimer s1)
    | loading => render loadingPayload (startRefreshTimer e (Some 5000%Z) s1)
    | load => updateStatusBarWithItems e tooltipHeader items s1
    end.
Proof.
  unfold updateStatusBar, skipped. intros Hns.
  destruct (_statusBarFocus (this s)); [| by destruct Hns; left].
  destruct (state_eqb state (_state (this s)) && negb (state_eqb state load))
    eqn:E; [| done].
  apply andb_true_iff in E as [E1 E2]. apply negb_true_iff in E2.
  apply state_eqb_eq in E1. apply state_eqb_neq in E2.
  destruct Hns. by right.
Qed.

Lemma with_state_sched st s : same_sched s (upd_this (with_state st) s).
Proof. done. Qed.

Lemma withItems_fields e t items s :
  is_Some (_statusBarFocus (this s)) →
  let s' := updateStatusBarWithItems e t items s in
  _state (this s') = _state (this s)
  ∧ _lastDataUpdate (this s') = Some (now e)
  ∧ _lastRefreshPaused (this s') = _lastRefreshPaused (this s)
  ∧ is_Some (_statusBarFocus (this s')).
Proof.
  intros [sb Hsb]. unfold updateStatusBarWithItems. rewrite Hsb. simpl.
  pose proof (render_fields (renderItems (cfg e) t items)
    (upd_this (with_lastDataUpdate (Some (now e)))
       (sendTelemetryFirstLoadEvent e s))) as (-> & -> & -> & _).
  simpl. rewrite telemetry_this. split_and!; try done.
  unfold render. simpl. rewrite telemetry_this, Hsb. by eexists.
Qed.

Lemma inv_updateStatusBar e state items s :
  inv s → inv (updateStatusBar e state items s).
Proof.
  intros (Ht & Hd & Hl).
  destruct (skipped_dec state s) as [Hs | Hs].
  { by rewrite updateStatusBar_skipped. }
  rewrite updateStatusBar_performed by done. simpl.
  assert (timer_inv (upd_this (with_state state) s)) as Ht1
    by (eapply timer_inv_same; [apply with_state_sched | done]).
  unfold inv. destruct state.
  - pose proof (render_sched idlePayload
      (clearRefreshTimer (upd_this (with_state idle) s))) as Hr.
    pose proof (render_fields idlePayload
      (clearRefreshTimer (upd_this (with_state idle) s))) as (Hst & _).
    pose proof (clear_fields (upd_this (with_state idle) s)) as (Hst' & _).
    rewrite Hst, Hst'. simpl. split_and!; try done.
    eapply timer_inv_same; [exact Hr | by apply timer_inv_clear].
  - pose proof (render_sched disconnectedPayload
      (clearRefreshTimer (upd_this (with_state disconnected) s)))
      as (Hr1 & Hr2 & Hr3).
    pose proof (render_fields disconnectedPayload
      (clearRefreshTimer (upd_this (with_state disconnected) s))) as (Hst & _).
    pose proof (clear_fields (upd_this (with_state disconnected) s))
      as (Hst' & _).
    pose proof (clearRefreshTimer_spec _ Ht1) as (_ & Hnone & _).
    rewrite Hst, Hst', Hr3. simpl. split_and!; try done.
    eapply timer_inv_same; [by split_and! | by apply timer_inv_clear].
  - pose proof (render_sched loadingPayload
      (startRefreshTimer e (Some 5000%Z) (upd_this (with_state loading) s)))
      as Hr.
    pose proof (render_fields loadingPayload
      (startRefreshTimer e (Some 5000%Z) (upd_this (with_state loading) s)))
      as (Hst & _).
    pose proof (start_fields e (Some 5000%Z) (upd_this (with_state loading) s))
      as (Hst' & _).
    rewrite Hst, Hst'. simpl. split_and!; try done.
    eapply timer_inv_same; [exact Hr | by apply timer_inv_start].
  - assert (is_Some (_statusBarFocus (this (upd_this (with_state load) s))))
      as Hsb.
    { simpl. destruct (_statusBarFocus (this s)) eqn:E; [by eexists |].
      destruct Hs. by left. }
    pose proof (withItems_fields e tooltipHeader items _ Hsb)
      as (Hst & Hldu & _).
    rewrite Hst, Hldu. simpl. split_and!; try done.
    eapply timer_inv_same; [apply withItems_sched | done].
Qed.

Lemma inv_command e s : inv s → inv (updateStatusBarCommand e s).
Proof.
  intros (Ht & Hd & Hl).
  pose proof (command_sched e s) as Hc.
  pose proof (command_fields e s) as (Hst & Hldu & _).
  unfold inv. rewrite Hst, Hldu. destruct Hc as (Hc1 & Hc2 & Hc3).
  rewrite Hc3. split_and!; try done.
  eapply timer_inv_same; [by split_and! | done].
Qed.

Lemma inv_maybeLoadData e s : inv s → inv (maybeLoadData e s).
Proof.
  intros Hi. unfold maybeLoadData.
  destruct (_ && _); [destruct (connected e) |]; by apply inv_updateStatusBar.
Qed.

Lemma inv_onFocusRefreshed e items s : inv s → inv (onFocusRefreshed e items s).
Proof.
  intros Hi. unfold onFocusRefreshed.
  destruct (_statusBarFocus (this s)); [| done].
  destruct (negb _); [done |]. by apply inv_updateStatusBar.
Qed.

Lemma inv_start e d s :
  inv s → inv (startRefreshTimer e d s).
Proof.
  intros (Ht & Hd & Hl).
  pose proof (start_fields e d s) as (Hst & _ & Hldu & _).
  unfold inv. rewrite Hst, Hldu. split_and!; [by apply timer_inv_start | | done].
  intros Hdis. destruct (start_blocked e s) eqn:Hb.
  - destruct (start_blocked_spec e d s Hb) as (-> & _). by apply Hd.
  - exfalso. apply not_true_iff_false in Hb. apply Hb.
    apply start_blocked_iff. by right; right.
Qed.

Lemma inv_fields_only s s' :
  same_sched s s' →
  _state (this s') = _state (this s) →
  _lastDataUpdate (this s') = _lastDataUpdate (this s) →
  inv s → inv s'.
Proof.
  intros Hs Hst Hldu (Ht & Hd & Hl). unfold inv. rewrite Hst, Hldu.
  split_and!; [by eapply timer_inv_same | | done].
  destruct Hs as (_ & _ & ->). done.
Qed.

Lemma inv_onReady e s : inv s → inv (onReady e s).
Proof.
  intros Hi. unfold onReady. destruct (negb _); [done |].
  set (s1 := upd_this _ s).
  assert (inv s1) as Hi1 by (by eapply inv_fields_only; [| | | exact Hi]).
  pose proof (inv_command e _ (inv_maybeLoadData e _ Hi1)) as Hi2.
  destruct (_statusBarFocus _); [| done].
  by eapply inv_fields_only; [| | | exact Hi2].
Qed.

Lemma inv_new e stored : inv (newFocusIndicator e (freshHost stored)).
Proof.
  apply inv_onReady. split_and!; [| done | done].
  by apply timer_inv_empty.
Qed.

Lemma inv_onConfigurationChanged e changed s :
  inv s → inv (onConfigurationChanged e changed s).
Proof.
  intros Hi. unfold onConfigurationChanged.
  destruct (negb _); [done |].
  set (s1 := if changed _ then _ else s).
  assert (inv s1) as Hi1.
  { subst s1. destruct (changed _); [by apply inv_command | done]. }
  clearbody s1.
  destruct (changed "launchpad.indicator.polling"%string);
    [destruct (changed "launchpad.indicator.polling.enabled"%string);
       [| destruct (changed "launchpad.indicator.polling.interval"%string)] |];
    simpl;
    repeat match goal with
      | |- inv (if ?b then _ else _) => destruct b
      | |- inv (updateStatusBarCommand _ _) => apply inv_command
      | |- inv (maybeLoadData _ _) => apply inv_maybeLoadData
      | |- inv (startRefreshTimer _ _ _) => apply inv_start
      end; done.
Qed.

Lemma inv_onWindowStateChanged e focused s :
  inv s → inv (onWindowStateChanged e focused s).
Proof.
  intros Hi. unfold onWindowStateChanged.
  destruct (_state (this s)) eqn:Hst; try done.
  all: destruct focused; simpl.
  all: try (destruct (_lastRefreshPaused (this s)); [| done]; simpl).
  all: try (apply inv_start; try done;
            by eapply inv_fields_only; [| | | exact Hi]).
  all: destruct Hi as (Ht & Hd & Hl);
       pose proof (clearRefreshTimer_spec _ Ht) as (Hc1 & Hc2 & Hc3);
       pose proof (clear_fields s) as (Hf1 & _ & Hf3 & _);
       unfold inv; simpl; rewrite Hf1, Hf3, Hc2;
       split_and!; [by apply timer_inv_empty | done | done].
Qed.

Lemma inv_fireTimer id s : inv s → inv (fireTimer id s).
Proof.
  intros (Ht & Hd & Hl). unfold fireTimer.
  destruct (timers (host s) !! id) as [[delay interval | interval] |] eqn:Hid;
    [| by apply (inv_fields_only s) | done].
  destruct (Ht id) as [Hrt Hlt]; [by eexists |].
  unfold inv. simpl. split_and!; [| | done].
  - intros id' [t' Ht']. simpl in *. rewrite (cancel_held s id) in Ht' by done.
    apply lookup_insert_Some in Ht' as [[<- _] | [_ Hemp]];
      [split; [done | lia] | by rewrite lookup_empty in Hemp].
  - intros Hdis. rewrite (Hd Hdis) in Hrt. done.
Qed.

Lemma inv_handle e ev s : inv s → inv (handle e ev s).
Proof.
  intros Hi. destruct ev; simpl.
  - by apply inv_onWindowStateChanged.
  - by apply inv_onFocusRefreshed.
  - by apply inv_onConfigurationChanged.
  - unfold onConnectedIntegrationsChanged.
    destruct (existsb _ _); [by apply inv_maybeLoadData | done].
  - by apply inv_fireTimer.
Qed.

Lemma reachable_inv s : reachable s → inv s.
Proof.
  induction 1 as [e stored | s e ev _ IH].
  - apply inv_new.
  - by apply inv_handle.
Qed.

End Invariant.

(** * Focus pause and resume *)

Section FocusPause.
Context `{Helpers}.

Lemma clamp_max z : (if (z <? 0)%Z then 0%Z else z) = Z.max 0 z.
Proof. destruct (Z.ltb_spec z 0); lia. Qed.

(** The refocus branch of [onWindowStateChanged] in state ['load'], with the
    two clamps written as maxima. *)
Lemma refocus_load e s p :
  _state (this s) = load →
  _lastRefreshPaused (this s) = Some p →
  onWindowStateChanged e true s
  = startRefreshTimer e
      (Some (Z.max 0
               (Z.max 0
                  (match _lastDataUpdate (this s) with
                   | Some u => refreshIntervalMs (cfg e) - (now e - u)
                   | None => refreshIntervalMs (cfg e)
                   end) - (now e - p))))%Z
      (upd_this (with_lastRefreshPaused None) s).
Proof.
  intros Hst Hp. unfold onWindowStateChanged. rewrite Hst, Hp. simpl.
  rewrite !clamp_max. by destruct (_lastDataUpdate (this s)).
Qed.

Lemma enabled_not_blocked e s :
  polling_enabled (cfg e) = true → (0 < polling_interval (cfg e))%Z →
  _state (this s) ≠ disconnected →
  start_blocked e s = false.
Proof.
  intros He Hi Hs. apply not_true_iff_false. rewrite start_blocked_iff.
  intros [? | [? | ?]]; [congruence | lia | done].
Qed.

Lemma rearm_one_shot e d s :
  timer_inv s → polling_enabled (cfg e) = true →
  (0 < polling_interval (cfg e))%Z → _state (this s) ≠ disconnected →
  timers (host (startRefreshTimer e (Some d) s))
  = {[next_timer (host s) := OneShot d (refreshIntervalMs (cfg e))]}
  ∧ _refreshTimer (this (startRefreshTimer e (Some d) s))
    = Some (next_timer (host s)).
Proof.
  intros Hinv He Hi Hs.
  pose proof (enabled_not_blocked e s He Hi Hs) as Hb.
  split; [by rewrite start_armed_timers |].
  by destruct (start_armed_spec e (Some d) s Hb) as (-> & _).
Qed.

(** C1. On refocus in state ['load'], with a pause-start [p] and a last
    data update [u] recorded, the handler calls the scheduler's start with
    the one-shot delay
    [max(0, max(0, intervalMs - (now - u)) - (now - p))] and clears the
    pause-start; when polling is enabled with a positive interval, the one
    timer then pending is a one-shot timer with exactly that delay. *)
Theorem refocus_rearm_delay e s p u :
  _state (this s) = load →
  _lastRefreshPaused (this s) = Some p →
  _lastDataUpdate (this s) = Some u →
  let interval := refreshIntervalMs (cfg e) in
  let delay := Z.max 0 (Z.max 0 (interval - (now e - u)) - (now e - p)) in
  let s' := onWindowStateChanged e true s in
  s' = startRefreshTimer e (Some delay)
         (upd_this (with_lastRefreshPaused None) s)
  ∧ _lastRefreshPaused (this s') = None
  ∧ (timer_inv s → polling_enabled (cfg e) = true →
     (0 < polling_interval (cfg e))%Z →
     timers (host s') = {[next_timer (host s) := OneShot delay interval]}
     ∧ _refreshTimer (this s') = Some (next_timer (host s))).
Proof.
  intros Hst Hp Hu. simpl.
  rewrite (refocus_load e s p Hst Hp), Hu.
  split_and!; [done | |].
  - by pose proof (start_fields e
      (Some (Z.max 0 (Z.max 0 (refreshIntervalMs (cfg e) - (now e - u))
                      - (now e - p))))
      (upd_this (with_lastRefreshPaused None) s)) as (_ & _ & _ & ->).
  - intros Hinv He Hi.
    apply (rearm_one_shot e _ (upd_this (with_lastRefreshPaused None) s));
      try done.
    simpl. congruence.
Qed.

(** The same for a whole unfocus-then-refocus pair: the pause-start is the
    clock reading of the unfocus event. *)
Lemma unfocus_refocus_delay e1 e2 s u :
  timer_inv s →
  _state (this s) = load →
  _lastDataUpdate (this s) = Some u →
  polling_enabled (cfg e2) = true → (0 < polling_interval (cfg e2))%Z →
  let interval := refreshIntervalMs (cfg e2) in
  let delay :=
    Z.max 0 (Z.max 0 (interval - (now e2 - u)) - (now e2 - now e1)) in
  let s' := onWindowStateChanged e2 true (onWindowStateChanged e1 false s) in
  timers (host s') = {[next_timer (host s) := OneShot delay interval]}
  ∧ _lastRefreshPaused (this s') = None.
Proof.
  intros Hinv Hst Hu He Hi. simpl.
  pose proof (clearRefreshTimer_spec s Hinv) as (Hc1 & Hc2 & Hc3).
  pose proof (clear_fields s) as (Hf1 & _ & Hf3 & _).
  set (s1 := onWindowStateChanged e1 false s).
  assert (s1 = upd_this (with_lastRefreshPaused (Some (now e1)))
                 (clearRefreshTimer s)) as Hs1.
  { subst s1. unfold onWindowStateChanged. by rewrite Hst. }
  assert (_state (this s1) = load) as Hst1 by (rewrite Hs1; simpl; congruence).
  rewrite (refocus_load e2 s1 (now e1) Hst1) by (by rewrite Hs1).
  assert (_lastDataUpdate (this s1) = Some u) as ->
    by (rewrite Hs1; simpl; congruence).
  set (d := Z.max _ _).
  set (s2 := upd_this (with_lastRefreshPaused None) s1).
  assert (timer_inv s2) as Hinv2.
  { apply timer_inv_empty. subst s2. rewrite Hs1. simpl. done. }
  destruct (rearm_one_shot e2 d s2 Hinv2 He Hi) as [Ht _].
  { subst s2. simpl. congruence. }
  rewrite Ht. split.
  - subst s2. rewrite Hs1. simpl. by rewrite Hc3.
  - by pose proof (start_fields e2 (Some d) s2) as (_ & _ & _ & ->).
Qed.

(** The branch of the refocus for an indicator without a last data update,
    taken by itself.  In state ['load'] with a pause-start [p] recorded and
    no last data update, the time to the next poll is the full configured
    interval (clamped at 0), so the one-shot delay is
    [max(0, max(0, intervalMs) - (now - p))]: 0 only when the window was
    unfocused for at least a full interval.  No state the indicator
    reaches takes this branch, see [load_has_update]. *)
Lemma refocus_never_updated e s p :
  _state (this s) = load →
  _lastRefreshPaused (this s) = Some p →
  _lastDataUpdate (this s) = None →
  let interval := refreshIntervalMs (cfg e) in
  let delay := Z.max 0 (Z.max 0 interval - (now e - p)) in
  let s' := onWindowStateChanged e true s in
  s' = startRefreshTimer e (Some delay)
         (upd_this (with_lastRefreshPaused None) s)
  ∧ (delay = 0%Z ↔ (Z.max 0 interval ≤ now e - p)%Z)
  ∧ (timer_inv s → polling_enabled (cfg e) = true →
     (0 < polling_interval (cfg e))%Z →
     delay = Z.max 0 (interval - (now e - p))
     ∧ timers (host s') = {[next_timer (host s) := OneShot delay interval]}).
Proof.
  intros Hst Hp Hu. simpl.
  rewrite (refocus_load e s p Hst Hp), Hu.
  split_and!; [done | lia |].
  intros Hinv He Hi. split; [unfold refreshIntervalMs; lia |].
  apply (rearm_one_shot e _ (upd_this (with_lastRefreshPaused None) s));
    try done.
  simpl. congruence.
Qed.

(** In the states the indicator reaches, ['load'] always comes with a last
    data update: the state is set to ['load'] only by the call that also
    records the update, and nothing resets it.  So the case above only
    arises for states set up by hand. *)
Lemma load_has_update s :
  reachable s → _state (this s) = load → is_Some (_lastDataUpdate (this s)).
Proof. intros Hr. by destruct (reachable_inv s Hr) as (_ & _ & ?). Qed.

End FocusPause.

(** * The scheduler's contract *)

Section SchedulerContract.
Context `{Helpers}.

Lemma clear_none s : _refreshTimer (this s) = None → clearRefreshTimer s = s.
Proof. unfold clearRefreshTimer. by intros ->. Qed.

Lemma clear_handle s : _refreshTimer (this (clearRefreshTimer s)) = None.
Proof.
  unfold clearRefreshTimer. by destruct (_refreshTimer (this s)) eqn:E.
Qed.

(** C3, as the code has it.  In every state the indicator reaches, a call
    to the scheduler's start, with or without a first delay, begins by
    cancelling the timer the component holds.  If polling is disabled, the
    interval is not positive or the state is ['disconnected'], it then
    stops: nothing is armed, no timer is pending afterwards, and the
    component's fields, the handle included, are as before.  Otherwise it
    arms one new timer, a one-shot timer when a first delay is given and a
    repeating one when not, and keeps its handle. *)
Theorem startRefreshTimer_contract e d s :
  reachable s →
  let s' := startRefreshTimer e d s in
  let id := next_timer (host s) in
  (polling_enabled (cfg e) = false ∨ (polling_interval (cfg e) ≤ 0)%Z
   ∨ _state (this s) = disconnected →
   timers (host s') = ∅
   ∧ this s' = this s
   ∧ next_timer (host s') = id
   ∧ log (host s') = (log (host s) ++ cancel_effects s)%list)
  ∧ (polling_enabled (cfg e) = true → (0 < polling_interval (cfg e))%Z →
     _state (this s) ≠ disconnected →
     timers (host s) !! id = None
     ∧ timers (host s') = {[id := new_timer e d]}
     ∧ _refreshTimer (this s') = Some id
     ∧ log (host s')
       = (log (host s) ++ cancel_effects s ++ [arm_effect e d id])%list).
Proof.
  intros Hr. destruct (reachable_inv s Hr) as (Hinv & _). simpl. split.
  - intros Hg. apply start_blocked_iff in Hg.
    destruct (start_blocked_spec e d s Hg) as (Ht & Hn & _ & Hl & _).
    split_and!; try done. by apply start_blocked_timers.
  - intros He Hi Hs. pose proof (enabled_not_blocked e s He Hi Hs) as Hb.
    destruct (start_armed_spec e d s Hb) as (Ht & _ & _ & Hl & _).
    split_and!; try done.
    + destruct (timers (host s) !! next_timer (host s)) eqn:E; [| done].
      destruct (Hinv (next_timer (host s))) as [_ Hlt]; [by eexists | lia].
    + by apply start_armed_timers.
    + by rewrite Ht.
Qed.

(** C4. In every state the indicator reaches at most one timer is
    pending.  A call to start cancels every timer that was pending, and
    logs that cancellation before it logs arming anything, so after one
    call, and after a second call made right after it, at most one timer is
    pending; and stopping twice is the same as stopping once, with nothing
    pending afterwards. *)
Theorem at_most_one_timer s :
  reachable s →
  size (timers (host s)) ≤ 1
  ∧ (∀ e d,
       let s' := startRefreshTimer e d s in
       (∀ id, is_Some (timers (host s) !! id) →
              timers (host s') !! id = None
              ∧ cancel_effects s = [ClearInterval id])
       ∧ size (timers (host s')) ≤ 1
       ∧ (∀ e2 d2, size (timers (host (startRefreshTimer e2 d2 s'))) ≤ 1)
       ∧ ∃ arm,
           log (host s') = (log (host s) ++ cancel_effects s ++ arm)%list
           ∧ (arm = [] ∨ arm = [arm_effect e d (next_timer (host s))]))
  ∧ clearRefreshTimer (clearRefreshTimer s) = clearRefreshTimer s
  ∧ timers (host (clearRefreshTimer s)) = ∅.
Proof.
  intros Hr. destruct (reachable_inv s Hr) as (Hinv & _).
  split_and!.
  - by apply timer_inv_size.
  - intros e d. simpl. split_and!.
    + intros id Hid. destruct (Hinv id Hid) as [Hrt Hlt]. split.
      * destruct (start_blocked e s) eqn:Hb.
        -- by rewrite start_blocked_timers.
        -- rewrite start_armed_timers by done.
           apply lookup_singleton_ne. lia.
      * unfold cancel_effects. by rewrite Hrt.
    + by apply timer_inv_size, timer_inv_start.
    + intros e2 d2. by apply timer_inv_size, timer_inv_start, timer_inv_start.
    + destruct (start_blocked e s) eqn:Hb.
      * destruct (start_blocked_spec e d s Hb) as (_ & _ & _ & Hl & _).
        exists []. rewrite app_nil_r. by split; [| left].
      * destruct (start_armed_spec e d s Hb) as (_ & _ & _ & Hl & _).
        eexists. by split; [| right].
  - apply clear_none, clear_handle.
  - by apply clearRefreshTimer_spec.
Qed.

End SchedulerContract.

(** * Transitions of the state machine *)

Section Transitions.
Context `{Helpers}.

Lemma updateStatusBar_state e state items s :
  is_Some (_statusBarFocus (this s)) →
  _state (this (updateStatusBar e state items s)) = state.
Proof.
  intros Hsb. destruct (skipped_dec state s) as [Hs | Hs].
  - rewrite updateStatusBar_skipped by done.
    destruct Hs as [Hn | [-> _]]; [| done].
    rewrite Hn in Hsb. by destruct Hsb.
  - rewrite updateStatusBar_performed by done. simpl.
    destruct state.
    + pose proof (render_fields idlePayload
        (clearRefreshTimer (upd_this (with_state idle) s))) as (-> & _).
      by pose proof (clear_fields (upd_this (with_state idle) s)) as (-> & _).
    + pose proof (render_fields disconnectedPayload
        (clearRefreshTimer (upd_this (with_state disconnected) s)))
        as (-> & _).
      by pose proof (clear_fields (upd_this (with_state disconnected) s))
        as (-> & _).
    + pose proof (render_fields loadingPayload
        (startRefreshTimer e (Some 5000%Z) (upd_this (with_state loading) s)))
        as (-> & _).
      by pose proof (start_fields e (Some 5000%Z)
        (upd_this (with_state loading) s)) as (-> & _).
    + by pose proof (withItems_fields e tooltipHeader items
        (upd_this (with_state load) s) Hsb) as (-> & _).
Qed.

Lemma start_keeps_bar e d s :
  is_Some (_statusBarFocus (this s)) →
  is_Some (_statusBarFocus (this (startRefreshTimer e d s))).
Proof. by pose proof (start_fields e d s) as (_ & -> & _). Qed.

Lemma clear_keeps_bar s :
  is_Some (_statusBarFocus (this s)) →
  is_Some (_statusBarFocus (this (clearRefreshTimer s))).
Proof. by pose proof (clear_fields s) as (_ & -> & _). Qed.

(** C2, as the code has it.  Every transition the state machine performs
    ends with a re-render: the last call logged is the assignment of text,
    tooltip and colour that the status bar then shows.  Into ['idle'] or
    ['disconnected'] the scheduler is torn down: nothing is pending and the
    handle is unset.  Into ['loading'] the scheduler's start is called with
    a first delay of 5000 ms, which with polling enabled and a positive
    interval leaves exactly that one-shot timer pending.  Into ['load'] the
    scheduler is left as it is: same pending timers, same handle. *)
Theorem transition_effects e state items s :
  reachable s → ¬ skipped state s →
  let s' := updateStatusBar e state items s in
  _state (this s') = state
  ∧ (∃ pre text tooltip color,
       log (host s') = (pre ++ [Render text tooltip color])%list
       ∧ shown s' = Some (text, tooltip, color))
  ∧ match state with
    | idle | disconnected =>
        timers (host s') = ∅ ∧ _refreshTimer (this s') = None
    | loading =>
        same_sched
          (startRefreshTimer e (Some 5000%Z) (upd_this (with_state loading) s))
          s'
        ∧ (polling_enabled (cfg e) = true → (0 < polling_interval (cfg e))%Z →
           timers (host s')
           = {[next_timer (host s) := OneShot 5000 (refreshIntervalMs (cfg e))]}
           ∧ _refreshTimer (this s') = Some (next_timer (host s)))
    | load => same_sched s s'
    end.
Proof.
  intros Hr Hns. destruct (reachable_inv s Hr) as (Hinv & _).
  assert (is_Some (_statusBarFocus (this s))) as Hsb.
  { destruct (_statusBarFocus (this s)) eqn:E; [by eexists |].
    destruct Hns. by left. }
  simpl. split; [by apply updateStatusBar_state |].
  rewrite updateStatusBar_performed by done. simpl.
  assert (timer_inv (upd_this (with_state state) s)) as Hinv1
    by (eapply timer_inv_same; [apply with_state_sched | done]).
  destruct state.
  - set (s1 := clearRefreshTimer _).
    assert (is_Some (_statusBarFocus (this s1))) as Hsb1
      by (by apply clear_keeps_bar).
    destruct (render_shown idlePayload s1 Hsb1) as [Hsh Hlog].
    destruct (render_sched idlePayload s1) as (-> & _ & ->).
    destruct (clearRefreshTimer_spec _ Hinv1) as (Hc1 & Hc2 & _).
    split; [by eexists _, _, _, _ | done].
  - set (s1 := clearRefreshTimer _).
    assert (is_Some (_statusBarFocus (this s1))) as Hsb1
      by (by apply clear_keeps_bar).
    destruct (render_shown disconnectedPayload s1 Hsb1) as [Hsh Hlog].
    destruct (render_sched disconnectedPayload s1) as (-> & _ & ->).
    destruct (clearRefreshTimer_spec _ Hinv1) as (Hc1 & Hc2 & _).
    split; [by eexists _, _, _, _ | done].
  - set (s1 := startRefreshTimer _ _ _).
    assert (is_Some (_statusBarFocus (this s1))) as Hsb1
      by (by apply start_keeps_bar).
    destruct (render_shown loadingPayload s1 Hsb1) as [Hsh Hlog].
    pose proof (render_sched loadingPayload s1) as Hsched.
    split; [by eexists _, _, _, _ |]. split; [done |].
    intros He Hi. destruct Hsched as (-> & _ & ->).
    by apply (rearm_one_shot e 5000 (upd_this (with_state loading) s)).
  - set (s1 := upd_this (with_state load) s).
    split; [| apply (withItems_sched e tooltipHeader items s1)].
    unfold updateStatusBarWithItems.
    destruct Hsb as [sb Hsb]. subst s1. simpl. rewrite Hsb.
    set (s2 := upd_this (with_lastDataUpdate _) _).
    assert (is_Some (_statusBarFocus (this s2))) as Hsb2.
    { subst s2. simpl. rewrite telemetry_this. simpl. by eexists. }
    destruct (render_shown
      (renderItems (cfg e) tooltipHeader items) s2 Hsb2) as [Hsh Hlog].
    by eexists _, _, _, _.
Qed.

(** C6, as the code has it.  When the status bar item exists,
    [maybeLoadData] moves the indicator to ['idle'] if polling is disabled
    or the interval is not positive, otherwise to ['loading'] if an
    integration is connected and to ['disconnected'] if none is; on startup
    with the indicator enabled the constructor does the same. *)
Theorem maybeLoadData_state e s :
  is_Some (_statusBarFocus (this s)) →
  let recomputed :=
    if negb (polling_enabled (cfg e)) || (polling_interval (cfg e) <=? 0)%Z
    then idle
    else if connected e then loading else disconnected in
  _state (this (maybeLoadData e s)) = recomputed
  ∧ (∀ h, indicator_enabled (cfg e) = true →
          _state (this (newFocusIndicator e h)) = recomputed).
Proof.
  assert (∀ s0, is_Some (_statusBarFocus (this s0)) →
    _state (this (maybeLoadData e s0))
    = if negb (polling_enabled (cfg e)) || (polling_interval (cfg e) <=? 0)%Z
      then idle
      else if connected e then loading else disconnected) as Hm.
  { intros s0 Hsb. unfold maybeLoadData.
    destruct (polling_enabled (cfg e)); simpl;
      [| by apply updateStatusBar_state].
    rewrite Z.ltb_antisym.
    destruct (polling_interval (cfg e) <=? 0)%Z; simpl;
      [by apply updateStatusBar_state |].
    destruct (connected e); by apply updateStatusBar_state. }
  intros Hsb. simpl. split; [by apply Hm |].
  intros h He. unfold newFocusIndicator, onReady. rewrite He. simpl.
  set (s1 := maybeLoadData e _).
  assert (_state (this s1) = if negb (polling_enabled (cfg e))
                                || (polling_interval (cfg e) <=? 0)%Z
                             then idle
                             else if connected e then loading
                                  else disconnected) as Hs1
    by (subst s1; apply Hm; simpl; by eexists).
  pose proof (command_fields e s1) as (Hc & _).
  destruct (_statusBarFocus (this (updateStatusBarCommand e s1)));
    simpl; congruence.
Qed.

(** C5, the part that holds: in every state the indicator reaches, state
    ['disconnected'] has no timer handle and nothing pending. *)
Lemma disconnected_no_timer s :
  reachable s → _state (this s) = disconnected →
  _refreshTimer (this s) = None ∧ timers (host s) = ∅.
Proof.
  intros Hr Hd. destruct (reachable_inv s Hr) as (Hinv & Hdis & _).
  split; [by apply Hdis |]. apply nothing_held; [done | by apply Hdis].
Qed.

End Transitions.

(** * Rendering the ['load'] state *)

Section Rendering.
Context `{Helpers}.

Lemma foldl_lengths {A} (l : list (list A)) (acc : nat) :
  foldl (λ total group, total + length group) acc l
  = acc + sum_list (length <$> l).
Proof.
  revert acc. induction l as [| x l IH]; intros acc; simpl; [lia |].
  rewrite IH. unfold fmap. lia.
Qed.

(** [totalGroupedItems] is the number of items over all groups. *)
Lemma totalGroupedItems_sum (m : gmap string (list FocusItem)) :
  totalGroupedItems m = sum_list (length <$> (snd <$> map_to_list m)).
Proof. unfold totalGroupedItems. by rewrite foldl_lengths. Qed.

Lemma hasImportant_false gs (m : gmap string (list FocusItem)) :
  hasImportantGroupsWithItems gs m = false
  ↔ ∀ g its, g ∈ gs → m !! g = Some its → its = [].
Proof.
  unfold hasImportantGroupsWithItems. split.
  - intros Hex g its Hg Hm.
    destruct its as [| i its]; [done |].
    assert (existsb (λ group, match m !! group with
                              | Some (_ :: _) => true
                              | _ => false
                              end) gs = true) as Ht; [| congruence].
    apply existsb_exists. exists g. rewrite Hm.
    split; [by apply list_elem_of_In | done].
  - intros Hall. apply not_true_iff_false. intros Hex.
    apply existsb_exists in Hex as (g & Hg & Hm).
    destruct (m !! g) as [[| i its] |] eqn:E; try done.
    by specialize (Hall g (i :: its) (proj2 (list_elem_of_In _ _) Hg) E).
Qed.

Lemma length_app (s1 s2 : string) :
  String.length (s1 +:+ s2) = String.length s1 + String.length s2.
Proof.
  induction s1 as [| c s1 IH]; [done |].
  change (S (String.length (s1 +:+ s2))
          = S (String.length s1 + String.length s2)).
  by rewrite IH.
Qed.

Lemma app_inv_tail (s1 s2 t : string) :
  (s1 +:+ t = s2 +:+ t → s1 = s2)%string.
Proof.
  revert s2. induction s1 as [| c s1 IH]; intros s2 Heq.
  - destruct s2 as [| c2 s2]; [done |].
    apply (f_equal String.length) in Heq.
    rewrite !length_app in Heq. simpl in Heq. lia.
  - destruct s2 as [| c2 s2].
    + apply (f_equal String.length) in Heq.
      rewrite !length_app in Heq. simpl in Heq. lia.
    + change (String c (s1 +:+ t) = String c2 (s2 +:+ t)) in Heq.
      injection Heq as -> Heq. f_equal. by apply IH.
Qed.

(** The number in the message determines the message, and back. *)
Lemma noAttention_inj m n : noAttention m = noAttention n → m = n.
Proof.
  unfold noAttention. intros Heq.
  repeat apply String.app_inj in Heq.
  apply app_inv_tail in Heq. by apply pretty_nat_inj in Heq.
Qed.

Lemma renderItems_caught_up c t items :
  totalGroupedItems (groupAndSortFocusItems items) = 0 →
  renderItems c t items
  = {| p_text := "$(rocket)"; p_tooltip := (t +:+ allCaughtUp)%string;
       p_color := None |}.
Proof.
  intros Hz. unfold renderItems. rewrite Hz. simpl. by destruct (useColors c).
Qed.

Lemma renderItems_no_attention c t items :
  0 < totalGroupedItems (groupAndSortFocusItems items) →
  hasImportantGroupsWithItems (default [] (groups c))
    (groupAndSortFocusItems items) = false →
  renderItems c t items
  = {| p_text := "$(rocket)";
       p_tooltip :=
         (t +:+ noAttention (totalGroupedItems (groupAndSortFocusItems items)))
           %string;
       p_color := None |}.
Proof.
  intros Hpos Hno. unfold renderItems. rewrite Hno.
  destruct (totalGroupedItems (groupAndSortFocusItems items)) eqn:E; [lia |].
  simpl. by destruct (useColors c).
Qed.

Lemma load_shown e items s :
  is_Some (_statusBarFocus (this s)) →
  shown (updateStatusBar e load items s)
  = let p := renderItems (cfg e) tooltipHeader items in
    Some (p_text p, p_tooltip p, p_color p).
Proof.
  intros [sb Hsb]. rewrite updateStatusBar_performed.
  2: { intros [Hn | [_ ?]]; [congruence | done]. }
  simpl. unfold updateStatusBarWithItems. simpl. rewrite Hsb.
  apply render_shown. simpl. rewrite telemetry_this. simpl. by eexists.
Qed.

(** C8. When the ['load'] state is rendered on an existing status bar
    item: with no grouped items at all the tooltip is the header followed
    by "You are all caught up!"; with [n > 0] grouped items of which none
    is in a configured group, it is the header followed by the
    no-attention message for [n], and that message is the one for no other
    number. *)
Theorem load_tooltip_counts e items s :
  is_Some (_statusBarFocus (this s)) →
  let grouped := groupAndSortFocusItems items in
  let n := totalGroupedItems grouped in
  let s' := updateStatusBar e load items s in
  (n = 0 →
   shown s' = Some ("$(rocket)", tooltipHeader +:+ allCaughtUp, None)%string)
  ∧ (0 < n →
     (∀ g its, g ∈ default [] (groups (cfg e)) →
               grouped !! g = Some its → its = []) →
     shown s' = Some ("$(rocket)", tooltipHeader +:+ noAttention n, None)%string)
  ∧ (∀ m, noAttention m = noAttention n → m = n).
Proof.
  intros Hsb grouped n s'. subst s' n grouped.
  rewrite (load_shown e items s Hsb). cbv zeta. split_and!.
  - intros Hz. by rewrite renderItems_caught_up.
  - intros Hpos Hnone. apply hasImportant_false in Hnone.
    by rewrite renderItems_no_attention.
  - intros m. apply noAttention_inj.
Qed.

(** C9, as the code has it.  Rendering the ['load'] state on an existing
    status bar item shows the payload computed from the tooltip so far,
    the items and the configuration, and besides that records the clock
    reading as the last data update and, when telemetry is on and the
    has-loaded flag is not yet stored, stores the flag and sends the
    first-load event.  State, timer handle, pause-start and the pending
    timers are untouched.  The payload shown does not depend on the
    component's state, the clock or telemetry: two renderings of the same
    tooltip and items under the same configuration show the same. *)
Theorem load_render_effects e tooltip items s :
  is_Some (_statusBarFocus (this s)) →
  let s' := updateStatusBarWithItems e tooltip items s in
  let p := renderItems (cfg e) tooltip items in
  let first_load :=
    telemetry_enabled e && negb (default false (hasLoaded (host s))) in
  shown s' = Some (p_text p, p_tooltip p, p_color p)
  ∧ _lastDataUpdate (this s') = Some (now e)
  ∧ _state (this s') = _state (this s)
  ∧ _lastRefreshPaused (this s') = _lastRefreshPaused (this s)
  ∧ same_sched s s'
  ∧ hasLoaded (host s')
    = (if first_load then Some true else hasLoaded (host s))
  ∧ log (host s')
    = (log (host s)
       ++ (if first_load then [StoreHasLoaded; SendFirstLoad] else [])
       ++ [Render (p_text p) (p_tooltip p) (p_color p)])%list
  ∧ (∀ e2 s2, is_Some (_statusBarFocus (this s2)) → cfg e2 = cfg e →
              shown (updateStatusBarWithItems e2 tooltip items s2) = shown s').
Proof.
  intros Hsb. simpl.
  assert (∀ e0 s0, is_Some (_statusBarFocus (this s0)) →
    shown (updateStatusBarWithItems e0 tooltip items s0)
    = Some (p_text (renderItems (cfg e0) tooltip items),
            p_tooltip (renderItems (cfg e0) tooltip items),
            p_color (renderItems (cfg e0) tooltip items))) as Hshown.
  { intros e0 s0 [sb0 Hsb0]. unfold updateStatusBarWithItems. rewrite Hsb0.
    apply render_shown. simpl. rewrite telemetry_this. simpl. by eexists. }
  pose proof (withItems_fields e tooltip items s Hsb) as (Hst & Hldu & Hlrp & _).
  split_and!; try done.
  - by apply Hshown.
  - apply withItems_sched.
  - destruct Hsb as [sb Hsb]. unfold updateStatusBarWithItems. rewrite Hsb.
    set (s2 := upd_this _ _).
    pose proof (render_fields (renderItems (cfg e) tooltip items) s2)
      as (_ & _ & _ & ->).
    subst s2. simpl. unfold sendTelemetryFirstLoadEvent.
    destruct (telemetry_enabled e); simpl; [| done].
    by destruct (default false (hasLoaded (host s))).
  - destruct Hsb as [sb Hsb]. unfold updateStatusBarWithItems. rewrite Hsb.
    set (s2 := upd_this _ _).
    assert (is_Some (_statusBarFocus (this s2))) as Hsb2.
    { subst s2. simpl. rewrite telemetry_this. simpl. by eexists. }
    destruct (render_shown (renderItems (cfg e) tooltip items) s2 Hsb2)
      as [_ ->].
    subst s2. simpl. unfold sendTelemetryFirstLoadEvent.
    destruct (telemetry_enabled e); simpl; [| done].
    destruct (default false (hasLoaded (host s))); simpl; [done |].
    by rewrite <- !app_assoc.
  - intros e2 s2 Hsb2 Hcfg. rewrite !Hshown by done. by rewrite Hcfg.
Qed.

End Rendering.

(** * The Home webview's cached flag *)

Section HomeCache.
Context `{Home.HostingIntegrationId}.
Import Home.

Ltac run_method :=
  unfold handle, includeBootstrap, getState, onUsagesChanged, onReloaded,
    onChangeActiveTextEditor, onChangeConnectionState,
    notifyDidChangeOnboardingIntegration, notifyDidChangeOnboardingState,
    notifyDidChangeEditor, notifyDidToggleCodeLens, getOnboardingState,
    isHostedIntegrationConnected, isAnyIntegrationConnected,
    isEditorPreviewEnabled, canCodeLensBeEnabled, ret, mbind, mret,
    M_bind, M_ret; simpl.

(** Only the bootstrap request touches the any-integration cache, and it
    answers from the cache when there is one. *)
Lemma handle_cache e ev p :
  let '(ns, p') := handle e ev p in
  (ev ≠ BootstrapRequested →
   _hostedIntegrationConnected p' = _hostedIntegrationConnected p
   ∧ ∀ st, Bootstrap st ∉ ns)
  ∧ (ev = BootstrapRequested →
     ∃ st, ns = [Bootstrap st]
           ∧ _hostedIntegrationConnected p'
             = Some (hasAnyIntegrationConnected st)
           ∧ (∀ b, _hostedIntegrationConnected p = Some b →
                   hasAnyIntegrationConnected st = b)
           ∧ (_hostedIntegrationConnected p = None →
              hasAnyIntegrationConnected st
              = (0 <? length (connectedHosting e ++ connectedIssues e)))).
Proof.
  destruct p as [ed hic ahic].
  destruct ev as [| | | key | key | [key |] | tracked | | |]; run_method;
    repeat match goal with
      | |- context [if ?b then _ else _] => destruct b; simpl
      | |- context [match ?o with Some _ => _ | None => _ end] =>
          destruct o; simpl
      end;
    (split; [intros ? | intros ?]; try done);
    try (split; [done |]; intros st Hin;
         repeat (apply elem_of_cons in Hin as [Hin | Hin]; [done |]);
         by apply elem_of_nil in Hin).
  all: eexists; split_and!; try done; simpl; by intros ? [= ->].
Qed.

Lemma run_cached evs p b :
  _hostedIntegrationConnected p = Some b →
  let '(ns, p') := run evs p in
  _hostedIntegrationConnected p' = Some b
  ∧ ∀ st, Bootstrap st ∈ ns → hasAnyIntegrationConnected st = b.
Proof.
  revert p. induction evs as [| [e ev] evs IH]; intros p Hp; simpl.
  - split; [done |]. intros st Hin. by apply elem_of_nil in Hin.
  - unfold mbind, M_bind. pose proof (handle_cache e ev p) as Hh.
    destruct (handle e ev p) as [n p1]. destruct Hh as [Hother Hboot].
    assert (_hostedIntegrationConnected p1 = Some b
            ∧ ∀ st, Bootstrap st ∈ n → hasAnyIntegrationConnected st = b)
      as [Hp1 Hn].
    { destruct (decide (ev = BootstrapRequested)) as [Hev | Hev].
      - destruct (Hboot Hev) as (st & -> & Hc & Hb & _).
        rewrite Hc, (Hb b Hp). split; [done |].
        intros st' Hin. apply list_elem_of_singleton in Hin as [= ->].
        by apply Hb.
      - destruct (Hother Hev) as [Hc Hno]. split; [congruence |].
        intros st Hin. by destruct (Hno st). }
    specialize (IH p1 Hp1). destruct (run evs p1) as [ns p2].
    destruct IH as [Hp2 Hns]. simpl. split; [done |].
    intros st Hin. apply elem_of_app in Hin as [Hin | Hin]; auto.
Qed.

(** C10. The first call of [isAnyIntegrationConnected] computes the flag
    from the connected hosting and issue integrations and caches it.  From
    then on, whatever events the provider handles and whatever the
    integrations do meanwhile, the cache keeps that value and every
    bootstrap state reports it; so all bootstrap states of a run, from any
    provider state, report one and the same flag. *)
Theorem any_integration_cached_once e p :
  (_hostedIntegrationConnected p = None →
   let '(b, p') := isAnyIntegrationConnected e false p in
   b = (0 <? length (connectedHosting e ++ connectedIssues e))
   ∧ _hostedIntegrationConnected p' = Some b)
  ∧ (∀ b evs, _hostedIntegrationConnected p = Some b →
       fst (isAnyIntegrationConnected e false p) = b
       ∧ let '(ns, p') := run evs p in
         _hostedIntegrationConnected p' = Some b
         ∧ ∀ st, Bootstrap st ∈ ns → hasAnyIntegrationConnected st = b)
  ∧ (∀ evs, ∃ b, ∀ st,
       Bootstrap st ∈ fst (run evs p) → hasAnyIntegrationConnected st = b).
Proof.
  split_and!.
  - intros Hp. unfold isAnyIntegrationConnected. by rewrite Hp.
  - intros b evs Hp. split.
    + unfold isAnyIntegrationConnected. by rewrite Hp.
    + by apply run_cached.
  - intros evs. revert p. induction evs as [| [e' ev] evs IH]; intros p.
    + exists false. intros st Hin. by apply elem_of_nil in Hin.
    + simpl. unfold mbind, M_bind.
      pose proof (handle_cache e' ev p) as Hh.
      destruct (handle e' ev p) as [n p1] eqn:En.
      destruct Hh as [Hother Hboot].
      destruct (decide (ev = BootstrapRequested)) as [Hev | Hev].
      * destruct (Hboot Hev) as (st & -> & Hc & _).
        pose proof (run_cached evs p1 _ Hc) as Hrest.
        destruct (run evs p1) as [ns p2]. destruct Hrest as [_ Hns].
        exists (hasAnyIntegrationConnected st). simpl. intros st' Hin.
        apply elem_of_cons in Hin as [[= ->] | Hin]; [done | by apply Hns].
      * destruct (Hother Hev) as [_ Hno]. destruct (IH p1) as [b Hb].
        destruct (run evs p1) as [ns p2]. exists b. simpl in *.
        intros st Hin. apply elem_of_app in Hin as [Hin | Hin]; [| by apply Hb].
        by destruct (Hno st).
Qed.

End HomeCache.

(** * The life of the refresh timer *)

Section TimerLife.
Context `{Helpers}.

Lemma fireTimer_idle id s : timers (host s) = ∅ → fireTimer id s = s.
Proof. intros He. unfold fireTimer. by rewrite He, lookup_empty. Qed.

Lemma fire_one_shot id delay interval s :
  timers (host s) = {[id := OneShot delay interval]} →
  fireTimer id s
  = {| this := with_refreshTimer (Some (next_timer (host s))) (this s);
       host := {| timers := {[next_timer (host s) := Repeating interval]};
                  next_timer := S (next_timer (host s));
                  hasLoaded := hasLoaded (host s);
                  log := (log (host s)
                          ++ [GetCategorizedItems;
                              SetInterval (next_timer (host s)) interval])
                         %list |} |}.
Proof.
  destruct s as [t [tm nx hl lg]]. simpl. intros ->.
  unfold fireTimer. cbn [timers host]. rewrite lookup_singleton_eq.
  unfold setInterval, emit, with_timers. cbn.
  by rewrite delete_singleton_eq, insert_empty, <- app_assoc.
Qed.

Lemma fire_repeating id interval s :
  timers (host s) !! id = Some (Repeating interval) →
  fireTimer id s = upd_host (emit GetCategorizedItems) s.
Proof. intros Ht. unfold fireTimer. by rewrite Ht. Qed.

(** X1. Where the scheduler's start arms with a first delay, the one-shot
    timer, when it comes due, requests a refresh and is replaced by a
    repeating timer at the interval read when start was called; each tick
    of that timer requests one more refresh and changes nothing else. *)
Theorem one_shot_then_repeating e d s :
  reachable s →
  polling_enabled (cfg e) = true → (0 < polling_interval (cfg e))%Z →
  _state (this s) ≠ disconnected →
  let id := next_timer (host s) in
  let s1 := startRefreshTimer e (Some d) s in
  let s2 := fireTimer id s1 in
  let s3 := fireTimer (S id) s2 in
  timers (host s2) = {[S id := Repeating (refreshIntervalMs (cfg e))]}
  ∧ _refreshTimer (this s2) = Some (S id)
  ∧ log (host s2)
    = (log (host s1)
       ++ [GetCategorizedItems; SetInterval (S id) (refreshIntervalMs (cfg e))])
      %list
  ∧ this s3 = this s2
  ∧ timers (host s3) = timers (host s2)
  ∧ log (host s3) = (log (host s2) ++ [GetCategorizedItems])%list.
Proof.
  intros Hr He Hi Hs id s1 s2 s3. destruct (reachable_inv s Hr) as (Hinv & _).
  pose proof (enabled_not_blocked e s He Hi Hs) as Hb.
  assert (timers (host s1)
          = {[id := OneShot d (refreshIntervalMs (cfg e))]}) as Ht
    by (by apply start_armed_timers).
  assert (next_timer (host s1) = S id) as Hn
    by (by destruct (start_armed_spec e (Some d) s Hb) as (_ & ? & _)).
  subst s3 s2. rewrite (fire_one_shot id _ _ s1 Ht), Hn.
  rewrite (fire_repeating (S id) (refreshIntervalMs (cfg e)))
    by (simpl; apply lookup_singleton_eq).
  done.
Qed.

Lemma fire_all_idle ids s :
  timers (host s) = ∅ → foldl (λ s0 id, fireTimer id s0) s ids = s.
Proof.
  intros He. induction ids as [| id ids IH]; simpl; [done |].
  by rewrite fireTimer_idle.
Qed.




(** X3. A refocus in state ['loading'] with a pause-start recorded calls
    the scheduler's start with a first delay of 5000 ms and, unlike the
    refocus in state ['load'], keeps the pause-start; it is still recorded
    after the refresh that moves the indicator to ['load']. *)
Theorem refocus_loading_keeps_pause e s p :
  _state (this s) = loading →
  _lastRefreshPaused (this s) = Some p →
  let s' := onWindowStateChanged e true s in
  s' = startRefreshTimer e (Some 5000%Z) s
  ∧ _lastRefreshPaused (this s') = Some p
  ∧ ∀ e2 items,
      is_Some (_statusBarFocus (this s)) →
      polling_enabled (cfg e2) = true →
      _state (this (onFocusRefreshed e2 items s')) = load
      ∧ _lastRefreshPaused (this (onFocusRefreshed e2 items s')) = Some p.
Proof.
  intros Hst Hp. simpl.
  assert (onWindowStateChanged e true s = startRefreshTimer e (Some 5000%Z) s)
    as ->.
  { unfold onWindowStateChanged. by rewrite Hst, Hp. }
  pose proof (start_fields e (Some 5000%Z) s) as (Hf1 & Hf2 & _ & Hf4).
  split_and!; [done | congruence |].
  intros e2 items Hsb He2.
  set (s1 := startRefreshTimer e (Some 5000%Z) s) in *.
  assert (is_Some (_statusBarFocus (this s1))) as Hsb1 by (by rewrite Hf2).
  unfold onFocusRefreshed. destruct Hsb1 as [sb Hsb1]. rewrite Hsb1, He2.
  simpl. rewrite updateStatusBar_performed.
  2: { intros [Hn | [_ ?]]; [congruence | done]. }
  simpl.
  pose proof (withItems_fields e2 tooltipHeader (Some items)
    (upd_this (with_state load) s1)) as (Hw1 & _ & Hw3 & _).
  { simpl. by eexists. }
  rewrite Hw1, Hw3. simpl. split; [done | congruence].
Qed.

(** X4. Disposing the indicator in any state it reaches leaves no timer
    pending, no handle and no status bar item; what [maybeLoadData], a
    refresh event or [updateStatusBarCommand] would do afterwards is
    nothing. *)
Theorem dispose_releases s :
  reachable s →
  let s' := dispose s in
  timers (host s') = ∅
  ∧ _refreshTimer (this s') = None
  ∧ _statusBarFocus (this s') = None
  ∧ ∀ e items,
      maybeLoadData e s' = s'
      ∧ onFocusRefreshed e items s' = s'
      ∧ updateStatusBarCommand e s' = s'.
Proof.
  intros Hr. destruct (reachable_inv s Hr) as (Hinv & _).
  destruct (clearRefreshTimer_spec s Hinv) as (Hc1 & Hc2 & _).
  unfold dispose. simpl. split_and!; try done.
  intros e items. split_and!.
  - unfold maybeLoadData.
    destruct (_ && _); [destruct (connected e) |];
      by apply updateStatusBar_skipped; left.
  - done.
  - done.
Qed.

End TimerLife.

(** * Startup and configuration changes *)

Section Startup.
Context `{Helpers}.
Import Observe.

Lemma render_bar p s :
  is_Some (_statusBarFocus (this (render p s)))
  ↔ is_Some (_statusBarFocus (this s)).
Proof.
  unfold render. destruct (_statusBarFocus (this s)) eqn:E; simpl.
  - split; intros _; by eexists.
  - by rewrite E.
Qed.

Lemma withItems_bar e t items s :
  is_Some (_statusBarFocus (this (updateStatusBarWithItems e t items s)))
  ↔ is_Some (_statusBarFocus (this s)).
Proof.
  unfold updateStatusBarWithItems.
  destruct (_statusBarFocus (this s)) eqn:E; [| by rewrite E].
  rewrite render_bar. simpl. rewrite telemetry_this, E. done.
Qed.

Lemma updateStatusBar_bar e state items s :
  is_Some (_statusBarFocus (this (updateStatusBar e state items s)))
  ↔ is_Some (_statusBarFocus (this s)).
Proof.
  destruct (skipped_dec state s) as [Hs | Hs].
  { by rewrite updateStatusBar_skipped. }
  rewrite updateStatusBar_performed by done. simpl.
  destruct state; rewrite ?render_bar, ?withItems_bar.
  - by pose proof (clear_fields (upd_this (with_state idle) s)) as (_ & -> & _).
  - by pose proof (clear_fields (upd_this (with_state disconnected) s))
      as (_ & -> & _).
  - by pose proof (start_fields e (Some 5000%Z)
        (upd_this (with_state loading) s)) as (_ & -> & _).
  - done.
Qed.

Lemma maybeLoadData_eq e s :
  maybeLoadData e s = updateStatusBar e (recomputed e) None s.
Proof.
  unfold maybeLoadData, recomputed. rewrite Z.ltb_antisym.
  destruct (polling_enabled (cfg e)); simpl; [| done].
  destruct (polling_interval (cfg e) <=? 0)%Z; simpl; [done |].
  by destruct (connected e).
Qed.

Lemma recomputed_not_load e : recomputed e ≠ load.
Proof.
  unfold recomputed. destruct (_ || _); [done |]. by destruct (connected e).
Qed.

Lemma maybeLoadData_bar e s :
  is_Some (_statusBarFocus (this (maybeLoadData e s)))
  ↔ is_Some (_statusBarFocus (this s)).
Proof. rewrite maybeLoadData_eq. apply updateStatusBar_bar. Qed.

Lemma maybeLoadData_recomputed e s :
  is_Some (_statusBarFocus (this s)) →
  _state (this (maybeLoadData e s)) = recomputed e.
Proof. intros Hsb. rewrite maybeLoadData_eq. by apply updateStatusBar_state. Qed.

Lemma maybeLoadData_no_bar e s :
  _statusBarFocus (this s) = None → maybeLoadData e s = s.
Proof.
  intros Hn. rewrite maybeLoadData_eq. apply updateStatusBar_skipped. by left.
Qed.

Lemma command_no_bar e s :
  _statusBarFocus (this s) = None → updateStatusBarCommand e s = s.
Proof. intros Hn. unfold updateStatusBarCommand. by rewrite Hn. Qed.

Lemma command_bar e s :
  is_Some (_statusBarFocus (this (updateStatusBarCommand e s)))
  ↔ is_Some (_statusBarFocus (this s)).
Proof.
  unfold updateStatusBarCommand.
  destruct (_statusBarFocus (this s)) eqn:E; simpl; [| by rewrite E].
  split; intros _; by eexists.
Qed.

Lemma start_bar e d s :
  is_Some (_statusBarFocus (this (startRefreshTimer e d s)))
  ↔ is_Some (_statusBarFocus (this s)).
Proof. by pose proof (start_fields e d s) as (_ & -> & _). Qed.

(** X5. Recomputing the state twice in the same surroundings is the same
    as recomputing it once: the second [maybeLoadData] finds the state it
    would set and returns at once. *)
Theorem maybeLoadData_idempotent e s :
  maybeLoadData e (maybeLoadData e s) = maybeLoadData e s.
Proof.
  destruct (_statusBarFocus (this s)) eqn:E.
  - rewrite (maybeLoadData_eq e (maybeLoadData e s)).
    apply updateStatusBar_skipped. right. split.
    + symmetry. apply maybeLoadData_recomputed. by eexists.
    + apply recomputed_not_load.
  - rewrite (maybeLoadData_no_bar e s E). apply (maybeLoadData_no_bar e s E).
Qed.

(** X6. With a status bar item, a configuration change under
    [launchpad.indicator] leaves the indicator in the recomputed state
    when [polling.enabled], [useColors], [icon], [label] or [groups]
    changed, also out of state ['load']; any other change, a change of
    the polling interval alone included, leaves the state as it was. *)
Theorem configuration_change_state e changed s :
  is_Some (_statusBarFocus (this s)) →
  _state (this (onConfigurationChanged e changed s))
  = if changed "launchpad.indicator"%string && reloads changed
    then recomputed e
    else _state (this s).
Proof.
  intros Hsb. unfold onConfigurationChanged, reloads.
  destruct (changed "launchpad.indicator"%string); simpl; [| done].
  assert (∀ s0, _state (this (updateStatusBarCommand e s0)) = _state (this s0))
    as Hcmd by (intros s0; by pose proof (command_fields e s0) as (-> & _)).
  assert (∀ d s0, _state (this (startRefreshTimer e d s0)) = _state (this s0))
    as Hstart by (intros d s0; by pose proof (start_fields e d s0) as (-> & _)).
  set (s1 := if changed _ then _ else s).
  assert (is_Some (_statusBarFocus (this s1)) ∧ _state (this s1) = _state (this s))
    as [Hsb1 Hst1].
  { subst s1. destruct (changed _); [| done].
    by rewrite command_bar, Hcmd. }
  clearbody s1. rewrite <- Hst1.
  destruct (changed "launchpad.indicator.polling"%string);
    destruct (changed "launchpad.indicator.polling.enabled"%string);
    destruct (changed "launchpad.indicator.polling.interval"%string);
    destruct (changed "launchpad.indicator.useColors"%string);
    destruct (changed "launchpad.indicator.icon"%string);
    destruct (changed "launchpad.indicator.label"%string);
    destruct (changed "launchpad.indicator.groups"%string);
    simpl;
    rewrite ?Hcmd, ?Hstart;
    try done;
    rewrite ?maybeLoadData_recomputed;
    try done;
    rewrite ?maybeLoadData_bar, ?start_bar, ?command_bar; done.
Qed.

End Startup.

(** * What a run of the indicator logs *)

Section Runs.
Context `{Helpers}.
Import Observe.

Lemma sent_app l1 l2 : sent (l1 ++ l2) = sent l1 + sent l2.
Proof.
  induction l1 as [| x l1 IH]; simpl; [done |]. destruct x; simpl; lia.
Qed.

Lemma quiet_refl s : quiet s s.
Proof. done. Qed.

Lemma quiet_trans s1 s2 s3 : quiet s1 s2 → quiet s2 s3 → quiet s1 s3.
Proof. unfold quiet. intros [-> ->] [-> ->]. done. Qed.

Lemma quiet_this f s : quiet s (upd_this f s).
Proof. done. Qed.

Lemma quiet_render p s : quiet s (render p s).
Proof.
  unfold quiet, render. destruct (_statusBarFocus (this s)); [| done].
  simpl. rewrite sent_app. simpl. split; [done | lia].
Qed.

Lemma quiet_clear s : quiet s (clearRefreshTimer s).
Proof.
  unfold quiet, clearRefreshTimer. destruct (_refreshTimer (this s)); [| done].
  simpl. rewrite sent_app. simpl. split; [done | lia].
Qed.

Lemma sent_cancel s : sent (cancel_effects s) = 0.
Proof. unfold cancel_effects. by destruct (_refreshTimer (this s)). Qed.

Lemma quiet_start e d s : quiet s (startRefreshTimer e d s).
Proof.
  unfold quiet. destruct (start_blocked e s) eqn:Hb.
  - destruct (start_blocked_spec e d s Hb) as (_ & _ & -> & -> & _).
    rewrite sent_app, sent_cancel. split; [done | lia].
  - destruct (start_armed_spec e d s Hb) as (_ & _ & -> & -> & _).
    rewrite !sent_app, sent_cancel. split; [done |].
    destruct d; simpl; lia.
Qed.

Lemma quiet_fire id s : quiet s (fireTimer id s).
Proof.
  unfold quiet, fireTimer.
  destruct (timers (host s) !! id) as [[delay interval | interval] |];
    simpl; rewrite ?sent_app; simpl; split; try done; lia.
Qed.

Lemma quiet_command e s : quiet s (updateStatusBarCommand e s).
Proof. unfold quiet, updateStatusBarCommand. by destruct (_statusBarFocus _). Qed.

Lemma tele_quiet_l s1 s2 s3 : quiet s1 s2 → tele_step s2 s3 → tele_step s1 s3.
Proof.
  unfold tele_step, quiet. intros [Hh Hs] [[-> ->] | (Hf & -> & ->)].
  - by left.
  - right. by rewrite <- Hh, <- Hs.
Qed.

Lemma tele_quiet_r s1 s2 s3 : tele_step s1 s2 → quiet s2 s3 → tele_step s1 s3.
Proof.
  unfold tele_step, quiet. intros [[Hh Hs] | (Hf & Hh & Hs)] [-> ->].
  - by left.
  - by right.
Qed.

Lemma tele_send e s : tele_step s (sendTelemetryFirstLoadEvent e s).
Proof.
  unfold tele_step, quiet, sendTelemetryFirstLoadEvent.
  destruct (negb _); [by left |].
  destruct (default false (hasLoaded (host s))) eqn:E; [by left |].
  right. simpl. rewrite !sent_app. simpl. split_and!; try done. lia.
Qed.

Lemma tele_withItems e t items s :
  tele_step s (updateStatusBarWithItems e t items s).
Proof.
  unfold updateStatusBarWithItems.
  destruct (_statusBarFocus (this s)); [| by left].
  eapply tele_quiet_r; [| apply quiet_render].
  eapply tele_quiet_r; [apply tele_send | apply quiet_this].
Qed.

Lemma quiet_updateStatusBar e state items s :
  state ≠ load → quiet s (updateStatusBar e state items s).
Proof.
  intros Hl. destruct (skipped_dec state s) as [Hs | Hs].
  { by rewrite updateStatusBar_skipped. }
  rewrite updateStatusBar_performed by done. simpl.
  destruct state; try done.
  - eapply quiet_trans; [| apply quiet_render].
    eapply quiet_trans; [apply (quiet_this (with_state idle)) | apply quiet_clear].
  - eapply quiet_trans; [| apply quiet_render].
    eapply quiet_trans;
      [apply (quiet_this (with_state disconnected)) | apply quiet_clear].
  - eapply quiet_trans; [| apply quiet_render].
    eapply quiet_trans;
      [apply (quiet_this (with_state loading)) | apply quiet_start].
Qed.

Lemma quiet_maybeLoadData e s : quiet s (maybeLoadData e s).
Proof.
  rewrite maybeLoadData_eq. apply quiet_updateStatusBar, recomputed_not_load.
Qed.

Lemma tele_handle e ev s : tele_step s (handle e ev s).
Proof.
  destruct ev as [focused | items | changed | key | id]; simpl.
  - left. unfold onWindowStateChanged.
    destruct (_state (this s)); try done; destruct focused; simpl;
      try (destruct (_lastRefreshPaused (this s)); [| done]; simpl);
      try apply quiet_start;
      try (eapply quiet_trans; [apply quiet_clear | apply quiet_this]).
    eapply quiet_trans;
      [apply (quiet_this (with_lastRefreshPaused None)) | apply quiet_start].
  - unfold onFocusRefreshed.
    destruct (_statusBarFocus (this s)) eqn:E; [| by left].
    destruct (negb _); [by left |].
    destruct (skipped_dec load s) as [[Hn | [_ Hl]] | Hs];
      [congruence | done |].
    rewrite updateStatusBar_performed by done. simpl.
    eapply tele_quiet_l;
      [apply (quiet_this (with_state load)) | apply tele_withItems].
  - left. unfold onConfigurationChanged.
    destruct (negb _); [done |].
    set (s1 := if changed _ then _ else s).
    assert (quiet s s1) as Hq1
      by (subst s1; destruct (changed _); [apply quiet_command | done]).
    clearbody s1. eapply quiet_trans; [exact Hq1 |].
    destruct (changed "launchpad.indicator.polling"%string);
      [destruct (changed "launchpad.indicator.polling.enabled"%string);
         [| destruct (changed "launchpad.indicator.polling.interval"%string)] |];
      simpl;
      repeat match goal with
        | |- quiet _ (if ?b then _ else _) => destruct b
        | |- quiet ?a ?a => apply quiet_refl
        | |- quiet _ (updateStatusBarCommand _ _) =>
            eapply quiet_trans; [| apply quiet_command]
        | |- quiet _ (maybeLoadData _ _) =>
            eapply quiet_trans; [| apply quiet_maybeLoadData]
        | |- quiet _ (startRefreshTimer _ _ _) =>
            eapply quiet_trans; [| apply quiet_start]
        end.
  - left. unfold onConnectedIntegrationsChanged.
    destruct (existsb _ _); [apply quiet_maybeLoadData | done].
  - left. apply quiet_fire.
Qed.

Lemma quiet_new e h :
  hasLoaded (host (newFocusIndicator e h)) = hasLoaded h
  ∧ sent (log (host (newFocusIndicator e h))) = sent (log h).
Proof.
  unfold newFocusIndicator, onReady. destruct (negb _); [done |].
  set (s0 := upd_this _ _).
  assert (quiet s0 (updateStatusBarCommand e (maybeLoadData e s0))) as [Hh Hs]
    by (eapply quiet_trans; [apply quiet_maybeLoadData | apply quiet_command]).
  destruct (_statusBarFocus _); simpl; by rewrite Hh, Hs.
Qed.

(** X7. Over any run of events from construction on a fresh host, the
    first-load telemetry event is sent at most once; it is never sent when
    storage already holds the has-loaded flag; once it was sent the flag
    is stored, and until then storage is as it was found. *)
Theorem first_load_sent_once e0 stored evs :
  let s := run evs (newFocusIndicator e0 (freshHost stored)) in
  sent (log (host s)) ≤ 1
  ∧ (default false stored = true → sent (log (host s)) = 0)
  ∧ (sent (log (host s)) = 1 → hasLoaded (host s) = Some true)
  ∧ (sent (log (host s)) = 0 → hasLoaded (host s) = stored).
Proof.
  simpl.
  assert (∀ s0,
    (sent (log (host s0)) = 0 ∧ hasLoaded (host s0) = stored)
    ∨ (sent (log (host s0)) = 1 ∧ default false stored = false
       ∧ hasLoaded (host s0) = Some true) →
    (sent (log (host (run evs s0))) = 0 ∧ hasLoaded (host (run evs s0)) = stored)
    ∨ (sent (log (host (run evs s0))) = 1 ∧ default false stored = false
       ∧ hasLoaded (host (run evs s0)) = Some true)) as Hrun.
  { unfold run. induction evs as [| [e ev] evs IH]; intros s0 Hs0; [done |].
    simpl. apply IH.
    destruct (tele_handle e ev s0) as [[Hh Hs] | (Hf & Hh & Hs)];
      rewrite Hh, Hs.
    - done.
    - destruct Hs0 as [[Hz Hst] | (Ho & _ & Hst)].
      + right. rewrite Hz. rewrite Hst in Hf. done.
      + rewrite Hst in Hf. done. }
  destruct (quiet_new e0 (freshHost stored)) as [Hh Hs]. simpl in Hh, Hs.
  destruct (Hrun (newFocusIndicator e0 (freshHost stored)))
    as [[Hz Hst] | (Ho & Hf & Hst)]; [by left | |].
  - rewrite Hz, Hst. split_and!; try done; lia.
  - rewrite Ho, Hst. split_and!; try done; try lia. intros Ht. congruence.
Qed.

Lemma start_log e d s :
  ∃ l, log (host (startRefreshTimer e d s)) = (log (host s) ++ l)%list
       ∧ Forall (λ eff, scheduler_effect eff = true) l.
Proof.
  assert (Forall (λ eff, scheduler_effect eff = true) (cancel_effects s)) as Hc.
  { unfold cancel_effects. destruct (_refreshTimer (this s)); by repeat constructor. }
  destruct (start_blocked e s) eqn:Hb.
  - destruct (start_blocked_spec e d s Hb) as (_ & _ & _ & -> & _).
    by eexists.
  - destruct (start_armed_spec e d s Hb) as (_ & _ & _ & -> & _).
    eexists. split; [done |]. apply Forall_app. split; [done |].
    destruct d; by repeat constructor.
Qed.

Lemma inert_start e d s : inert s → inert (startRefreshTimer e d s).
Proof.
  unfold inert. by pose proof (start_fields e d s) as (-> & -> & -> & ->).
Qed.

Lemma inert_handle e ev s :
  inert s →
  inert (handle e ev s)
  ∧ hasLoaded (host (handle e ev s)) = hasLoaded (host s)
  ∧ ∃ l, log (host (handle e ev s)) = (log (host s) ++ l)%list
         ∧ Forall (λ eff, scheduler_effect eff = true) l.
Proof.
  intros Hi. pose proof Hi as (Hsb & Hst & Hldu & Hlrp).
  assert (∀ s0, s0 = s →
    inert s0 ∧ hasLoaded (host s0) = hasLoaded (host s)
    ∧ ∃ l, log (host s0) = (log (host s) ++ l)%list
           ∧ Forall (λ eff, scheduler_effect eff = true) l) as Hsame.
  { intros s0 ->. split_and!; try done. exists []. by rewrite app_nil_r. }
  assert (∀ d,
    inert (startRefreshTimer e d s)
    ∧ hasLoaded (host (startRefreshTimer e d s)) = hasLoaded (host s)
    ∧ ∃ l, log (host (startRefreshTimer e d s)) = (log (host s) ++ l)%list
           ∧ Forall (λ eff, scheduler_effect eff = true) l) as Hstart.
  { intros d. split_and!; [by apply inert_start | apply quiet_start |
                           apply start_log]. }
  destruct ev as [focused | items | changed | key | id]; simpl.
  - apply Hsame. unfold onWindowStateChanged. by rewrite Hst.
  - apply Hsame. unfold onFocusRefreshed. by rewrite Hsb.
  - unfold onConfigurationChanged.
    destruct (negb _); [by apply Hsame |].
    rewrite (command_no_bar e s Hsb).
    destruct (changed "launchpad.indicator.openInEditor"%string);
    destruct (changed "launchpad.indicator.polling"%string);
      destruct (changed "launchpad.indicator.polling.enabled"%string);
      destruct (changed "launchpad.indicator.polling.interval"%string);
      destruct (changed "launchpad.indicator.useColors"%string);
      destruct (changed "launchpad.indicator.icon"%string);
      destruct (changed "launchpad.indicator.label"%string);
      destruct (changed "launchpad.indicator.groups"%string);
      simpl;
      rewrite ?(maybeLoadData_no_bar e s Hsb), ?(command_no_bar e s Hsb);
      try (by apply Hsame);
      pose proof (inert_start e None s Hi) as (Hsb' & _);
      rewrite ?(maybeLoadData_no_bar e _ Hsb'), ?(command_no_bar e _ Hsb');
      apply Hstart.
  - apply Hsame. unfold onConnectedIntegrationsChanged.
    destruct (existsb _ _); [by apply maybeLoadData_no_bar | done].
  - unfold fireTimer.
    destruct (timers (host s) !! id) as [[delay interval | interval] |];
      [| | by apply Hsame]; simpl.
    + split_and!; try done. eexists [_; _].
      rewrite <- app_assoc. split; [done |]. by repeat constructor.
    + split_and!; try done. eexists [_]. split; [done |]. by repeat constructor.
Qed.

(** X8. Constructed with the indicator switched off, the component never
    gets a status bar item: over any run of events it stays ['idle'],
    records no data update and no pause-start, leaves storage alone, and
    everything it logs is a call on the timers or a refresh request; it
    never renders and never sends telemetry. *)
Theorem disabled_indicator_inert e0 h evs :
  indicator_enabled (cfg e0) = false →
  let s := run evs (newFocusIndicator e0 h) in
  inert s
  ∧ hasLoaded (host s) = hasLoaded h
  ∧ ∃ l, log (host s) = (log h ++ l)%list
         ∧ Forall (λ eff, scheduler_effect eff = true) l.
Proof.
  intros He. simpl.
  assert (newFocusIndicator e0 h
          = {| this := {| _statusBarFocus := None; _refreshTimer := None;
                          _state := idle; _lastDataUpdate := None;
                          _lastRefreshPaused := None |};
               host := h |}) as ->
    by (unfold newFocusIndicator, onReady; by rewrite He).
  set (s0 := {| this := _; host := h |}).
  assert (inert s0) as Hi0 by done.
  change h with (host s0). clearbody s0.
  unfold run. revert s0 Hi0.
  induction evs as [| [e ev] evs IH]; intros s0 Hi0; simpl.
  - split_and!; try done. exists []. by rewrite app_nil_r.
  - destruct (inert_handle e ev s0 Hi0) as (Hi1 & Hh1 & l1 & Hl1 & Hf1).
    destruct (IH _ Hi1) as (Hi2 & Hh2 & l2 & Hl2 & Hf2).
    split_and!; [done | congruence |].
    exists (l1 ++ l2)%list. rewrite Hl2, Hl1, <- app_assoc.
    split; [done |]. by apply Forall_app.
Qed.

End Runs.

(** * More on rendering *)

Section RenderingMore.
Context `{Helpers}.
Import Observe.

Lemma str_app_assoc (a b c : string) : ((a +:+ b) +:+ c = a +:+ (b +:+ c))%string.
Proof.
  induction a as [| x a IH]; [done |].
  change (String x ((a +:+ b) +:+ c) = String x (a +:+ (b +:+ c)))%string.
  by rewrite IH.
Qed.

Lemma str_app_empty_r (a : string) : (a +:+ "" = a)%string.
Proof.
  induction a as [| x a IH]; [done |].
  change (String x (a +:+ "") = String x a)%string. by rewrite IH.
Qed.

Lemma starts_with_refl t : starts_with t t.
Proof. exists ""%string. by rewrite str_app_empty_r. Qed.

Lemma starts_with_app t x y : starts_with t x → starts_with t (x +:+ y).
Proof. intros [r ->]. exists (r +:+ y)%string. apply str_app_assoc. Qed.

Lemma renderBlocked_fields isItem items d :
  (∃ x, d_tooltip (renderBlocked isItem items d) = (d_tooltip d +:+ x)%string)
  ∧ d_color (renderBlocked isItem items d)
    = nullish_assign (d_color d) "#FF0000"%string.
Proof.
  unfold renderBlocked.
  destruct (nonempty (groupByMap items blockedKey !! "unassigned-reviewers"%string))
    as [[f1 n1] |];
    destruct (nonempty (groupByMap items blockedKey !! "failed-checks"%string))
      as [[f2 n2] |];
    destruct (nonempty (groupByMap items blockedKey !! "conflicts"%string))
      as [[f3 n3] |];
    simpl; split; try done; by eexists.
Qed.

Lemma renderGroup_starts isItem m t d g :
  starts_with t (d_tooltip d) →
  starts_with t (d_tooltip (renderGroup isItem m d g)).
Proof.
  intros Hd. unfold renderGroup.
  destruct (m !! g) as [[| first rest] |]; try done.
  set (d1 := if (0 <? String.length (d_tooltip d))%nat then _ else d).
  assert (starts_with t (d_tooltip d1)) as Hd1.
  { subst d1. destruct (0 <? _)%nat; [| done]. simpl. by apply starts_with_app. }
  clearbody d1.
  destruct (g =? "mergeable")%string; [by apply starts_with_app |].
  destruct (g =? "blocked")%string.
  { destruct (renderBlocked_fields isItem (first :: rest) d1) as [[x ->] _].
    by apply starts_with_app. }
  destruct (g =? "follow-up")%string; [by apply starts_with_app |].
  destruct (g =? "needs-review")%string; [by apply starts_with_app | done].
Qed.

Lemma fold_starts isItem m t gs d :
  starts_with t (d_tooltip d) →
  starts_with t (d_tooltip (foldl (renderGroup isItem m) d gs)).
Proof.
  revert d. induction gs as [| g gs IH]; intros d Hd; simpl; [done |].
  by apply IH, renderGroup_starts.
Qed.

Lemma renderItems_starts c t items :
  starts_with t (p_tooltip (renderItems c t items)).
Proof.
  unfold renderItems. simpl.
  destruct (totalGroupedItems _ =? 0)%nat; simpl;
    [by apply starts_with_app, starts_with_refl |].
  destruct (negb _); simpl; [by apply starts_with_app, starts_with_refl |].
  apply fold_starts. simpl. apply starts_with_refl.
Qed.

(** X9. Whatever the items and the configuration, the tooltip that the
    ['load'] rendering produces starts with the tooltip it was given; so
    after every transition the state machine performs, the tooltip shown
    starts with the header that holds the settings and hide links. *)
Theorem tooltip_keeps_header e state items s :
  ¬ skipped state s →
  (∃ text rest color,
     shown (updateStatusBar e state items s)
     = Some (text, tooltipHeader +:+ rest, color)%string)
  ∧ ∀ c t its, starts_with t (p_tooltip (renderItems c t its)).
Proof.
  intros Hns. split; [| intros c t its; apply renderItems_starts].
  assert (is_Some (_statusBarFocus (this s))) as Hsb.
  { destruct (_statusBarFocus (this s)) eqn:E; [by eexists |].
    destruct Hns. by left. }
  rewrite updateStatusBar_performed by done. simpl.
  destruct state.
  - destruct (render_shown idlePayload
      (clearRefreshTimer (upd_this (with_state idle) s))) as [-> _];
      [by apply clear_keeps_bar |].
    by eexists _, _, _.
  - destruct (render_shown disconnectedPayload
      (clearRefreshTimer (upd_this (with_state disconnected) s))) as [-> _];
      [by apply clear_keeps_bar |].
    simpl. rewrite str_app_assoc. by eexists _, _, _.
  - destruct (render_shown loadingPayload
      (startRefreshTimer e (Some 5000%Z) (upd_this (with_state loading) s)))
      as [-> _]; [by apply start_keeps_bar |].
    simpl. rewrite str_app_assoc. by eexists _, _, _.
  - destruct Hsb as [sb Hsb]. unfold updateStatusBarWithItems. simpl.
    rewrite Hsb.
    destruct (render_shown (renderItems (cfg e) tooltipHeader items)
      (upd_this (with_lastDataUpdate (Some (now e)))
         (sendTelemetryFirstLoadEvent e (upd_this (with_state load) s))))
      as [-> _].
    { simpl. rewrite telemetry_this. simpl. by eexists. }
    destruct (renderItems_starts (cfg e) tooltipHeader items) as [r ->].
    by eexists _, _, _.
Qed.

Lemma elem_le_sum (n : nat) (l : list nat) : n ∈ l → n ≤ sum_list l.
Proof.
  induction l as [| x l IH]; intros Hin; [by apply elem_of_nil in Hin |].
  apply elem_of_cons in Hin as [-> | Hin]; simpl; [lia |].
  specialize (IH Hin). lia.
Qed.

Lemma total_pos (m : gmap string (list FocusItem)) g first rest :
  m !! g = Some (first :: rest) → totalGroupedItems m ≠ 0.
Proof.
  intros Hm. rewrite totalGroupedItems_sum.
  assert (length (first :: rest) ∈ length <$> (snd <$> map_to_list m)) as Hin.
  { apply list_elem_of_fmap. exists (first :: rest). split; [done |].
    apply list_elem_of_fmap. exists (g, first :: rest). split; [done |].
    by apply elem_of_map_to_list. }
  apply elem_le_sum in Hin. simpl in Hin. lia.
Qed.

Lemma hasImportant_true gs (m : gmap string (list FocusItem)) g first rest :
  g ∈ gs → m !! g = Some (first :: rest) →
  hasImportantGroupsWithItems gs m = true.
Proof.
  intros Hg Hm. unfold hasImportantGroupsWithItems.
  apply existsb_exists. exists g. rewrite Hm.
  split; [by apply list_elem_of_In | done].
Qed.

Lemma renderGroup_green isItem m d g :
  d_color d = Some green → d_color (renderGroup isItem m d g) = Some green.
Proof.
  intros Hd. unfold renderGroup.
  destruct (m !! g) as [[| first rest] |]; try done.
  set (d1 := if (0 <? String.length (d_tooltip d))%nat then _ else d).
  assert (d_color d1 = Some green) as Hd1
    by (subst d1; by destruct (0 <? _)%nat).
  clearbody d1.
  destruct (g =? "mergeable")%string; [done |].
  destruct (g =? "blocked")%string.
  { destruct (renderBlocked_fields isItem (first :: rest) d1) as [_ ->].
    by rewrite Hd1. }
  destruct (g =? "follow-up")%string; [simpl; by rewrite Hd1 |].
  destruct (g =? "needs-review")%string; [simpl; by rewrite Hd1 | done].
Qed.

Lemma fold_green isItem m gs d :
  d_color d = Some green →
  d_color (foldl (renderGroup isItem m) d gs) = Some green.
Proof.
  revert d. induction gs as [| g gs IH]; intros d Hd; simpl; [done |].
  by apply IH, renderGroup_green.
Qed.

Lemma fold_mergeable isItem (m : gmap string (list FocusItem)) gs d first rest :
  "mergeable"%string ∈ gs → m !! "mergeable"%string = Some (first :: rest) →
  d_color (foldl (renderGroup isItem m) d gs) = Some green.
Proof.
  intros Hin Hm. revert d.
  induction gs as [| g gs IH]; intros d; [by apply elem_of_nil in Hin |].
  simpl. destruct (decide (g = "mergeable"%string)) as [-> | Hg].
  - apply fold_green. unfold renderGroup. rewrite Hm.
    by destruct (0 <? String.length (d_tooltip d))%nat.
  - apply IH. apply elem_of_cons in Hin as [Heq | Hin]; [congruence | done].
Qed.

(** X10. With colours in use, whenever 'mergeable' is among the configured
    groups and has items, the status bar colour is the green of that
    group, wherever 'mergeable' stands in the configured order and
    whichever group supplies the item named in the text. *)
Theorem mergeable_colour_wins c t items first rest :
  useColors c = true →
  "mergeable"%string ∈ default [] (groups c) →
  groupAndSortFocusItems items !! "mergeable"%string = Some (first :: rest) →
  p_color (renderItems c t items) = Some "#00FF00"%string.
Proof.
  intros Hc Hin Hm. unfold renderItems. simpl. rewrite Hc.
  rewrite (hasImportant_true _ _ _ _ _ Hin Hm). simpl.
  destruct (totalGroupedItems _ =? 0)%nat eqn:E.
  - apply Nat.eqb_eq in E. by destruct (total_pos _ _ _ _ Hm).
  - by apply (fold_mergeable _ _ _ _ first rest).
Qed.

Lemma knownGroup_false g :
  knownGroup g = false →
  (g =? "mergeable")%string = false ∧ (g =? "blocked")%string = false
  ∧ (g =? "follow-up")%string = false ∧ (g =? "needs-review")%string = false.
Proof.
  unfold knownGroup. intros Hk.
  apply orb_false_iff in Hk as [Hk H4]. apply orb_false_iff in Hk as [Hk H3].
  apply orb_false_iff in Hk as [H1 H2]. done.
Qed.

Lemma fold_unknown isItem (m : gmap string (list FocusItem)) gs d :
  (∀ g, g ∈ gs → knownGroup g = false) →
  (0 < String.length (d_tooltip d))%nat →
  foldl (renderGroup isItem m) d gs
  = {| d_tooltip :=
         (d_tooltip d
          +:+ repeat_str (length (filter (λ g, hasItems m g = true) gs))
                groupSeparator)%string;
       d_color := d_color d; d_topItem := d_topItem d;
       d_topIcon := d_topIcon d |}.
Proof.
  revert d. induction gs as [| g gs IH]; intros d Hk Hlen.
  - simpl. rewrite str_app_empty_r. by destruct d.
  - simpl foldl.
    destruct (knownGroup_false g) as (H1 & H2 & H3 & H4);
      [apply Hk; by left |].
    assert (∀ g0, g0 ∈ gs → knownGroup g0 = false) as Hk'
      by (intros g0 Hg0; apply Hk; by right).
    destruct (hasItems m g) eqn:Eg.
    + rewrite filter_cons_True by done.
      assert (renderGroup isItem m d g
              = {| d_tooltip := (d_tooltip d +:+ groupSeparator)%string;
                   d_color := d_color d; d_topItem := d_topItem d;
                   d_topIcon := d_topIcon d |}) as ->.
      { unfold renderGroup, hasItems in *.
        destruct (m !! g) as [[| first rest] |]; try done.
        apply Nat.ltb_lt in Hlen. rewrite Hlen, H1, H2, H3, H4. done. }
      rewrite IH; [| done | simpl; rewrite length_app; lia].
      simpl. by rewrite str_app_assoc.
    + rewrite filter_cons_False by (by rewrite Eg).
      assert (renderGroup isItem m d g = d) as ->.
      { unfold renderGroup, hasItems in *.
        by destruct (m !! g) as [[| first rest] |]. }
      by apply IH.
Qed.

(** X11. When every configured group is one the rendering loop has no arm
    for, and some of them have items, the ['load'] rendering adds nothing
    but one separator per configured group with items to a non-empty
    tooltip: no message, the plain rocket as text and no colour. *)
Theorem unknown_groups_only_separators c t items :
  (0 < String.length t)%nat →
  (∀ g, g ∈ default [] (groups c) → knownGroup g = false) →
  hasImportantGroupsWithItems (default [] (groups c))
    (groupAndSortFocusItems items) = true →
  renderItems c t items
  = {| p_text := "$(rocket)";
       p_tooltip :=
         (t +:+ repeat_str
                  (length (filter
                     (λ g, hasItems (groupAndSortFocusItems items) g = true)
                     (default [] (groups c))))
                  groupSeparator)%string;
       p_color := None |}.
Proof.
  intros Hlen Hk Himp. unfold renderItems. simpl. rewrite Himp. simpl.
  destruct (totalGroupedItems _ =? 0)%nat eqn:E.
  { apply Nat.eqb_eq in E. apply existsb_exists in Himp as (g & _ & Hg).
    destruct (groupAndSortFocusItems items !! g) as [[| first rest] |] eqn:Em;
      try done.
    by destruct (total_pos _ _ _ _ Em). }
  rewrite fold_unknown by done. simpl. by destruct (useColors c).
Qed.

End RenderingMore.

(** * The status bar item *)

Section StatusBar.
Context `{Helpers}.
Import Observe.

Lemma recomputed_loading e :
  recomputed e = loading →
  polling_enabled (cfg e) = true ∧ (0 < polling_interval (cfg e))%Z.
Proof.
  unfold recomputed.
  destruct (polling_enabled (cfg e)); simpl; [| done].
  destruct (Z.leb_spec (polling_interval (cfg e)) 0); [done |].
  intros _. split; [done | lia].
Qed.

(** X12. On startup with the indicator enabled the status bar item is
    created, given its command and shown, in the recomputed state.  When
    that state is ['idle'], the state the constructor starts in, the
    update is skipped: nothing is rendered, text and tooltip stay empty
    and the host is untouched.  When it is ['disconnected'] or ['loading']
    the state's payload is rendered, and for ['loading'] a one-shot timer
    of 5000 ms is armed. *)
Theorem startup_status_bar e h :
  indicator_enabled (cfg e) = true →
  let s := newFocusIndicator e h in
  _state (this s) = recomputed e
  ∧ (∃ sb, _statusBarFocus (this s) = Some sb
           ∧ sb_visible sb = true
           ∧ sb_command sb
             = Some (if openInEditor (cfg e) then ShowFocusPage
                     else OpenLaunchpad
                            (default "item" (label (cfg e)) =? "item")%string))
  ∧ (recomputed e = idle →
     shown s = Some (""%string, ""%string, None) ∧ host s = h)
  ∧ (recomputed e = disconnected →
     shown s = Some (p_text disconnectedPayload, p_tooltip disconnectedPayload,
                     None)
     ∧ timers (host s) = timers h
     ∧ log (host s)
       = (log h ++ [Render (p_text disconnectedPayload)
                      (p_tooltip disconnectedPayload) None])%list)
  ∧ (recomputed e = loading →
     shown s = Some (p_text loadingPayload, p_tooltip loadingPayload, None)
     ∧ _refreshTimer (this s) = Some (next_timer h)
     ∧ timers (host s)
       = <[next_timer h := OneShot 5000 (refreshIntervalMs (cfg e))]>
           (timers h)
     ∧ log (host s)
       = (log h ++ [SetTimeout (next_timer h) 5000;
                    Render (p_text loadingPayload) (p_tooltip loadingPayload)
                      None])%list).
Proof.
  intros He. unfold newFocusIndicator, onReady. rewrite He. cbn zeta.
  cbn [negb]. cbv iota.
  set (s0 := upd_this _ _).
  rewrite (maybeLoadData_eq e s0).
  pose proof (recomputed_not_load e) as Hnl.
  destruct (recomputed e) eqn:R; [| | | done].
  - rewrite updateStatusBar_skipped by (by right).
    subst s0. unfold updateStatusBarCommand. cbn.
    split_and!; try done. by eexists.
  - rewrite updateStatusBar_performed.
    2: { intros [Hn | [Hs _]]; [discriminate Hn | discriminate Hs]. }
    subst s0. unfold updateStatusBarCommand, clearRefreshTimer, render. cbn.
    split_and!; try done. by eexists.
  - destruct (recomputed_loading e R) as [Hp Hi].
    rewrite updateStatusBar_performed.
    2: { intros [Hn | [Hs _]]; [discriminate Hn | discriminate Hs]. }
    cbn zeta. cbv iota.
    set (s1 := upd_this (with_state loading) s0).
    assert (start_blocked e s1 = false) as Hb
      by (by apply enabled_not_blocked).
    destruct (start_armed_spec e (Some 5000%Z) s1 Hb)
      as (Hthis & Hn & Hhl & Hlog & Htm).
    destruct (startRefreshTimer e (Some 5000%Z) s1) as [t1 [tm nx hl lg]].
    cbn in Hthis, Hn, Hhl, Hlog, Htm. subst t1 tm nx hl lg.
    unfold updateStatusBarCommand, render. cbn.
    rewrite <- app_assoc.
    split_and!; try done. by eexists.
Qed.

Lemma handle_keeps_bar e ev s :
  is_Some (_statusBarFocus (this s)) →
  is_Some (_statusBarFocus (this (handle e ev s))).
Proof.
  intros Hsb. destruct ev as [focused | items | changed | key | id]; simpl.
  - unfold onWindowStateChanged.
    destruct (_state (this s)); try done; destruct focused; simpl;
      try (destruct (_lastRefreshPaused (this s)); [| done]; simpl);
      rewrite ?start_bar; simpl; try done; by apply clear_keeps_bar.
  - unfold onFocusRefreshed.
    destruct (_statusBarFocus (this s)) eqn:E; [| done].
    destruct (negb _); [by rewrite E |].
    rewrite updateStatusBar_bar, E. done.
  - unfold onConfigurationChanged.
    destruct (negb _); [done |].
    destruct (changed "launchpad.indicator.openInEditor"%string);
      destruct (changed "launchpad.indicator.polling"%string);
      destruct (changed "launchpad.indicator.polling.enabled"%string);
      destruct (changed "launchpad.indicator.polling.interval"%string);
      destruct (changed "launchpad.indicator.useColors"%string);
      destruct (changed "launchpad.indicator.icon"%string);
      destruct (changed "launchpad.indicator.label"%string);
      destruct (changed "launchpad.indicator.groups"%string);
      simpl;
      rewrite ?command_bar, ?maybeLoadData_bar, ?start_bar,
        ?command_bar, ?maybeLoadData_bar, ?command_bar;
      done.
  - unfold onConnectedIntegrationsChanged.
    destruct (existsb _ _); [by rewrite maybeLoadData_bar | done].
  - unfold fireTimer.
    by destruct (timers (host s) !! id) as [[delay interval | interval] |].
Qed.

(** X13. In every state the indicator reaches, either it has its status
    bar item, or it is as constructed: ['idle'], with no data update and
    no pause-start recorded.  No event handler ever removes the item. *)
Theorem status_bar_or_inert s :
  reachable s →
  (is_Some (_statusBarFocus (this s)) ∨ inert s)
  ∧ ∀ e ev, is_Some (_statusBarFocus (this s)) →
            is_Some (_statusBarFocus (this (handle e ev s))).
Proof.
  intros Hr. split; [| intros e ev; apply handle_keeps_bar].
  induction Hr as [e stored | s e ev _ IH].
  - unfold newFocusIndicator, onReady.
    destruct (indicator_enabled (cfg e)); simpl; [left | by right].
    set (s1 := updateStatusBarCommand e _).
    assert (is_Some (_statusBarFocus (this s1))) as [sb Hsb].
    { subst s1. rewrite command_bar, maybeLoadData_bar. simpl. by eexists. }
    rewrite Hsb. simpl. by eexists.
  - destruct IH as [Hsb | Hi].
    + left. by apply handle_keeps_bar.
    + right. by apply inert_handle.
Qed.

End StatusBar.

(** * The code lens controller *)

Section CodeLensProofs.
Import CodeLens.

Lemma none_not_enabled : bool_decide (is_Some (@None nat)) = false.
Proof. apply bool_decide_eq_false_2. intros [x Hx]. discriminate Hx. Qed.

Lemma some_enabled (id : nat) : bool_decide (is_Some (Some id)) = true.
Proof. apply bool_decide_eq_true_2. by eexists. Qed.

Lemma disposed_fields s :
  next_provider (disposeProvider s) = next_provider (host s)
  ∧ toggles (disposeProvider s) = toggles (host s)
  ∧ activations (disposeProvider s) = activations (host s)
  ∧ disabledToggle (disposeProvider s) = disabledToggle (host s)
  ∧ importing (disposeProvider s) = importing (host s).
Proof. unfold disposeProvider. by destruct (_providerDisposable (this s)). Qed.

Lemma disposed_registered s id :
  id ∈ registered (disposeProvider s)
  ↔ id ∈ registered (host s) ∧ _providerDisposable (this s) ≠ Some id.
Proof.
  unfold disposeProvider.
  destruct (_providerDisposable (this s)) as [held |]; simpl.
  - rewrite elem_of_difference, elem_of_singleton.
    split; intros [Hin Hne]; (split; [done |]); congruence.
  - split; [by intros Hin | by intros [Hin _]].
Qed.

(** The registration held is the only one a disposal can end. *)
Lemma disposed_unheld s :
  (∀ id, _providerDisposable (this s) = Some id → id ∉ registered (host s)) →
  registered (disposeProvider s) = registered (host s).
Proof.
  intros Hn. apply set_eq. intros id. rewrite disposed_registered.
  split; [by intros [Hin _] |]. intros Hin. split; [done |].
  intros Hh. by apply (Hn id Hh).
Qed.

Lemma held_inv_same s s' :
  this s' = this s →
  registered (host s') = registered (host s) →
  next_provider (host s') = next_provider (host s) →
  held_inv s → held_inv s'.
Proof. unfold held_inv. by intros -> -> ->. Qed.

Lemma held_disable s : held_inv s → held_inv (disableCodeLens s).
Proof.
  intros [Hf _]. pose proof (disposed_fields s) as (Hn & _).
  unfold held_inv, disableCodeLens. simpl. rewrite Hn. split.
  - intros id Hin. apply disposed_registered in Hin as [Hin _]. by apply Hf.
  - intros id Hh Hin. apply disposed_registered in Hin as [_ Hne]. done.
Qed.

Lemma held_ensure s : held_inv s → held_inv (ensureProvider s).
Proof.
  intros Hinv. unfold ensureProvider.
  destruct (_provider (this s)) as [id |] eqn:E; [done |].
  destruct Hinv as [Hf _]. pose proof (disposed_fields s) as (Hn & _).
  unfold held_inv. simpl. rewrite E, Hn. split.
  - intros id Hin. apply disposed_registered in Hin as [Hin _]. by apply Hf.
  - intros id Hh Hin. apply disposed_registered in Hin as [_ Hne]. done.
Qed.

Lemma held_resumed s : held_inv s → held_inv (ensureProviderResumed s).
Proof.
  intros [Hf _]. unfold held_inv, ensureProviderResumed. simpl. split.
  - intros id Hin. apply elem_of_union in Hin as [Hin | Hin].
    + apply elem_of_singleton in Hin as ->. lia.
    + apply Hf in Hin. lia.
  - split; [done |]. apply elem_of_union_l. by apply elem_of_singleton.
Qed.

Lemma blame_iter n blameable s :
  let s' := Nat.iter n (onBlameStateChanged blameable) s in
  this s' = this s
  ∧ registered (host s') = registered (host s)
  ∧ next_provider (host s') = next_provider (host s)
  ∧ toggles (host s') = toggles (host s)
  ∧ disabledToggle (host s') = disabledToggle (host s)
  ∧ importing (host s') = importing (host s).
Proof.
  induction n as [| n IH]; [done |].
  change (Nat.iter (S n) (onBlameStateChanged blameable) s)
    with (onBlameStateChanged blameable
            (Nat.iter n (onBlameStateChanged blameable) s)).
  set (s0 := Nat.iter n (onBlameStateChanged blameable) s) in *.
  cbv zeta in *. destruct IH as (H1 & H2 & H3 & H4 & H5 & H6).
  unfold onBlameStateChanged.
  destruct (_provider (this s0)); [| done].
  by destruct (negb blameable).
Qed.

Lemma track_lens s :
  this (trackCodeLens s) = this s
  ∧ registered (host (trackCodeLens s)) = registered (host s)
  ∧ next_provider (host (trackCodeLens s)) = next_provider (host s)
  ∧ toggles (host (trackCodeLens s)) = toggles (host s)
  ∧ disabledToggle (host (trackCodeLens s)) = disabledToggle (host s)
  ∧ importing (host (trackCodeLens s)) = importing (host s).
Proof. unfold trackCodeLens. by destruct (activations (host s) =? 0)%nat. Qed.

Lemma held_inv_handle ev s : held_inv s → held_inv (handle ev s).
Proof.
  intros Hinv.
  assert (∀ relevant c, held_inv (onConfigurationChanged relevant c s))
    as Hcfg.
  { intros relevant c. unfold onConfigurationChanged.
    destruct relevant; simpl; [| done].
    set (s1 := {| this := _; host := host s |}).
    assert (held_inv s1) as Hinv1 by done.
    destruct (cfg_enabled c && _).
    - by apply (held_inv_same (ensureProvider s1)), held_ensure.
    - by apply (held_inv_same (disableCodeLens s1)), held_disable. }
  destruct ev as [relevant c | relevant c | | | blameable | id]; simpl;
    try apply Hcfg.
  - unfold toggleCodeLens.
    destruct (_canToggle (this s)); simpl; [| done].
    destruct (_provider (this s)) eqn:E.
    + by apply held_disable.
    + by apply held_ensure.
  - destruct (importing (host s)) as [| waiting]; [done |].
    by apply held_resumed.
  - pose proof (blame_iter (size (registered (host s))) blameable s)
      as (H1 & H2 & H3 & _).
    by apply (held_inv_same s).
  - destruct (bool_decide _); [| done].
    pose proof (track_lens s) as (H1 & H2 & H3 & _).
    by apply (held_inv_same s).
Qed.

Lemma lens_reachable_inv s : reachable s → held_inv s.
Proof.
  induction 1 as [tracked | s ev _ IH]; [| by apply held_inv_handle].
  split; [| done]. intros id Hin. by apply elem_of_empty in Hin.
Qed.

Lemma reachable_run evs s : reachable s → reachable (run evs s).
Proof.
  revert s. induction evs as [| ev evs IH]; intros s Hr; [done |].
  simpl. apply IH. by apply reach_step.
Qed.

(** X14. In every state the controller reaches, code lens is enabled
    exactly when the registration the controller holds is live, and the
    provider is then the one that registration was made for; every live
    registration has a number handed out before. *)
Theorem codelens_enabled_iff_held_live s :
  reachable s →
  heldLive s = isEnabled s
  ∧ (isEnabled s = true → _providerDisposable (this s) = _provider (this s))
  ∧ (∀ id, id ∈ registered (host s) → id < next_provider (host s)).
Proof.
  intros Hr. destruct (lens_reachable_inv s Hr) as [Hf Hp].
  unfold isEnabled, heldLive. split; [| split; [| exact Hf]].
  - destruct (_provider (this s)) as [id |].
    + destruct Hp as [-> Hin]. rewrite some_enabled.
      by apply bool_decide_eq_true_2.
    + rewrite none_not_enabled.
      destruct (_providerDisposable (this s)) as [held |]; [| done].
      apply bool_decide_eq_false_2. by apply Hp.
  - destruct (_provider (this s)) as [id |].
    + by destruct Hp as [-> _].
    + rewrite none_not_enabled. discriminate.
Qed.

Lemma disable_facts s :
  let s' := disableCodeLens s in
  isEnabled s' = false
  ∧ canToggle s' = canToggle s
  ∧ heldLive s' = false
  ∧ toggles (host s') = S (toggles (host s))
  ∧ disabledToggle (host s') = disabledToggle (host s)
  ∧ importing (host s') = importing (host s).
Proof.
  pose proof (disposed_fields s) as (_ & Ht & _ & Hd & Hi).
  unfold isEnabled, canToggle, heldLive, disableCodeLens. simpl.
  rewrite ?none_not_enabled, ?Ht, ?Hd, ?Hi. split_and!; try done.
  destruct (_providerDisposable (this s)) as [held |] eqn:E; [| done].
  apply bool_decide_eq_false_2. intros Hin.
  apply disposed_registered in Hin as [_ Hne]. done.
Qed.

Lemma ensure_off_facts s :
  held_inv s → isEnabled s = false →
  let s' := ensureProvider s in
  this s' = this s
  ∧ registered (host s') = registered (host s)
  ∧ next_provider (host s') = next_provider (host s)
  ∧ toggles (host s') = toggles (host s)
  ∧ disabledToggle (host s') = disabledToggle (host s)
  ∧ importing (host s') = S (importing (host s)).
Proof.
  intros [_ Hp] Hen. unfold isEnabled in Hen. unfold ensureProvider.
  destruct (_provider (this s)) as [id |]; [by rewrite some_enabled in Hen |].
  pose proof (disposed_fields s) as (Hn & Ht & _ & Hd & Hi).
  simpl. rewrite Hn, Ht, Hd, Hi. split_and!; try done.
  by apply disposed_unheld.
Qed.

Lemma ensure_facts s :
  let s' := ensureProvider s in
  isEnabled s' = isEnabled s
  ∧ canToggle s' = canToggle s
  ∧ toggles (host s') = toggles (host s)
  ∧ importing (host s')
    = (if negb (isEnabled s) then S (importing (host s))
       else importing (host s)).
Proof.
  pose proof (disposed_fields s) as (_ & Ht & _ & _ & Hi).
  unfold isEnabled, canToggle, ensureProvider.
  destruct (_provider (this s)) as [id |] eqn:E; simpl.
  - by rewrite ?E, ?some_enabled.
  - by rewrite ?E, ?none_not_enabled, ?Ht, ?Hi.
Qed.

Lemma ensure_on s : isEnabled s = true → ensureProvider s = s.
Proof.
  unfold isEnabled, ensureProvider.
  destruct (_provider (this s)); [done | by rewrite none_not_enabled].
Qed.

Lemma resolved_facts s waiting :
  importing (host s) = S waiting →
  let s' := handle ImportResolved s in
  _provider (this s') = Some (next_provider (host s))
  ∧ _providerDisposable (this s') = Some (next_provider (host s))
  ∧ isEnabled s' = true
  ∧ canToggle s' = canToggle s
  ∧ registered (host s') = {[next_provider (host s)]} ∪ registered (host s)
  ∧ next_provider (host s') = S (next_provider (host s))
  ∧ toggles (host s') = S (toggles (host s))
  ∧ disabledToggle (host s') = disabledToggle (host s)
  ∧ importing (host s') = waiting.
Proof.
  intros Hi. simpl. rewrite Hi. unfold isEnabled. simpl.
  by rewrite ?some_enabled.
Qed.

Lemma toggle_eq s :
  canToggle s = true →
  toggleCodeLens s
  = if isEnabled s then disableCodeLens s else ensureProvider s.
Proof.
  unfold canToggle, toggleCodeLens, isEnabled. intros ->. simpl.
  destruct (_provider (this s)); by rewrite ?some_enabled, ?none_not_enabled.
Qed.

(** X15. Where code lens cannot be toggled, [toggleCodeLens] does nothing.
    Where it can and code lens is enabled, the toggle disables it before it
    returns: the registration held is disposed of and the toggle event
    fires once.  Where it can and code lens is off, the toggle returns with
    code lens still off, no event fired and one more import awaited; only
    when that import resolves is the provider made and registered and the
    toggle event fired. *)
Theorem toggle_then_import s :
  reachable s →
  (canToggle s = false → toggleCodeLens s = s)
  ∧ (canToggle s = true → isEnabled s = true →
     let s' := toggleCodeLens s in
     isEnabled s' = false
     ∧ heldLive s' = false
     ∧ toggles (host s') = S (toggles (host s))
     ∧ importing (host s') = importing (host s))
  ∧ (canToggle s = true → isEnabled s = false →
     let s' := toggleCodeLens s in
     let s'' := handle ImportResolved s' in
     this s' = this s
     ∧ registered (host s') = registered (host s)
     ∧ toggles (host s') = toggles (host s)
     ∧ importing (host s') = S (importing (host s))
     ∧ _provider (this s'') = Some (next_provider (host s))
     ∧ registered (host s'')
       = {[next_provider (host s)]} ∪ registered (host s)
     ∧ toggles (host s'') = S (toggles (host s))
     ∧ importing (host s'') = importing (host s)).
Proof.
  intros Hr. pose proof (lens_reachable_inv s Hr) as Hinv. split_and!.
  - unfold canToggle, toggleCodeLens. by intros ->.
  - intros Hc Hen. rewrite (toggle_eq s Hc), Hen.
    destruct (disable_facts s) as (H1 & _ & H3 & H4 & _ & H6). done.
  - intros Hc Hen. rewrite (toggle_eq s Hc), Hen.
    destruct (ensure_off_facts s Hinv Hen) as (H1 & H2 & H3 & H4 & _ & H6).
    destruct (resolved_facts (ensureProvider s) _ H6)
      as (R1 & _ & _ & _ & R5 & _ & R7 & _ & R9).
    cbv zeta. rewrite R1, R5, R7, R9, H2, H3, H4. done.
Qed.

(** X16. An irrelevant configuration change does nothing.  A relevant one
    makes code lens toggleable exactly when one of its two kinds is on and
    publishes the negation of that as context key.  When it returns, code
    lens is enabled exactly if it was enabled before and the settings
    enable it: where the settings disable it, the toggle event has fired
    once; where they enable it and it was off, it is still off, no event
    has fired and one more import is awaited, and it is enabled once that
    import resolves. *)
Theorem codelens_config_applied relevant c s :
  let s' := onConfigurationChanged relevant c s in
  let can := recentChange_enabled c || authors_enabled c in
  let on := cfg_enabled c && can in
  (relevant = false → s' = s)
  ∧ (relevant = true →
     canToggle s' = can
     ∧ disabledToggle (host s') = Some (negb can)
     ∧ isEnabled s' = isEnabled s && on
     ∧ toggles (host s')
       = (if on then toggles (host s) else S (toggles (host s)))
     ∧ importing (host s')
       = (if on && negb (isEnabled s) then S (importing (host s))
          else importing (host s))
     ∧ (on && negb (isEnabled s) = true →
        isEnabled (handle ImportResolved s') = true)).
Proof.
  simpl. unfold onConfigurationChanged.
  split; [by intros -> |]. intros ->. change (negb true) with false.
  cbv iota zeta.
  set (s1 := {| this := _; host := host s |}).
  assert (isEnabled s1 = isEnabled s) as Hen by done.
  assert (toggles (host s1) = toggles (host s)) as Hto by done.
  assert (importing (host s1) = importing (host s)) as Him by done.
  assert (canToggle s1 = recentChange_enabled c || authors_enabled c) as Hca
    by done.
  assert (∀ s2 : Sys,
    let r := {| this := this s2;
                host := {| registered := registered (host s2);
                           next_provider := next_provider (host s2);
                           toggles := toggles (host s2);
                           disabledToggle := Some (negb (_canToggle (this s2)));
                           activations := activations (host s2);
                           importing := importing (host s2) |} |} in
    isEnabled r = isEnabled s2 ∧ canToggle r = canToggle s2
    ∧ disabledToggle (host r) = Some (negb (canToggle s2))
    ∧ toggles (host r) = toggles (host s2)
    ∧ importing (host r) = importing (host s2)) as Hrec by done.
  destruct (ensure_facts s1) as (He1 & He2 & He3 & He4).
  destruct (disable_facts s1) as (Hd1 & Hd2 & _ & Hd4 & _ & Hd6).
  clearbody s1.
  destruct (cfg_enabled c && (recentChange_enabled c || authors_enabled c))
    eqn:Eon.
  - destruct (Hrec (ensureProvider s1)) as (R1 & R2 & R3 & R4 & R5).
    rewrite R1, R2, R3, R4, R5, He1, He2, He3, He4, Hen, Hca, Hto, Him.
    rewrite andb_true_r. simpl.
    split_and!; try done.
    intros Hoff. rewrite Hoff. unfold isEnabled. simpl.
    by rewrite ?some_enabled.
  - destruct (Hrec (disableCodeLens s1)) as (R1 & R2 & R3 & R4 & R5).
    rewrite R1, R2, R3, R4, R5, Hd1, Hd2, Hd4, Hd6, Hca, Hto, Him.
    rewrite andb_false_r. simpl. split_and!; try done.
Qed.

Lemma unheld_step ev s id :
  held_inv s →
  id ∈ registered (host s) →
  _providerDisposable (this s) ≠ Some id →
  id ∈ registered (host (handle ev s))
  ∧ _providerDisposable (this (handle ev s)) ≠ Some id.
Proof.
  intros [Hf _] Hin Hne.
  assert (id ∈ registered (disposeProvider s)) as Hd
    by (by apply disposed_registered).
  assert (id ∈ registered (host (disableCodeLens s))
          ∧ _providerDisposable (this (disableCodeLens s)) ≠ Some id) as Hdis
    by done.
  assert (id ∈ registered (host (ensureProvider s))
          ∧ _providerDisposable (this (ensureProvider s)) ≠ Some id) as Hens.
  { unfold ensureProvider. by destruct (_provider (this s)). }
  assert (∀ relevant c,
    id ∈ registered (host (onConfigurationChanged relevant c s))
    ∧ _providerDisposable (this (onConfigurationChanged relevant c s))
      ≠ Some id) as Hcfg.
  { intros relevant c. unfold onConfigurationChanged.
    destruct relevant; simpl; [| done].
    set (s1 := {| this := _; host := host s |}).
    assert (disposeProvider s1 = disposeProvider s) as Hs1 by done.
    destruct (cfg_enabled c && _).
    - unfold ensureProvider. destruct (_provider (this s1)); simpl; [done |].
      by rewrite Hs1.
    - unfold disableCodeLens. simpl. by rewrite Hs1. }
  destruct ev as [relevant c | relevant c | | | blameable | id']; simpl;
    try apply Hcfg.
  - unfold toggleCodeLens.
    destruct (_canToggle (this s)); simpl; [| done].
    by destruct (_provider (this s)).
  - destruct (importing (host s)) as [| waiting]; [done |]. simpl. split.
    + by apply elem_of_union_r.
    + intros Heq. injection Heq as <-. apply Hf in Hin. lia.
  - pose proof (blame_iter (size (registered (host s))) blameable s)
      as (H1 & H2 & _).
    by rewrite H1, H2.
  - destruct (bool_decide _); [| done].
    pose proof (track_lens s) as (H1 & H2 & _). by rewrite H1, H2.
Qed.

(** X20. A live registration that the controller does not hold stays
    live: no run of events ends it or brings it back into
    [_providerDisposable], and disposing of the controller leaves it
    live. *)
Theorem unheld_registration_stays s id evs :
  reachable s →
  id ∈ registered (host s) →
  _providerDisposable (this s) ≠ Some id →
  id ∈ registered (host (run evs s))
  ∧ _providerDisposable (this (run evs s)) ≠ Some id
  ∧ id ∈ registered (host (dispose (run evs s))).
Proof.
  intros Hr Hin Hne.
  assert (id ∈ registered (host (run evs s))
          ∧ _providerDisposable (this (run evs s)) ≠ Some id) as [H1 H2].
  { revert s Hr Hin Hne. induction evs as [| ev evs IH]; intros s Hr Hin Hne;
      [done |].
    simpl. destruct (unheld_step ev s id (lens_reachable_inv s Hr) Hin Hne).
    apply IH; [by apply reach_step | done | done]. }
  split_and!; [done | done |]. simpl. by apply disposed_registered.
Qed.

Lemma settle_zero s : importing (host s) = 0 → settle s = s.
Proof. unfold settle. by intros ->. Qed.

Lemma settle_one s :
  importing (host s) = 1 → settle s = handle ImportResolved s.
Proof. unfold settle. by intros ->. Qed.

Lemma settled_inv_same s s' :
  this s' = this s →
  registered (host s') = registered (host s) →
  importing (host s') = importing (host s) →
  settled_inv s → settled_inv s'.
Proof. unfold settled_inv. by intros -> -> ->. Qed.

Lemma settled_after_disable s r :
  importing (host s) = 0 →
  (∀ id, id ∈ registered (host s) → _providerDisposable (this s) = Some id) →
  this r = this (disableCodeLens s) →
  registered (host r) = registered (host (disableCodeLens s)) →
  importing (host r) = importing (host (disableCodeLens s)) →
  settled_inv (settle r).
Proof.
  intros Hi Hh Ht Hr Him.
  pose proof (disposed_fields s) as (_ & _ & _ & _ & Hi').
  assert (importing (host r) = 0) as Hi0
    by (rewrite Him; simpl; by rewrite Hi', Hi).
  rewrite settle_zero by done.
  unfold settled_inv. rewrite Ht, Hr. simpl. split; [done |].
  apply set_eq. intros id. rewrite disposed_registered.
  split; [| intros Hin; by apply elem_of_empty in Hin].
  intros [Hin Hne]. by apply Hh in Hin.
Qed.

Lemma settled_after_ensure s r :
  settled_inv s → _canToggle (this s) = true →
  this r = this (ensureProvider s) →
  registered (host r) = registered (host (ensureProvider s)) →
  importing (host r) = importing (host (ensureProvider s)) →
  settled_inv (settle r).
Proof.
  intros Hinv Hc Ht Hr Him. pose proof Hinv as [Hi Hp].
  unfold ensureProvider in Ht, Hr, Him.
  destruct (_provider (this s)) as [held |] eqn:E.
  - rewrite settle_zero by congruence.
    by apply (settled_inv_same s).
  - pose proof (disposed_fields s) as (_ & _ & _ & _ & Hi').
    simpl in Ht, Hr, Him. rewrite Hi', Hi in Him.
    rewrite settle_one by done.
    simpl. rewrite Him. unfold settled_inv. simpl.
    rewrite Ht, Hr. split_and!; try done.
    assert (registered (disposeProvider s) = ∅) as ->.
    { apply set_eq. intros id. rewrite disposed_registered, Hp.
      split; [by intros [Hin _] | intros Hin; by apply elem_of_empty in Hin]. }
    apply (right_id_L ∅ (∪)).
Qed.

Lemma settled_held s :
  settled_inv s →
  ∀ id, id ∈ registered (host s) → _providerDisposable (this s) = Some id.
Proof.
  intros [_ Hp] id Hin. destruct (_provider (this s)) as [held |].
  - destruct Hp as (Hh & Hreg & _). rewrite Hreg in Hin.
    by apply elem_of_singleton in Hin as ->.
  - rewrite Hp in Hin. by apply elem_of_empty in Hin.
Qed.

Lemma settled_handle ev s : settled_inv s → settled_inv (settle (handle ev s)).
Proof.
  intros Hinv. pose proof Hinv as [Hi Hp].
  pose proof (settled_held s Hinv) as Hh.
  assert (∀ relevant c,
    settled_inv (settle (onConfigurationChanged relevant c s))) as Hcfg.
  { intros relevant c. unfold onConfigurationChanged.
    destruct relevant; simpl; [| by rewrite settle_zero].
    set (s1 := {| this := _; host := host s |}).
    destruct (cfg_enabled c && (recentChange_enabled c || authors_enabled c))
      eqn:Eon.
    - apply andb_true_iff in Eon as [_ Ecan].
      apply (settled_after_ensure s1); try done.
      unfold settled_inv. simpl. split; [done |].
      destruct (_provider (this s)); [| done].
      by destruct Hp as (? & ? & _).
    - by apply (settled_after_disable s1). }
  destruct ev as [relevant c | relevant c | | | blameable | id]; simpl;
    try apply Hcfg.
  - unfold toggleCodeLens.
    destruct (_canToggle (this s)) eqn:Ec; simpl; [| by rewrite settle_zero].
    destruct (_provider (this s)) eqn:E.
    + by apply (settled_after_disable s).
    + by apply (settled_after_ensure s).
  - rewrite Hi. by rewrite settle_zero.
  - pose proof (blame_iter (size (registered (host s))) blameable s)
      as (H1 & H2 & _ & _ & _ & H6).
    cbv zeta in *. rewrite settle_zero by congruence.
    by apply (settled_inv_same s).
  - destruct (bool_decide _); [| by rewrite settle_zero].
    pose proof (track_lens s) as (H1 & H2 & _ & _ & _ & H6).
    rewrite settle_zero by congruence.
    by apply (settled_inv_same s).
Qed.

Lemma reachable_iter n s :
  reachable s → reachable (Nat.iter n (handle ImportResolved) s).
Proof.
  intros Hr. induction n as [| n IH]; [done |].
  change (Nat.iter (S n) (handle ImportResolved) s)
    with (handle ImportResolved (Nat.iter n (handle ImportResolved) s)).
  by apply reach_step.
Qed.

(** X21. Where every import resolves before the next event is handled,
    nothing is left waiting, at most one registration is live, it is live
    exactly when code lens is enabled, and code lens is enabled only where
    it can be toggled. *)
Theorem settled_single_provider s :
  reachable_settled s →
  reachable s
  ∧ importing (host s) = 0
  ∧ size (registered (host s)) ≤ 1
  ∧ (isEnabled s = true ↔ registered (host s) ≠ ∅)
  ∧ (isEnabled s = true → canToggle s = true).
Proof.
  intros Hs.
  assert (reachable s ∧ settled_inv s) as [Hr [Hi Hp]].
  { induction Hs as [tracked | s ev _ [IHr IHi]].
    - split; [apply reach_new | done].
    - split; [| by apply settled_handle].
      apply reachable_iter. by apply reach_step. }
  split; [done |]. split; [done |].
  unfold isEnabled, canToggle.
  destruct (_provider (this s)) as [id |].
  - destruct Hp as (_ & Hreg & Hc). rewrite Hreg, size_singleton, some_enabled.
    split; [lia |]. split; [| done]. split; [| done].
    intros _ He.
    assert (id ∈ (∅ : gset nat)) as Hin
      by (rewrite <- He; by apply elem_of_singleton).
    by apply elem_of_empty in Hin.
  - rewrite Hp, size_empty, none_not_enabled.
    split; [lia |]. split; [| done]. split; [done |].
    intros Hne. by destruct Hne.
Qed.

End CodeLensProofs.

(** * The Home webview's repository-host flag and usage checks *)

Section HomeMore.
Context `{Home.HostingIntegrationId}.
Import Home.

Ltac run_home :=
  unfold handle, includeBootstrap, getState, onUsagesChanged, onReloaded,
    onChangeActiveTextEditor, onChangeConnectionState,
    notifyDidChangeOnboardingIntegration, notifyDidChangeOnboardingState,
    notifyDidChangeEditor, notifyDidToggleCodeLens, getOnboardingState,
    isHostedIntegrationConnected, isAnyIntegrationConnected,
    isEditorPreviewEnabled, canCodeLensBeEnabled, ret, mbind, mret,
    M_bind, M_ret; simpl.

Lemma handle_agree e ev p :
  ∀ n x y, n ∈ fst (handle e ev p) → HomeUsage.repoHostOf n = Some (x, y) →
           x = y.
Proof.
  destruct p as [ed hic ahic].
  destruct ev as [| | | key | key | [key |] | tracked | | |]; run_home;
    repeat match goal with
      | |- context [if ?b then _ else _] => destruct b; simpl
      | |- context [match ?o with Some _ => _ | None => _ end] =>
          destruct o; simpl
      end;
    intros n x y Hin Hn;
    repeat (apply elem_of_cons in Hin as [-> | Hin];
            [simpl in Hn; congruence |]);
    by apply elem_of_nil in Hin.
Qed.

(** X17. In everything the provider sends over a run of events, the
    onboarding entry for the repository host and the repository-host
    connected flag agree: both are read from the one cache within the same
    call. *)
Theorem repo_host_flags_agree evs p :
  ∀ n x y, n ∈ fst (run evs p) → HomeUsage.repoHostOf n = Some (x, y) →
           x = y.
Proof.
  revert p. induction evs as [| [e ev] evs IH]; intros p n x y; simpl.
  - intros Hin. by apply elem_of_nil in Hin.
  - unfold mbind, M_bind. pose proof (handle_agree e ev p) as Hh.
    destruct (handle e ev p) as [ns p1]. specialize (IH p1).
    destruct (run evs p1) as [ns' p2]. simpl in *.
    intros Hin Hn. apply elem_of_app in Hin as [Hin | Hin]; eauto.
Qed.

(** X18. A connection-state change recomputes the repository-host flag
    from the hosting integrations connected at that moment and caches it.
    The webview is notified once, and a second time with the same message
    when the integration is a supported one, since two listeners are
    subscribed.  The any-integration cache is not touched, and a later
    bootstrap, whatever is connected by then, reports the recomputed
    repository-host flag. *)
Theorem connection_change_refreshes_repo_host e key p e2 :
  let current := existsb isSupportedIntegration (connectedHosting e) in
  let note := DidChangeOnboardingIntegration current current in
  let '(ns, p1) := handle e (ConnectionStateChanged key) p in
  ns = (if isSupportedIntegration key then [note; note] else [note])
  ∧ hostedIntegrationConnected p1 = Some current
  ∧ _hostedIntegrationConnected p1 = _hostedIntegrationConnected p
  ∧ activeTrackedTextEditor p1 = activeTrackedTextEditor p
  ∧ repoHostConnected (fst (includeBootstrap e2 p1)) = current
  ∧ repoHostChecked (fst (includeBootstrap e2 p1)) = current.
Proof.
  destruct p as [ed hic ahic]. run_home.
  destruct (isSupportedIntegration key); simpl;
    destruct hic, ahic; simpl; done.
Qed.

Import HomeUsage.

(** X19. [checkIfSomeUsed] answers true exactly when one of the keys has
    a tracked usage with a first-use time; so listing a key twice, as the
    inspect entry does, or in another order, changes nothing. *)
Theorem checkIfSomeUsed_exists usage keys :
  (checkIfSomeUsed usage keys = true
   ↔ ∃ key u, key ∈ keys ∧ usage !! key = Some u ∧ firstUsedAt u ≠ 0%Z)
  ∧ (∀ keys', (∀ key, key ∈ keys ↔ key ∈ keys') →
              checkIfSomeUsed usage keys' = checkIfSomeUsed usage keys).
Proof.
  assert (∀ ks, checkIfSomeUsed usage ks = true
                ↔ ∃ key u, key ∈ ks ∧ usage !! key = Some u
                           ∧ firstUsedAt u ≠ 0%Z) as Hiff.
  { induction ks as [| k ks IH]; simpl.
    - split; [done |]. intros (key & u & Hin & _). by apply elem_of_nil in Hin.
    - destruct (usage !! k) as [u |] eqn:Ek.
      + destruct (Z.eqb_spec (firstUsedAt u) 0) as [Hz | Hnz]; simpl.
        * rewrite IH. split.
          -- intros (key & u' & Hin & Hu & Hn). exists key, u'.
             split; [by right | done].
          -- intros (key & u' & Hin & Hu & Hn).
             apply elem_of_cons in Hin as [-> | Hin]; [congruence |].
             by exists key, u'.
        * split; [| done]. intros _. exists k, u. split; [by left | done].
      + rewrite IH. split.
        * intros (key & u' & Hin & Hu & Hn). exists key, u'.
          split; [by right | done].
        * intros (key & u' & Hin & Hu & Hn).
          apply elem_of_cons in Hin as [-> | Hin]; [congruence |].
          by exists key, u'. }
  split; [apply Hiff |].
  intros keys' Hsame.
  destruct (checkIfSomeUsed usage keys) eqn:E.
  - apply Hiff. apply Hiff in E as (key & u & Hin & Hu & Hn).
    exists key, u. split; [by apply Hsame | done].
  - apply not_true_iff_false. intros E'. apply not_true_iff_false in E.
    apply E. apply Hiff. apply Hiff in E' as (key & u & Hin & Hu & Hn).
    exists key, u. split; [by apply Hsame | done].
Qed.

End HomeMore.

(** * The theorems at concrete inputs *)

#[local] Existing Instance Sample.helpers.
#[local] Existing Instance Sample.hostingIds.

(** [refocus_rearm_delay] one minute interval, updated at 1000 ms, paused at
    2000 ms, refocused at 5000 ms: 60000 - 4000 - 3000 = 53000 ms. *)
Lemma refocus_rearm_delay_witness :
  let e := Sample.env true 1 true 5000 in
  let s := Sample.pausedSys in
  (_state (this s) = load
   ∧ _lastRefreshPaused (this s) = Some 2000%Z
   ∧ _lastDataUpdate (this s) = Some 1000%Z)
  ∧ _lastRefreshPaused (this (onWindowStateChanged e true s)) = None
  ∧ timers (host (onWindowStateChanged e true s))
    = {[1 := OneShot 53000 60000]}.
Proof.
  intros e s.
  assert (_state (this s) = load) as Hst by reflexivity.
  assert (_lastRefreshPaused (this s) = Some 2000%Z) as Hp by reflexivity.
  assert (_lastDataUpdate (this s) = Some 1000%Z) as Hu by reflexivity.
  destruct (refocus_rearm_delay e s 2000 1000 Hst Hp Hu) as (_ & Hclr & Harm).
  split; [done |]. split; [exact Hclr |].
  destruct Harm as [Ht _];
    [apply timer_inv_empty; reflexivity | reflexivity | reflexivity |].
  exact Ht.
Defined.

(** The two worked examples: an interval of 60000 ms, the data updated
    50000 ms ago and the window unfocused for 20000 ms give an immediate
    refresh; updated 10000 ms ago and unfocused for 5000 ms give 45000 ms. *)
Example rearm_immediately :
  let s := upd_this (with_lastRefreshPaused (Some 30000%Z))
             (upd_this (with_lastDataUpdate (Some 0%Z)) Sample.pausedSys) in
  timers (host (onWindowStateChanged (Sample.env true 1 true 50000) true s))
  = {[1 := OneShot 0 60000]}.
Proof. vm_compute. reflexivity. Qed.

Example rearm_after_45_seconds :
  let s := upd_this (with_lastRefreshPaused (Some 5000%Z))
             (upd_this (with_lastDataUpdate (Some 0%Z)) Sample.pausedSys) in
  timers (host (onWindowStateChanged (Sample.env true 1 true 10000) true s))
  = {[1 := OneShot 45000 60000]}.
Proof. vm_compute. reflexivity. Qed.

(** [refocus_never_updated] on a state set up by hand, with the same
    times and no update recorded: 60000 - 3000 = 57000 ms. *)
Lemma refocus_never_updated_witness :
  let e := Sample.env true 1 true 5000 in
  let s := Sample.neverUpdatedSys in
  (_state (this s) = load
   ∧ _lastRefreshPaused (this s) = Some 2000%Z
   ∧ _lastDataUpdate (this s) = None)
  ∧ timers (host (onWindowStateChanged e true s))
    = {[1 := OneShot 57000 60000]}.
Proof.
  intros e s.
  assert (_state (this s) = load) as Hst by reflexivity.
  assert (_lastRefreshPaused (this s) = Some 2000%Z) as Hp by reflexivity.
  assert (_lastDataUpdate (this s) = None) as Hu by reflexivity.
  destruct (refocus_never_updated e s 2000 Hst Hp Hu) as (_ & _ & Harm).
  split; [done |].
  destruct Harm as [_ Ht];
    [apply timer_inv_empty; reflexivity | reflexivity | reflexivity |].
  exact Ht.
Defined.

(** [startRefreshTimer_contract] on the freshly constructed indicator, once
    with polling disabled and once with a two-minute interval. *)
Lemma startRefreshTimer_contract_witness :
  let s := Sample.loadingSys in
  reachable s
  ∧ timers (host (startRefreshTimer (Sample.env false 2 true 1000) None s)) = ∅
  ∧ timers (host (startRefreshTimer (Sample.env true 2 true 1000) None s))
    = {[1 := Repeating 120000]}.
Proof.
  intros s.
  assert (reachable s) as Hr by exact (reach_new _ _).
  split; [exact Hr |]. split.
  - destruct (startRefreshTimer_contract
                (Sample.env false 2 true 1000) None s Hr) as [Hblocked _].
    destruct Hblocked as (Ht & _); [left; reflexivity | exact Ht].
  - destruct (startRefreshTimer_contract
                (Sample.env true 2 true 1000) None s Hr) as [_ Harmed].
    destruct Harmed as (_ & Ht & _);
      [reflexivity | reflexivity | discriminate | exact Ht].
Defined.

(** C3 as stated fails: with polling disabled the call is not a no-op; it
    cancels the one-shot timer that was pending. *)
Lemma start_blocked_not_noop :
  let s := Sample.loadingSys in
  let e := Sample.env false 1 true 1000 in
  polling_enabled (cfg e) = false
  ∧ timers (host s) = {[0 := OneShot 5000 60000]}
  ∧ timers (host (startRefreshTimer e None s)) = ∅
  ∧ log (host (startRefreshTimer e None s))
    = (log (host s) ++ [ClearInterval 0])%list
  ∧ startRefreshTimer e None s ≠ s.
Proof.
  intros s e. split_and!; try (vm_compute; reflexivity).
  intros Heq. apply (f_equal (λ x, timers (host x) !! 0)) in Heq.
  vm_compute in Heq. discriminate Heq.
Qed.

(** [at_most_one_timer] on the freshly constructed indicator and two starts
    in a row. *)
Lemma at_most_one_timer_witness :
  let s := Sample.loadingSys in
  reachable s
  ∧ size (timers (host s)) ≤ 1
  ∧ size (timers (host
       (startRefreshTimer (Sample.env true 3 true 20) None
          (startRefreshTimer (Sample.env true 2 true 10) (Some 7%Z) s)))) ≤ 1.
Proof.
  intros s.
  assert (reachable s) as Hr by exact (reach_new _ _).
  destruct (at_most_one_timer s Hr) as (Hone & Hstart & _).
  split; [exact Hr |]. split; [exact Hone |].
  destruct (Hstart (Sample.env true 2 true 10) (Some 7%Z))
    as (_ & _ & Htwice & _).
  exact (Htwice (Sample.env true 3 true 20) None).
Defined.

(** [transition_effects] for the first refresh after construction: into
    ['load'] with the scheduler as it was. *)
Lemma transition_effects_witness :
  let s := Sample.loadingSys in
  let s' := updateStatusBar (Sample.env true 1 true 1000) load (Some []) s in
  reachable s ∧ ¬ skipped load s
  ∧ _state (this s') = load ∧ same_sched s s'.
Proof.
  intros s s'.
  assert (reachable s) as Hr by exact (reach_new _ _).
  assert (¬ skipped load s) as Hns.
  { intros [Hn | [_ Hl]]; [discriminate Hn | apply Hl; reflexivity]. }
  destruct (transition_effects (Sample.env true 1 true 1000) load (Some []) s
              Hr Hns) as (Hst & _ & Hsched).
  split; [exact Hr |]. split; [exact Hns |]. split; [exact Hst | exact Hsched].
Defined.

(** C2 as stated fails: the transition from ['disconnected'] into ['load']
    arms nothing; afterwards no timer is pending, the handle is unset and
    no timer call was logged. *)
Lemma load_transition_arms_nothing :
  let s := Sample.disconnectedSys in
  let s' := updateStatusBar (Sample.env true 1 false 1000) load (Some []) s in
  _state (this s) = disconnected
  ∧ _state (this s') = load
  ∧ timers (host s') = ∅
  ∧ _refreshTimer (this s') = None
  ∧ ∀ id d,
      (SetTimeout id d ∉ log (host s')) ∧ (SetInterval id d ∉ log (host s')).
Proof.
  intros s s'. split_and!; try (vm_compute; reflexivity).
  intros id d.
  assert (∃ r1 r2, log (host s') = [r1; StoreHasLoaded; SendFirstLoad; r2]
                   ∧ (∃ a b c, r1 = Render a b c) ∧ (∃ a b c, r2 = Render a b c))
    as (r1 & r2 & -> & (a1 & b1 & c1 & ->) & (a2 & b2 & c2 & ->)).
  { vm_compute. eexists _, _. split; [reflexivity |].
    split; by eexists _, _, _. }
  split; intros Hin;
    repeat (apply elem_of_cons in Hin as [Hin | Hin]; [discriminate Hin |]);
    by apply elem_of_nil in Hin.
Qed.

(** C5 fails on the code.  Constructed with polling enabled and an
    interval of 0 minutes the indicator is ['idle']; when the interval
    setting then changes to 5 minutes, the configuration handler starts
    the scheduler without recomputing the state: the indicator is still
    ['idle'], holds a timer handle and has a repeating timer pending. *)
Lemma idle_keeps_timer_after_interval_change :
  let changed := Sample.affects ["launchpad.indicator.polling.interval"%string] in
  let s := handle (Sample.env true 5 true 1000) (ConfigurationChanged changed)
             Sample.idleSys in
  reachable s
  ∧ _state (this Sample.idleSys) = idle
  ∧ _state (this s) = idle
  ∧ _refreshTimer (this s) = Some 0
  ∧ timers (host s) = {[0 := Repeating 300000]}.
Proof.
  intros changed s. split_and!; try (vm_compute; reflexivity).
  apply reach_step. exact (reach_new _ _).
Qed.

(** [maybeLoadData_state] for the three outcomes. *)
Lemma maybeLoadData_state_witness :
  let s := Sample.loadingSys in
  is_Some (_statusBarFocus (this s))
  ∧ _state (this (maybeLoadData (Sample.env true 1 false 10) s)) = disconnected
  ∧ _state (this (maybeLoadData (Sample.env false 1 true 10) s)) = idle
  ∧ _state (this (newFocusIndicator (Sample.env true 1 true 0)
                    (freshHost None))) = loading.
Proof.
  intros s.
  assert (is_Some (_statusBarFocus (this s))) as Hsb
    by (eexists; reflexivity).
  split; [exact Hsb |]. split_and!.
  - exact (proj1 (maybeLoadData_state (Sample.env true 1 false 10) s Hsb)).
  - exact (proj1 (maybeLoadData_state (Sample.env false 1 true 10) s Hsb)).
  - exact (proj2 (maybeLoadData_state (Sample.env true 1 true 0) s Hsb)
             (freshHost None) eq_refl).
Defined.

(** C6 as stated fails: with polling enabled, an integration connected and
    an interval of 0 minutes the recomputed state is ['idle'], on startup
    and on a later recomputation alike, not ['loading']. *)
Lemma zero_interval_gives_idle :
  let e := Sample.env true 0 true 10 in
  polling_enabled (cfg e) = true
  ∧ connected e = true
  ∧ is_Some (_statusBarFocus (this Sample.loadingSys))
  ∧ _state (this (maybeLoadData e Sample.loadingSys)) = idle
  ∧ _state (this (newFocusIndicator e (freshHost None))) = idle.
Proof.
  intros e. split_and!; try (vm_compute; reflexivity).
  eexists. reflexivity.
Qed.

(** [load_tooltip_counts] with no items, and with two items of a group that
    is not configured. *)
Lemma load_tooltip_counts_witness :
  let s := Sample.loadingSys in
  let e := Sample.env true 1 true 1000 in
  let others := Some [Sample.pr "a" "c" "4" "other";
                      Sample.pr "a" "c" "5" "other"]%string in
  is_Some (_statusBarFocus (this s))
  ∧ shown (updateStatusBar e load (Some []) s)
    = Some ("$(rocket)", tooltipHeader +:+ allCaughtUp, None)%string
  ∧ shown (updateStatusBar e load others s)
    = Some ("$(rocket)", tooltipHeader +:+ noAttention 2, None)%string.
Proof.
  intros s e others.
  assert (is_Some (_statusBarFocus (this s))) as Hsb
    by (eexists; reflexivity).
  assert (∀ g its, g ∈ default [] (groups (cfg e)) →
                   groupAndSortFocusItems others !! g = Some its → its = [])
    as Hothers.
  { intros g its Hg Hm.
    apply elem_of_cons in Hg as [-> | Hg];
      [vm_compute in Hm; discriminate Hm |].
    apply elem_of_cons in Hg as [-> | Hg];
      [vm_compute in Hm; discriminate Hm |].
    apply elem_of_nil in Hg. destruct Hg. }
  assert (totalGroupedItems (groupAndSortFocusItems (Some [])) = 0) as Hnone
    by (vm_compute; reflexivity).
  assert (totalGroupedItems (groupAndSortFocusItems others) = 2) as Htwo
    by (vm_compute; reflexivity).
  split; [exact Hsb |]. split.
  - destruct (load_tooltip_counts e (Some []) s Hsb) as (Hzero & _).
    exact (Hzero Hnone).
  - destruct (load_tooltip_counts e others s Hsb) as (_ & Hsome & _).
    rewrite Htwo in Hsome.
    exact (Hsome (Nat.lt_0_succ 1) Hothers).
Defined.

Example no_attention_text :
  noAttention 2
  = ("No pull requests need your attention\" +:+ lf
     +:+ "(2 other pull requests)")%string.
Proof. reflexivity. Qed.

(** [load_render_effects]: the same payload from two different component
    states, clocks and connection states. *)
Lemma load_render_effects_witness :
  let s := Sample.loadingSys in
  let e := Sample.env true 1 true 1000 in
  let s' := updateStatusBarWithItems e tooltipHeader (Some []) s in
  is_Some (_statusBarFocus (this s))
  ∧ _lastDataUpdate (this s') = Some 1000%Z
  ∧ same_sched s s'
  ∧ shown (updateStatusBarWithItems (Sample.env true 1 false 7) tooltipHeader
             (Some []) Sample.pausedSys) = shown s'.
Proof.
  intros s e s'.
  assert (is_Some (_statusBarFocus (this s))) as Hsb
    by (eexists; reflexivity).
  destruct (load_render_effects e tooltipHeader (Some []) s Hsb)
    as (_ & Hldu & _ & _ & Hsched & _ & _ & Hsame).
  split; [exact Hsb |]. split; [exact Hldu |]. split; [exact Hsched |].
  apply Hsame; [eexists; reflexivity | reflexivity].
Defined.

(** C9 as stated fails: rendering the ['load'] state changes more than
    the status bar; here it sets the last data update, stores the
    has-loaded flag and sends the first-load event. *)
Lemma load_render_has_effects :
  let s := Sample.loadingSys in
  let s' := updateStatusBarWithItems (Sample.env true 1 true 1000)
              tooltipHeader (Some []) s in
  _lastDataUpdate (this s) = None
  ∧ _lastDataUpdate (this s') = Some 1000%Z
  ∧ hasLoaded (host s) = None
  ∧ hasLoaded (host s') = Some true
  ∧ SendFirstLoad ∈ log (host s')
  ∧ with_statusBarFocus (_statusBarFocus (this s)) (this s') ≠ this s.
Proof.
  intros s s'. split_and!; try (vm_compute; reflexivity).
  - assert (∃ l1 l2, log (host s') = (l1 ++ SendFirstLoad :: l2)%list)
      as (l1 & l2 & ->).
    { vm_compute. by eexists [_; _; _], [_]. }
    apply elem_of_app. right. apply elem_of_cons. by left.
  - intros Heq. apply (f_equal _lastDataUpdate) in Heq.
    vm_compute in Heq. discriminate Heq.
Qed.

(** Two bootstrap requests with a disconnect in between: the second still
    reports the flag computed by the first. *)
Example stale_flag_after_disconnect :
  let connectedEnv := Sample.homeEnv ["github"%string] [] in
  let nothingEnv := Sample.homeEnv [] [] in
  fst (Home.run [(connectedEnv, Home.BootstrapRequested);
                 (nothingEnv, Home.ConnectionStateChanged "github");
                 (nothingEnv, Home.BootstrapRequested)]
         (Home.newProvider None))
  = [Home.Bootstrap
       {| Home.repoHostChecked := true; Home.editorPreviewEnabled := false;
          Home.canEnableCodeLens := true; Home.repoHostConnected := true;
          Home.hasAnyIntegrationConnected := true |};
     Home.DidChangeOnboardingIntegration false false;
     Home.DidChangeOnboardingIntegration false false;
     Home.Bootstrap
       {| Home.repoHostChecked := false; Home.editorPreviewEnabled := false;
          Home.canEnableCodeLens := true; Home.repoHostConnected := false;
          Home.hasAnyIntegrationConnected := true |}].
Proof. vm_compute. reflexivity. Qed.

(** The renderer on a mixed list: two conflicting pull requests, one to
    follow up and two to review, with item labels and group icons. *)
Example render_mixed_groups :
  let c := {| indicator_enabled := true; openInEditor := false;
              polling_enabled := true; polling_interval := 1;
              useColors := true;
              groups := Some ["blocked"; "follow-up"; "needs-review"]%string;
              label := Some "item"%string; icon := Some "group"%string |} in
  let p := renderItems c ""
             (Some [Sample.pr "o" "r" "7" "conflicts";
                    Sample.pr "o" "r" "8" "conflicts";
                    Sample.pr "o" "r" "9" "follow-up";
                    Sample.pr "o" "r" "10" "needs-my-review";
                    Sample.pr "o" "r" "11" "needs-my-review"]%string) in
  p_text p = "$(error) o/r#7 has conflicts"%string
  ∧ p_color p = Some "#FF0000"%string.
Proof. vm_compute. split; reflexivity. Qed.

(** * The further theorems at concrete inputs *)

(** [one_shot_then_repeating] on the loaded indicator with a two-minute
    interval and a first delay of 7 ms. *)
Lemma one_shot_then_repeating_witness :
  let s := Sample.loadedSys in
  let e := Sample.env true 2 true 3000 in
  reachable s
  ∧ timers (host (fireTimer 1 (startRefreshTimer e (Some 7%Z) s)))
    = {[2 := Repeating 120000]}.
Proof.
  intros s e.
  assert (reachable s) as Hr by (apply reach_step; exact (reach_new _ _)).
  split; [exact Hr |].
  assert (_state (this s) ≠ disconnected) as Hs
    by (vm_compute; discriminate).
  destruct (one_shot_then_repeating e 7 s Hr eq_refl eq_refl Hs) as (Ht & _).
  vm_compute in Ht. vm_compute. exact Ht.
Defined.


(** The scheduler's start does not ask whether the window is focused: a
    change of the interval setting to 2 minutes that arrives while the
    window is unfocused arms a repeating timer. *)
Example unfocused_interval_change_rearms :
  let changed := Sample.affects ["launchpad.indicator.polling.interval"%string] in
  let s := handle (Sample.env true 2 true 3000) (ConfigurationChanged changed)
             Sample.pausedSys in
  timers (host Sample.pausedSys) = ∅
  ∧ _lastRefreshPaused (this s) = Some 2000%Z
  ∧ timers (host s) = {[1 := Repeating 120000]}.
Proof. intros changed s. split_and!; vm_compute; reflexivity. Qed.

(** [refocus_loading_keeps_pause]: the freshly constructed indicator loses
    focus at 300 ms and regains it at 900 ms. *)
Lemma refocus_loading_keeps_pause_witness :
  let s := onWindowStateChanged (Sample.env true 1 true 300) false
             Sample.loadingSys in
  let e := Sample.env true 1 true 900 in
  _state (this s) = loading
  ∧ _lastRefreshPaused (this s) = Some 300%Z
  ∧ _lastRefreshPaused (this (onWindowStateChanged e true s)) = Some 300%Z.
Proof.
  intros s e.
  assert (_state (this s) = loading) as Hst by (vm_compute; reflexivity).
  assert (_lastRefreshPaused (this s) = Some 300%Z) as Hp
    by (vm_compute; reflexivity).
  destruct (refocus_loading_keeps_pause e s 300 Hst Hp) as (_ & Hkeep & _).
  split; [exact Hst |]. split; [exact Hp | exact Hkeep].
Defined.

(** [dispose_releases] on the freshly constructed indicator. *)
Lemma dispose_releases_witness :
  let s := Sample.loadingSys in
  reachable s
  ∧ timers (host s) = {[0 := OneShot 5000 60000]}
  ∧ timers (host (dispose s)) = ∅
  ∧ _statusBarFocus (this (dispose s)) = None.
Proof.
  intros s.
  assert (reachable s) as Hr by exact (reach_new _ _).
  destruct (dispose_releases s Hr) as (Ht & _ & Hsb & _).
  split; [exact Hr |]. split; [vm_compute; reflexivity |].
  split; [exact Ht | exact Hsb].
Defined.

(** [configuration_change_state] on the loaded indicator: a change of the
    colours setting drops it back to ['loading'], a change of the interval
    alone leaves it in ['load']. *)
Lemma configuration_change_state_witness :
  let s := Sample.loadedSys in
  let e := Sample.env true 1 true 4000 in
  is_Some (_statusBarFocus (this s))
  ∧ _state (this (onConfigurationChanged e
       (Sample.affects ["launchpad.indicator.useColors"%string]) s)) = loading
  ∧ _state (this (onConfigurationChanged e
       (Sample.affects ["launchpad.indicator.polling.interval"%string]) s))
    = load.
Proof.
  intros s e.
  assert (is_Some (_statusBarFocus (this s))) as Hsb
    by (vm_compute; eexists; reflexivity).
  split; [exact Hsb |]. split.
  - pose proof (configuration_change_state e
      (Sample.affects ["launchpad.indicator.useColors"%string]) s Hsb) as Hc.
    vm_compute in Hc. vm_compute. exact Hc.
  - pose proof (configuration_change_state e
      (Sample.affects ["launchpad.indicator.polling.interval"%string]) s Hsb)
      as Hc.
    vm_compute in Hc. vm_compute. exact Hc.
Defined.

(** [disabled_indicator_inert]: switched off, then the interval changes
    and the timer that this arms comes due. *)
Lemma disabled_indicator_inert_witness :
  let evs :=
    [(Sample.env true 5 true 10,
      ConfigurationChanged
        (Sample.affects ["launchpad.indicator.polling.interval"%string]));
     (Sample.env true 5 true 300010, TimerFired 0)] in
  let s := run evs (newFocusIndicator SampleMore.disabledEnv (freshHost None)) in
  indicator_enabled (cfg SampleMore.disabledEnv) = false
  ∧ Observe.inert s
  ∧ hasLoaded (host s) = None
  ∧ log (host s) = [SetInterval 0 300000; GetCategorizedItems].
Proof.
  intros evs s.
  destruct (disabled_indicator_inert SampleMore.disabledEnv (freshHost None)
              evs eq_refl) as (Hi & Hh & _).
  split; [reflexivity |]. split; [exact Hi |]. split; [exact Hh |].
  vm_compute. reflexivity.
Defined.

(** [tooltip_keeps_header] for the first refresh after construction. *)
Lemma tooltip_keeps_header_witness :
  let s := Sample.loadingSys in
  ¬ skipped load s
  ∧ ∃ text rest color,
      shown (updateStatusBar (Sample.env true 1 true 1000) load (Some []) s)
      = Some (text, tooltipHeader +:+ rest, color)%string.
Proof.
  intros s.
  assert (¬ skipped load s) as Hns.
  { intros [Hn | [_ Hl]]; [discriminate Hn | apply Hl; reflexivity]. }
  split; [exact Hns |].
  exact (proj1 (tooltip_keeps_header (Sample.env true 1 true 1000) load
                  (Some []) s Hns)).
Defined.

(** [mergeable_colour_wins] with 'blocked' configured before 'mergeable':
    the text names the blocked pull request, the colour is green. *)
Lemma mergeable_colour_wins_witness :
  let c := {| indicator_enabled := true; openInEditor := false;
              polling_enabled := true; polling_interval := 1;
              useColors := true;
              groups := Some ["blocked"; "mergeable"]%string;
              label := None; icon := None |} in
  let items := Some [Sample.pr "o" "r" "1" "mergeable";
                     Sample.pr "o" "r" "2" "conflicts"]%string in
  useColors c = true
  ∧ "mergeable"%string ∈ default [] (groups c)
  ∧ groupAndSortFocusItems items !! "mergeable"%string
    = Some [Sample.pr "o" "r" "1" "mergeable"]%string
  ∧ p_color (renderItems c "" items) = Some "#00FF00"%string
  ∧ p_text (renderItems c "" items) = "$(rocket) o/r#2 has conflicts"%string.
Proof.
  intros c items.
  assert ("mergeable"%string ∈ default [] (groups c)) as Hin
    by (right; left).
  assert (groupAndSortFocusItems items !! "mergeable"%string
          = Some [Sample.pr "o" "r" "1" "mergeable"]%string) as Hm
    by (vm_compute; reflexivity).
  split; [reflexivity |]. split; [exact Hin |]. split; [exact Hm |].
  split; [| vm_compute; reflexivity].
  exact (mergeable_colour_wins c "" items _ _ eq_refl Hin Hm).
Defined.

(** [unknown_groups_only_separators] with the one configured group
    'other'. *)
Lemma unknown_groups_only_separators_witness :
  let c := {| indicator_enabled := true; openInEditor := false;
              polling_enabled := true; polling_interval := 1;
              useColors := true; groups := Some ["other"]%string;
              label := None; icon := None |} in
  let items := Some [Sample.pr "o" "r" "1" "draft"]%string in
  (0 < String.length "H")
  ∧ p_tooltip (renderItems c "H" items) = ("H" +:+ groupSeparator)%string
  ∧ p_text (renderItems c "H" items) = "$(rocket)"%string.
Proof.
  intros c items.
  assert (∀ g, g ∈ default [] (groups c) → Observe.knownGroup g = false) as Hk.
  { intros g Hg. apply elem_of_cons in Hg as [-> | Hg]; [reflexivity |].
    apply elem_of_nil in Hg. destruct Hg. }
  assert (hasImportantGroupsWithItems (default [] (groups c))
            (groupAndSortFocusItems items) = true) as Himp
    by (vm_compute; reflexivity).
  assert (0 < String.length "H") as Hlen by (vm_compute; lia).
  pose proof (unknown_groups_only_separators c "H" items Hlen Hk Himp) as Hr.
  split; [exact Hlen |].
  rewrite Hr. split; [vm_compute; reflexivity | reflexivity].
Defined.

(** [startup_status_bar] with polling disabled: the item is shown
    blank. *)
Lemma startup_status_bar_witness :
  let e := Sample.env false 1 true 0 in
  indicator_enabled (cfg e) = true
  ∧ _state (this (newFocusIndicator e (freshHost None))) = idle
  ∧ shown (newFocusIndicator e (freshHost None))
    = Some (""%string, ""%string, None)
  ∧ host (newFocusIndicator e (freshHost None)) = freshHost None.
Proof.
  intros e.
  destruct (startup_status_bar e (freshHost None) eq_refl)
    as (Hst & _ & Hidle & _).
  split; [reflexivity |]. split; [exact Hst |]. exact (Hidle eq_refl).
Defined.

(** [status_bar_or_inert] on the indicator constructed switched off. *)
Lemma status_bar_or_inert_witness :
  let s := newFocusIndicator SampleMore.disabledEnv (freshHost None) in
  reachable s
  ∧ (is_Some (_statusBarFocus (this s)) ∨ Observe.inert s).
Proof.
  intros s.
  assert (reachable s) as Hr by exact (reach_new _ _).
  split; [exact Hr |]. exact (proj1 (status_bar_or_inert s Hr)).
Defined.

(** [codelens_enabled_iff_held_live] after [onReady] with code lens on and
    the import resolved. *)
Lemma codelens_enabled_iff_held_live_witness :
  let s := SampleMore.lensSys in
  CodeLens.reachable s
  ∧ CodeLens.heldLive s = CodeLens.isEnabled s
  ∧ CodeLens.isEnabled s = true.
Proof.
  intros s.
  assert (CodeLens.reachable s) as Hr
    by (apply reachable_run; exact (CodeLens.reach_new 0)).
  destruct (codelens_enabled_iff_held_live s Hr) as (Hl & _).
  split; [exact Hr |]. split; [exact Hl | vm_compute; reflexivity].
Defined.

(** [toggle_then_import] with code lens toggled off: the toggle returns
    with code lens off, and the resolved import makes provider 1. *)
Lemma toggle_then_import_witness :
  let s := SampleMore.lensOffSys in
  CodeLens.reachable s
  ∧ CodeLens.canToggle s = true
  ∧ CodeLens.isEnabled s = false
  ∧ CodeLens.this (CodeLens.toggleCodeLens s) = CodeLens.this s
  ∧ CodeLens._provider
      (CodeLens.this
         (CodeLens.handle CodeLens.ImportResolved (CodeLens.toggleCodeLens s)))
    = Some 1.
Proof.
  intros s.
  assert (CodeLens.reachable s) as Hr.
  { apply CodeLens.reach_step. apply reachable_run.
    exact (CodeLens.reach_new 0). }
  assert (CodeLens.canToggle s = true) as Hc by (vm_compute; reflexivity).
  assert (CodeLens.isEnabled s = false) as Hen by (vm_compute; reflexivity).
  destruct (toggle_then_import s Hr) as (_ & _ & Hoff).
  destruct (Hoff Hc Hen) as (H1 & _ & _ & _ & H5 & _).
  split; [exact Hr |]. split; [exact Hc |]. split; [exact Hen |].
  split; [exact H1 | exact H5].
Defined.

(** [unheld_registration_stays] where a toggle overlapped the import
    started by [onReady]: registrations 0 and 1 are live, the controller
    holds 1, and 0 stays live when code lens is toggled off and the
    controller disposed of. *)
Lemma unheld_registration_stays_witness :
  let s := SampleMore.overlapSys in
  let evs := [CodeLens.ToggleCodeLens] in
  CodeLens.reachable s
  ∧ 0 ∈ CodeLens.registered (CodeLens.host s)
  ∧ 1 ∈ CodeLens.registered (CodeLens.host s)
  ∧ CodeLens._providerDisposable (CodeLens.this s) = Some 1
  ∧ CodeLens.isEnabled (CodeLens.run evs s) = false
  ∧ 0 ∈ CodeLens.registered (CodeLens.host (CodeLens.run evs s))
  ∧ 0 ∈ CodeLens.registered
          (CodeLens.host (CodeLens.dispose (CodeLens.run evs s))).
Proof.
  intros s evs.
  assert (CodeLens.reachable s) as Hr
    by (apply reachable_run; exact (CodeLens.reach_new 0)).
  assert (CodeLens.registered (CodeLens.host s) = {[1; 0]}) as Hreg
    by (vm_compute; reflexivity).
  assert (0 ∈ CodeLens.registered (CodeLens.host s)) as H0.
  { rewrite Hreg. apply elem_of_union_r. apply elem_of_singleton.
    reflexivity. }
  assert (1 ∈ CodeLens.registered (CodeLens.host s)) as H1.
  { rewrite Hreg. apply elem_of_union_l. apply elem_of_singleton.
    reflexivity. }
  assert (CodeLens._providerDisposable (CodeLens.this s) = Some 1) as Hh
    by (vm_compute; reflexivity).
  assert (CodeLens._providerDisposable (CodeLens.this s) ≠ Some 0) as Hne
    by (rewrite Hh; discriminate).
  destruct (unheld_registration_stays s 0 evs Hr H0 Hne) as (R1 & _ & R3).
  split; [exact Hr |]. split; [exact H0 |]. split; [exact H1 |].
  split; [exact Hh |]. split; [vm_compute; reflexivity |].
  split; [exact R1 | exact R3].
Defined.

(** [settled_single_provider] after [onReady] with code lens on. *)
Lemma settled_single_provider_witness :
  let s := CodeLens.settle
             (CodeLens.handle (CodeLens.Ready true SampleMore.codeLensOn)
                (CodeLens.newController 0)) in
  CodeLens.reachable_settled s
  ∧ CodeLens.isEnabled s = true
  ∧ size (CodeLens.registered (CodeLens.host s)) ≤ 1.
Proof.
  intros s.
  assert (CodeLens.reachable_settled s) as Hs
    by (apply CodeLens.settled_step; exact (CodeLens.settled_new 0)).
  destruct (settled_single_provider s Hs) as (_ & _ & Hsize & _).
  split; [exact Hs |]. split; [vm_compute; reflexivity | exact Hsize].
Defined.

(** [repo_host_flags_agree] on a bootstrap with GitHub connected. *)
Lemma repo_host_flags_agree_witness :
  let evs := [(Sample.homeEnv ["github"%string] [], Home.BootstrapRequested)] in
  let st := {| Home.repoHostChecked := true; Home.editorPreviewEnabled := false;
               Home.canEnableCodeLens := true; Home.repoHostConnected := true;
               Home.hasAnyIntegrationConnected := true |} in
  Home.Bootstrap st ∈ fst (Home.run evs (Home.newProvider None))
  ∧ HomeUsage.repoHostOf (Home.Bootstrap st) = Some (true, true)
  ∧ true = true.
Proof.
  intros evs st.
  assert (Home.Bootstrap st ∈ fst (Home.run evs (Home.newProvider None)))
    as Hin by (vm_compute; left).
  split; [exact Hin |]. split; [reflexivity |].
  exact (repo_host_flags_agree evs (Home.newProvider None) _ true true Hin
           eq_refl).
Defined.

(** The usage check on a store where the file history view was used and
    the line history view is tracked without a first use. *)
Example inspect_checked :
  HomeUsage.checkIfSomeUsed SampleMore.usage HomeUsage.inspectKeys = true
  ∧ HomeUsage.checkIfSomeUsed SampleMore.usage
      ["lineHistoryView:shown"; "homeView:shown"]%string = false.
Proof. vm_compute. split; reflexivity. Qed.
